(** * Datastrix RAG service: ingestion and retrieval

    A shallow embedding of [flask_api-main/vector_generator.py],
    [flask_api-main/search_context.py] and [flask_api-main/delete_chunks.py],
    and of the two handlers of [flask_api-main/main.py] that call the
    retriever and the chat model.  The Qdrant store is an explicit
    state, every collaborator call (store, embedder, chat model, PDF parser,
    text splitter) is recorded in a trace and may raise according to an
    arbitrary fault schedule, and Python exceptions are an error monad.

    Strings are the UTF-8 bytes of Python's strings: [strip] removes the
    white space of Unicode, [lower] is exact in the ASCII characters of its
    result, and strings are ordered byte by byte, which is the order of
    their code points.  Embedding vectors are an abstract type, and so is
    the ranking of the store. *)

From Stdlib Require Import ZArith Ascii String Lia.
From stdpp Require Import base option list strings gmap sorting.

Set Warnings "-register-all".

Local Open Scope string_scope.
Local Open Scope list_scope.
Local Open Scope stdpp_scope.

(** ** Python built-ins used by the source *)

Module Py.

(** The double-quote character, for string constants that contain it. *)
Definition dq : string := String (ascii_of_nat 34) EmptyString.

(** [c.lower()] on one ASCII character. *)
Definition lower_ascii (c : ascii) : ascii :=
  let n := nat_of_ascii c in
  if ((65 <=? n)%nat && (n <=? 90)%nat)%bool then ascii_of_nat (n + 32) else c.

Definition is_byte (c : ascii) (n : nat) : bool := (nat_of_ascii c =? n)%nat.

(** [s.lower()] on the UTF-8 bytes of [s], exact in every ASCII character
    of the result: beside [A-Z], the only characters whose lower-case form
    has an ASCII character are U+212A KELVIN SIGN (bytes E2 84 AA), which
    becomes [k], and U+0130 (bytes C4 B0), which becomes [i] followed by
    U+0307 (bytes CC 87).  Every other character outside ASCII is left as
    it is, where [str.lower()] gives characters outside ASCII again; the
    source only searches lower-cased text for ASCII words. *)
Fixpoint lower (s : string) : string :=
  match s with
  | EmptyString => EmptyString
  | String c s1 =>
      match s1 with
      | String c1 s2 =>
          if is_byte c 196 && is_byte c1 176
          then String "i" (String (ascii_of_nat 204) (String (ascii_of_nat 135) (lower s2)))
          else
            match s2 with
            | String c2 s3 =>
                if is_byte c 226 && is_byte c1 132 && is_byte c2 170
                then String "k" (lower s3)
                else String (lower_ascii c) (lower s1)
            | EmptyString => String (lower_ascii c) (lower s1)
            end
      | EmptyString => String (lower_ascii c) EmptyString
      end
  end.

(** A well-formed UTF-8 text, as the encoding of a [str] is: [pending]
    counts the continuation bytes still to come. *)
Fixpoint utf8_go (pending : nat) (s : string) : bool :=
  match s with
  | EmptyString => (pending =? 0)%nat
  | String c s' =>
      let n := nat_of_ascii c in
      match pending with
      | O =>
          if (n <? 128)%nat then utf8_go 0 s'
          else if (192 <=? n)%nat && (n <? 224)%nat then utf8_go 1 s'
          else if (224 <=? n)%nat && (n <? 240)%nat then utf8_go 2 s'
          else if (240 <=? n)%nat && (n <? 248)%nat then utf8_go 3 s'
          else false
      | S k => if (128 <=? n)%nat && (n <? 192)%nat then utf8_go k s' else false
      end
  end.

Definition utf8 (s : string) : bool := utf8_go 0 s.

(** [sub in s] for two strings. *)
Fixpoint contains (sub s : string) : bool :=
  String.prefix sub s ||
  match s with
  | EmptyString => false
  | String _ s' => contains sub s'
  end.

(** [c.isspace()] on one ASCII character. *)
Definition isspace (c : ascii) : bool :=
  let n := nat_of_ascii c in
  ((9 <=? n)%nat && (n <=? 13)%nat) || ((28 <=? n)%nat && (n <=? 32)%nat).

(** The white space outside ASCII, in UTF-8: U+0085 and U+00A0 (two
    bytes); U+1680, U+2000 to U+200A, U+2028, U+2029, U+202F, U+205F and
    U+3000 (three bytes). *)
Definition isspace2 (a b : ascii) : bool :=
  is_byte a 194 && (is_byte b 133 || is_byte b 160).

Definition isspace3 (a b c : ascii) : bool :=
  let n := nat_of_ascii c in
  (is_byte a 225 && is_byte b 154 && is_byte c 128)
  || (is_byte a 226 && is_byte b 128
      && (((128 <=? n)%nat && (n <=? 138)%nat)
          || is_byte c 168 || is_byte c 169 || is_byte c 175))
  || (is_byte a 226 && is_byte b 129 && is_byte c 159)
  || (is_byte a 227 && is_byte b 128 && is_byte c 128).

(** [s.lstrip()]; with [reversed], the same on a text whose bytes are in
    the opposite order. *)
Fixpoint lstrip_go (reversed : bool) (s : string) : string :=
  match s with
  | EmptyString => EmptyString
  | String a s1 =>
      if isspace a then lstrip_go reversed s1
      else
        match s1 with
        | String b s2 =>
            if (if reversed then isspace2 b a else isspace2 a b)
            then lstrip_go reversed s2
            else
              match s2 with
              | String c s3 =>
                  if (if reversed then isspace3 c b a else isspace3 a b c)
                  then lstrip_go reversed s3
                  else s
              | EmptyString => s
              end
        | EmptyString => s
        end
  end.

Definition lstrip (s : string) : string := lstrip_go false s.

(** [s.strip()]. *)
Definition strip (s : string) : string :=
  String.rev (lstrip_go true (String.rev (lstrip_go false s))).

(** [s.split(sep)] for a non-empty separator: [skip] counts the characters
    of a separator just matched that are still to be dropped, [cur] is the
    current piece, reversed. *)
Fixpoint split_go (sep : string) (skip : nat) (cur : string) (s : string)
  : list string :=
  match s with
  | EmptyString => [String.rev cur]
  | String c s' =>
      match skip with
      | S k => split_go sep k cur s'
      | O =>
          if String.prefix sep s
          then String.rev cur :: split_go sep (String.length sep - 1) EmptyString s'
          else split_go sep O (String c cur) s'
      end
  end.

Definition split (sep s : string) : list string := split_go sep O EmptyString s.

(** The characters of a string, as iteration over a [str] yields them. *)
Fixpoint chars (s : string) : list string :=
  match s with
  | EmptyString => []
  | String c s' => String c EmptyString :: chars s'
  end.

End Py.

(** ** Python values *)

(** Scalar payload values: the store holds JSON payloads; this application
    writes strings and integers, and [dict.get] yields [None] for a missing
    key or a [null].  Floats and booleans, which another writer could store
    and which Python orders with the integers, are not represented: what is
    said of payloads below is said of these three kinds. *)
Inductive pyval :=
| PNone
| PInt (z : Z)
| PStr (s : string).

Global Instance pyval_eq_dec : EqDecision pyval.
Proof. solve_decision. Defined.

(** Truth value of a payload scalar, as [if x:] tests it. *)
Definition truthy (v : pyval) : bool :=
  match v with
  | PNone => false
  | PInt z => negb (Z.eqb z 0)
  | PStr s => negb (String.eqb s "")
  end.

(** What [json.loads] can produce.  The code never looks into a number, so
    integers stand for all of them. *)
Inductive pyobj :=
| JNull
| JBool (b : bool)
| JNum (z : Z)
| JStr (s : string)
| JList (l : list pyobj)
| JDict (kv : list (string * pyobj)).

(** Exceptions: class name, [str(e)] and the [status_code] attribute when the
    exception has one. *)
Record exn := Exn {
  exn_class : string;
  exn_str : string;
  exn_status : option Z
}.

Definition TypeError : exn := Exn "TypeError" "" None.
Definition AttributeError : exn := Exn "AttributeError" "" None.
Definition IndexError : exn := Exn "IndexError" "list index out of range" None.
Definition RecursionError : exn :=
  Exn "RecursionError" "maximum recursion depth exceeded" None.
Definition ValueError (msg : string) : exn := Exn "ValueError" msg None.

Inductive result (A : Type) :=
| Ok (a : A)
| Raise (e : exn).
Arguments Ok {A} a.
Arguments Raise {A} e.

(** [a < b] on payload scalars; comparing [None] or mixed types raises. *)
Definition py_lt (a b : pyval) : result bool :=
  match a, b with
  | PInt x, PInt y => Ok (Z.ltb x y)
  | PStr s, PStr t => Ok (String.ltb s t)
  | _, _ => Raise TypeError
  end.

(** ** The vector store *)

(** Payloads are Python dicts from field name to scalar. *)
Abbreviation Payload := (gmap string pyval).

(** [payload.get(k)] and [payload.get(k, d)]. *)
Definition dict_get (p : Payload) (k : string) : pyval := default PNone (p !! k).
Definition dict_get_default (p : Payload) (k : string) (d : pyval) : pyval :=
  default d (p !! k).

(** The filter grammar the source uses: a conjunction ([must]) of field
    conditions [MatchValue] (field == value) and [MatchAny] (field in values). *)
Inductive Match :=
| MatchValue (value : string)
| MatchAny (any : list string).

Record FieldCondition := {
  key : string;
  match_ : Match
}.

Record Filter := { must : list FieldCondition }.

Definition match_holds (m : Match) (v : pyval) : bool :=
  match v, m with
  | PStr s, MatchValue value => String.eqb s value
  | PStr s, MatchAny any => existsb (String.eqb s) any
  | _, _ => false
  end.

Definition condition_holds (p : Payload) (c : FieldCondition) : bool :=
  match p !! key c with
  | Some v => match_holds (match_ c) v
  | None => false
  end.

Definition filter_holds (f : Filter) (p : Payload) : bool :=
  forallb (condition_holds p) (must f).

Section Store.

(** Embedding vectors are never inspected by the code. *)
Context {vector : Type}.

(** [models.PointStruct]. *)
Record Point := {
  id : string;
  vec : vector;
  payload : Payload
}.

(** What [scroll] and [search] return for a point: the payload is [None]
    unless [with_payload] was set. *)
Record Record_ := {
  rid : string;
  rpayload : option Payload
}.

Definition to_record (with_payload : bool) (p : Point) : Record_ :=
  {| rid := id p; rpayload := if with_payload then Some (payload p) else None |}.

(** A collection: its vector size, its payload indexes and its points. *)
Record Collection := {
  vector_size : Z;
  indexes : list string;
  points : list Point
}.

(** The store holds at most the one collection [COLLECTION_NAME]. *)
Definition Store := option Collection.

(** The exception the client raises for a collection that does not exist. *)
Definition not_found : exn :=
  Exn "UnexpectedResponse" "Unexpected Response: 404 (Not Found)" (Some 404%Z).

Definition store_get_collection (s : Store) : result Collection * Store :=
  match s with
  | Some c => (Ok c, s)
  | None => (Raise not_found, s)
  end.

(** [recreate_collection]: drop the collection if it exists, create it empty. *)
Definition store_recreate_collection (size : Z) (s : Store) : result unit * Store :=
  (Ok tt, Some {| vector_size := size; indexes := []; points := [] |}).

Definition store_delete_collection (s : Store) : result unit * Store :=
  (Ok tt, None).

(** [create_payload_index]: a no-op on a field that is indexed already. *)
Definition store_create_payload_index (field : string) (s : Store)
  : result unit * Store :=
  match s with
  | Some c =>
      (Ok tt,
       Some {| vector_size := vector_size c;
               indexes := if bool_decide (field ∈ indexes c) then indexes c
                          else indexes c ++ [field];
               points := points c |})
  | None => (Raise not_found, s)
  end.

Definition matching (f : Filter) (c : Collection) : list Point :=
  filter (λ p, filter_holds f (payload p) = true) (points c).

(** The store lists points by id: for the ids of this application, the
    text of a UUID, this is the order of the texts. *)
Fixpoint insert_by_id (p : Point) (l : list Point) : list Point :=
  match l with
  | [] => [p]
  | q :: l' => if String.ltb (id p) (id q) then p :: l else q :: insert_by_id p l'
  end.

Definition by_id (l : list Point) : list Point := foldr insert_by_id [] l.

(** The first page of a scroll: the [limit] matching points of least id. *)
Definition scroll_page (f : Filter) (limit : nat) (c : Collection) : list Point :=
  take limit (by_id (matching f c)).

(** [scroll]: a page of at most [limit] matching points, by id. *)
Definition store_scroll (f : Filter) (limit : nat) (with_payload : bool) (s : Store)
  : result (list Record_) * Store :=
  match s with
  | Some c => (Ok (to_record with_payload <$> scroll_page f limit c), s)
  | None => (Raise not_found, s)
  end.

(** [search]: the [limit] best matching points in the order [rank] gives. *)
Definition store_search (rank : vector → list Point → list Point)
    (qv : vector) (f : Filter) (limit : nat) (with_payload : bool) (s : Store)
  : result (list Record_) * Store :=
  match s with
  | Some c => (Ok (to_record with_payload <$> take limit (rank qv (matching f c))), s)
  | None => (Raise not_found, s)
  end.

(** [upsert] of one point: overwrite the point with the same id, or add it. *)
Fixpoint upsert_point (p : Point) (ps : list Point) : list Point :=
  match ps with
  | [] => [p]
  | q :: ps' => if String.eqb (id q) (id p) then p :: ps' else q :: upsert_point p ps'
  end.

Definition store_upsert (batch : list Point) (s : Store) : result unit * Store :=
  match s with
  | Some c =>
      (Ok tt,
       Some {| vector_size := vector_size c;
               indexes := indexes c;
               points := foldl (λ ps p, upsert_point p ps) (points c) batch |})
  | None => (Raise not_found, s)
  end.

End Store.
Arguments scroll_page : simpl never.
Arguments Point : clear implicits.
Arguments Collection : clear implicits.
Arguments Store : clear implicits.

(** ** Collaborators, effects and the monad *)

(** Lines the source writes to the log. *)
Inductive logmsg :=
| LogCollectionNotFound
| LogCreatingCollection
| LogCreatingIndexes
| LogCollectionCreated
| LogVerifyingCollection
| LogDimensionMismatch (current_dim : Z)
| LogEnsuringIndexes
| LogIndexesConfirmed
| LogIndexFailed (e : exn)
| LogInitFailed (e : exn)
| LogExtractFailed (original_filename : string) (e : exn)
| LogIngestionStart (file_id : string)
| LogAlreadyProcessed (file_id user_id : string)
| LogNoTextContent (original_filename : string)
| LogZeroChunks (original_filename : string)
| LogStored (n : nat) (original_filename : string)
| LogProcessingFailed (original_filename : string) (e : exn)
| LogIngestionEnd
| LogExpandFailed (e : exn)
| LogContextSearch (query : string) (is_summary_request : bool)
| LogRetrieved (n : nat)
| LogQdrantFailed (user_id : string) (e : exn).

Section Effects.

Context {vector : Type}.

(** The calls the code makes to its collaborators. *)
Inductive request :=
| GetCollection
| RecreateCollection (size : Z)
| CreatePayloadIndex (field : string)
| DeleteCollection
| Scroll (f : Filter) (limit : nat) (with_payload : bool)
| Search (qv : vector) (f : Filter) (limit : nat)
| Upsert (batch : list (Point vector))
| PdfOpen (file_content_bytes : list Byte.byte)
| SplitText (text : string)
| EmbedDocuments (chunks : list string)
| EmbedQuery (q : pyobj)
| Invoke (messages : list (string * string)).

(** One entry per collaborator call and per log line, in program order;
    [Raised r e] follows the call [r] that raised [e]. *)
Inductive event :=
| Call (r : request)
| Raised (r : request) (e : exn)
| Log (m : logmsg).

(** The collaborators the code is handed.  [faults] says which collaborator
    call (counted from process start) raises, and what. *)
Record Env := {
  faults : nat → option exn;
  uuid4 : nat → string;
  pdf_pages : list Byte.byte → list (option string);
  split_text : string → list string;
  embed_documents : list string → list vector;
  embed_query : pyobj → vector;
  rank : vector → list (Point vector) → list (Point vector);
  db_client : option (list (string * string) → string);
  json_loads : string → result pyobj
}.

Record World := {
  clock : nat;
  store : Store vector
}.

(** State, trace and exceptions. *)
Definition M (A : Type) : Type := World → result A * World * list event.

Definition ret {A} (a : A) : M A := λ w, (Ok a, w, []).

Definition bind {A B} (m : M A) (k : A → M B) : M B := λ w,
  match m w with
  | (Ok a, w1, t1) =>
      match k a w1 with
      | (r, w2, t2) => (r, w2, t1 ++ t2)
      end
  | (Raise e, w1, t1) => (Raise e, w1, t1)
  end.

Definition raise {A} (e : exn) : M A := λ w, (Raise e, w, []).

(** [try: m except Exception as e: h e]. *)
Definition try_except {A} (m : M A) (h : exn → M A) : M A := λ w,
  match m w with
  | (Ok a, w1, t1) => (Ok a, w1, t1)
  | (Raise e, w1, t1) =>
      match h e w1 with
      | (r, w2, t2) => (r, w2, t1 ++ t2)
      end
  end.

(** [try: m finally: f], for an [f] that does not raise or return. *)
Definition try_finally {A} (m : M A) (f : M unit) : M A := λ w,
  match m w with
  | (r, w1, t1) =>
      match f w1 with
      | (_, w2, t2) => (r, w2, t1 ++ t2)
      end
  end.

Definition lift {A} (r : result A) : M A := λ w, (r, w, []).

Definition logging (m : logmsg) : M unit := λ w, (Ok tt, w, [Log m]).

Variable E : Env.

(** A collaborator call: it takes one tick of the clock, raises what the
    fault schedule says, and otherwise acts on the store. *)
Definition call {A} (r : request) (op : Store vector → result A * Store vector)
  : M A := λ w,
  match faults E (clock w) with
  | Some e =>
      (Raise e, {| clock := S (clock w); store := store w |}, [Call r; Raised r e])
  | None =>
      match op (store w) with
      | (Ok a, s) => (Ok a, {| clock := S (clock w); store := s |}, [Call r])
      | (Raise e, s) =>
          (Raise e, {| clock := S (clock w); store := s |}, [Call r; Raised r e])
      end
  end.

(** [str(uuid.uuid4())]. *)
Definition fresh_uuid : M string := λ w,
  (Ok (uuid4 E (clock w)), {| clock := S (clock w); store := store w |}, []).

End Effects.
Arguments request : clear implicits.
Arguments event : clear implicits.
Arguments Env : clear implicits.
Arguments World : clear implicits.
Arguments M : clear implicits.

Global Instance M_ret {vector} : MRet (M vector) := @ret vector.
Global Instance M_bind {vector} : MBind (M vector) := λ A B k m, bind m k.

(** ** vector_generator.py *)

Definition COLLECTION_NAME : string := "doc_assist_collection".
Definition EMBEDDING_DIM : Z := 1024.
Definition TEXT_CHUNK_SIZE : Z := 512.
Definition TEXT_CHUNK_OVERLAP : Z := 50.

(** The test of [_get_or_create_collection] for "the collection is missing":
    ["404" in str(e) or "not found" in str(e).lower() or e.status_code == 404]. *)
Definition is_not_found (e : exn) : bool :=
  Py.contains "404" (exn_str e)
  || Py.contains "not found" (Py.lower (exn_str e))
  || match exn_status e with
     | Some c => Z.eqb c 404
     | None => false
     end.

(** ["\n\n".join(full_text)]. *)
Fixpoint join_pages (full_text : list string) : string :=
  match full_text with
  | [] => ""
  | [t] => t
  | t :: rest => t +:+ String (ascii_of_nat 10) (String (ascii_of_nat 10) (join_pages rest))
  end.

(** The pages whose [extract_text()] is truthy. *)
Definition page_texts (pages : list (option string)) : list string :=
  omap (λ page_text,
          match page_text with
          | Some t => if String.eqb t "" then None else Some t
          | None => None
          end) pages.

Section VectorGenerator.

Context {vector : Type} (E : Env vector).

(** [VectorGenerator._get_or_create_collection].  [depth] is the number of
    stack frames left: Python raises [RecursionError] when none is. *)
Fixpoint _get_or_create_collection (depth : nat) : M vector unit :=
  match depth with
  | O => raise RecursionError
  | S depth' =>
      try_except
        (collection_exists ←
           try_except
             (call E GetCollection store_get_collection;; mret true)
             (λ e, if is_not_found e
                   then logging LogCollectionNotFound;; mret false
                   else raise e);
         if negb collection_exists then
           logging LogCreatingCollection;;
           call E (RecreateCollection EMBEDDING_DIM)
                  (store_recreate_collection EMBEDDING_DIM);;
           logging LogCreatingIndexes;;
           call E (CreatePayloadIndex "user_id") (store_create_payload_index "user_id");;
           call E (CreatePayloadIndex "file_id") (store_create_payload_index "file_id");;
           logging LogCollectionCreated
         else
           logging LogVerifyingCollection;;
           collection_info ← call E GetCollection store_get_collection;
           let current_dim := vector_size collection_info in
           if negb (Z.eqb current_dim EMBEDDING_DIM) then
             logging (LogDimensionMismatch current_dim);;
             call E DeleteCollection store_delete_collection;;
             _get_or_create_collection depth'
           else
             logging LogEnsuringIndexes;;
             try_except
               (call E (CreatePayloadIndex "user_id")
                       (store_create_payload_index "user_id");;
                call E (CreatePayloadIndex "file_id")
                       (store_create_payload_index "file_id");;
                logging LogIndexesConfirmed)
               (λ index_error, logging (LogIndexFailed index_error);; raise index_error))
        (λ e, logging (LogInitFailed e);; raise e)
  end.

(** [VectorGenerator._extract_text_from_file]. *)
Definition _extract_text_from_file (file_content_bytes : list Byte.byte)
    (original_filename : string) : M vector string :=
  try_except
    (pages ← call E (PdfOpen file_content_bytes)
                    (λ s, (Ok (pdf_pages E file_content_bytes), s));
     mret (join_pages (page_texts pages)))
    (λ e, logging (LogExtractFailed original_filename e);;
          raise (ValueError ("Could not process PDF content for " +:+ original_filename +:+ "."))).

(** The payload of the point for chunk [i]. *)
Definition chunk_payload (user_id user_name collection_name original_filename
    timestamp file_id : string) (i : nat) (chunk_text : string) : Payload :=
  <["file_id" := PStr file_id]>
  (<["user_id" := PStr user_id]>
  (<["user_name" := PStr user_name]>
  (<["collection_name" := PStr collection_name]>
  (<["original_filename" := PStr original_filename]>
  (<["timestamp" := PStr timestamp]>
  (<["chunk_index" := PInt (Z.of_nat i)]>
  (<["text" := PStr chunk_text]> ∅))))))).

(** The list comprehension building [points_to_insert], from index [i] on:
    one fresh id, [embeddings[i]] and the payload per chunk. *)
Fixpoint points_from (user_id user_name collection_name original_filename
    timestamp file_id : string) (embeddings : list vector)
    (i : nat) (chunks : list string) : M vector (list (Point vector)) :=
  match chunks with
  | [] => mret []
  | chunk_text :: chunks' =>
      uuid ← fresh_uuid E;
      v ← lift (match embeddings !! i with
                | Some v => Ok v
                | None => Raise IndexError
                end);
      rest ← points_from user_id user_name collection_name original_filename
               timestamp file_id embeddings (S i) chunks';
      mret ({| id := uuid;
               vec := v;
               payload := chunk_payload user_id user_name collection_name
                            original_filename timestamp file_id i chunk_text |}
            :: rest)
  end.

(** The duplicate check's filter: [file_id] and [user_id] both match. *)
Definition duplicate_filter (file_id user_id : string) : Filter :=
  {| must := [ {| key := "file_id"; match_ := MatchValue file_id |};
               {| key := "user_id"; match_ := MatchValue user_id |} ] |}.

(** [VectorGenerator.process_document]; every path that does not raise
    returns [None]. *)
Definition process_document (user_id user_name collection_name original_filename
    timestamp : string) (file_content_bytes : list Byte.byte) (file_id : string)
  : M vector pyval :=
  logging (LogIngestionStart file_id);;
  try_finally
    (try_except
       (scroll_response ← call E (Scroll (duplicate_filter file_id user_id) 1 false)
                                 (store_scroll (duplicate_filter file_id user_id) 1 false);
        if negb (bool_decide (scroll_response = [])) then
          logging (LogAlreadyProcessed file_id user_id);;
          mret PNone
        else
          text_content ← _extract_text_from_file file_content_bytes original_filename;
          if String.eqb text_content "" || String.eqb (Py.strip text_content) "" then
            logging (LogNoTextContent original_filename);;
            mret PNone
          else
            chunks ← call E (SplitText text_content)
                            (λ s, (Ok (split_text E text_content), s));
            if bool_decide (chunks = []) then
              logging (LogZeroChunks original_filename);;
              mret PNone
            else
              embeddings ← call E (EmbedDocuments chunks)
                                  (λ s, (Ok (embed_documents E chunks), s));
              points_to_insert ← points_from user_id user_name collection_name
                                   original_filename timestamp file_id embeddings O chunks;
              match points_to_insert with
              | [] => mret PNone
              | _ :: _ =>
                  call E (Upsert points_to_insert) (store_upsert points_to_insert);;
                  logging (LogStored (length points_to_insert) original_filename);;
                  mret PNone
              end)
       (λ e, logging (LogProcessingFailed original_filename e);; raise e))
    (logging LogIngestionEnd).

End VectorGenerator.

(** ** search_context.py *)

Definition TOP_K_RESULTS : nat := 3.
Definition SUMMARY_CHUNK_LIMIT : nat := 30.

Definition SUMMARIZATION_KEYWORDS : list string :=
  [ "summarize"; "summary"; "overview"; "gist"; "main points";
    "key points"; "in short"; "in brief"; "what is this about"; "what's this about";
    "tell me about this file"; "give me a summary"; "can you summarize" ].

Definition system_prompt : string :=
  "You are an expert at query expansion. Based on the user's question, generate a JSON array of 3-5 diverse, specific search queries. Return ONLY the JSON array."
  +:+ String (ascii_of_nat 10)
  ("Example: User question: " +:+ Py.dq +:+ "Safety requirements for thruster control system?" +:+ Py.dq)
  +:+ String (ascii_of_nat 10)
  ("Response: [" +:+ Py.dq +:+ "thruster control system safety" +:+ Py.dq
   +:+ ", " +:+ Py.dq +:+ "emergency stop procedures" +:+ Py.dq
   +:+ ", " +:+ Py.dq +:+ "control system warnings" +:+ Py.dq
   +:+ ", " +:+ Py.dq +:+ "operator safety guidelines" +:+ Py.dq +:+ "]").

Global Instance result_ret : MRet result := @Ok.
Global Instance result_bind : MBind result := λ A B k r,
  match r with
  | Ok a => k a
  | Raise e => Raise e
  end.

(** [l[i]]. *)
Definition py_index {A} (l : list A) (i : nat) : result A :=
  match l !! i with
  | Some a => Ok a
  | None => Raise IndexError
  end.

Definition is_str (query : string) (o : pyobj) : bool :=
  match o with
  | JStr s => String.eqb s query
  | _ => false
  end.

(** [query in o] for a string [query]: membership in a list, substring of a
    string, key of a dict; not defined on the other values. *)
Definition py_in (query : string) (o : pyobj) : result bool :=
  match o with
  | JList l => Ok (existsb (is_str query) l)
  | JStr s => Ok (Py.contains query s)
  | JDict kv => Ok (existsb (λ e, String.eqb (fst e) query) kv)
  | _ => Raise TypeError
  end.

(** [o.append(query)]: only lists have it. *)
Definition py_append (o : pyobj) (query : string) : result pyobj :=
  match o with
  | JList l => Ok (JList (l ++ [JStr query]))
  | _ => Raise AttributeError
  end.

(** The values [for eq in o] yields. *)
Definition py_iter (o : pyobj) : result (list pyobj) :=
  match o with
  | JList l => Ok l
  | JStr s => Ok (JStr <$> Py.chars s)
  | JDict kv => Ok ((λ e, JStr (fst e)) <$> kv)
  | _ => Raise TypeError
  end.

(** The sort key [lambda k: k.get('chunk_index', 0)]. *)
Definition sort_key (k : Payload) : pyval := dict_get_default k "chunk_index" (PInt 0).

(** [sorted(payloads, key=...)]: a stable sort that compares keys with [<]
    only, and raises when a comparison does.  On two payloads or more some
    comparison raises exactly when the keys are not all integers or all
    strings, whatever the order in which the sort compares them. *)
Fixpoint insert_sorted (x : Payload) (l : list Payload) : result (list Payload) :=
  match l with
  | [] => Ok [x]
  | y :: l' =>
      lt ← py_lt (sort_key y) (sort_key x);
      if lt : bool then r ← insert_sorted x l'; Ok (y :: r) else Ok (x :: l)
  end.

Fixpoint py_sorted (l : list Payload) : result (list Payload) :=
  match l with
  | [] => Ok []
  | x :: l' => s ← py_sorted l'; insert_sorted x s
  end.

(** [record.payload], on which [.get] raises when it is [None]. *)
Definition payload_of (r : Record_) : result Payload :=
  match rpayload r with
  | Some p => Ok p
  | None => Raise AttributeError
  end.

Fixpoint payloads_of (rs : list Record_) : result (list Payload) :=
  match rs with
  | [] => Ok []
  | r :: rs' => p ← payload_of r; ps ← payloads_of rs'; Ok (p :: ps)
  end.

(** The key [(file_id, chunk_index)] of a hit. *)
Definition chunk_key (p : Payload) : pyval * pyval :=
  (dict_get p "file_id", dict_get p "chunk_index").

(** The dict [unique_chunks], in insertion order. *)
Abbreviation unique_dict := (list ((pyval * pyval) * Payload)).

Definition key_in (k : pyval * pyval) (unique_chunks : unique_dict) : bool :=
  bool_decide (k ∈ unique_chunks.*1).

(** The test of the deduplication loop. *)
Definition loop_test (p : Payload) (unique_chunks : unique_dict) : bool :=
  negb (bool_decide (fst (chunk_key p) = PNone))
  && negb (bool_decide (snd (chunk_key p) = PNone))
  && negb (key_in (chunk_key p) unique_chunks)
  && truthy (dict_get p "text").

(** The entry stored for a hit. *)
Definition chunk_entry (p : Payload) : Payload :=
  <["text" := dict_get p "text"]>
  (<["original_filename" := dict_get p "original_filename"]> ∅).

(** The loop [for hit in all_hits] over the payloads of the hits. *)
Fixpoint unique_loop (all_hits : list Payload) (unique_chunks : unique_dict)
  : unique_dict :=
  match all_hits with
  | [] => unique_chunks
  | p :: rest =>
      if loop_test p unique_chunks
      then unique_loop rest (unique_chunks ++ [(chunk_key p, chunk_entry p)])
      else unique_loop rest unique_chunks
  end.

(** The reply of the chat model, stripped and taken out of its [```json]
    fence when it has one (the first three lines of the [try] block of
    [_get_expanded_queries]). *)
Definition response_json_text (content : string) : result string :=
  let response_text := Py.strip content in
  if Py.contains "```json" response_text then
    fenced ← py_index (Py.split "```json" response_text) 1;
    py_index (Py.split "```" fenced) 0
  else Ok response_text.

(** The messages sent to the chat model for a query. *)
Definition expansion_messages (query : string) : list (string * string) :=
  [("system", system_prompt); ("user", query)].

Section ContextRetriever.

Context {vector : Type} (E : Env vector).

(** [ContextRetriever._get_expanded_queries].  The chat model is called with
    [max_tokens=100, temperature=0.3]; its answer is [response.content]. *)
Definition _get_expanded_queries (query : string) : M vector pyobj :=
  match db_client E with
  | None => mret (JList [JStr query])
  | Some invoke =>
      let messages := expansion_messages query in
      try_except
        (content ← call E (Invoke messages) (λ s, (Ok (invoke messages), s));
         response_text ← lift (response_json_text content);
         expanded_queries ← lift (json_loads E response_text);
         present ← lift (py_in query expanded_queries);
         if negb present
         then lift (py_append expanded_queries query)
         else mret expanded_queries)
        (λ e, logging (LogExpandFailed e);; mret (JList [JStr query]))
  end.

Definition query_filter (user_id : string) (file_ids : list string) : Filter :=
  {| must := [ {| key := "user_id"; match_ := MatchValue user_id |};
               {| key := "file_id"; match_ := MatchAny file_ids |} ] |}.

(** The fan-out loop [for eq in expanded_queries], accumulating [all_hits]. *)
Fixpoint fan_out (f : Filter) (expanded_queries : list pyobj)
    (all_hits : list Record_) : M vector (list Record_) :=
  match expanded_queries with
  | [] => mret all_hits
  | eq :: rest =>
      query_vector ← call E (EmbedQuery eq) (λ s, (Ok (embed_query E eq), s));
      search_results ← call E (Search query_vector f TOP_K_RESULTS)
                              (store_search (rank E) query_vector f TOP_K_RESULTS true);
      fan_out f rest (all_hits ++ search_results)
  end.

Definition is_summary_request (query : string) : bool :=
  existsb (λ keyword, Py.contains keyword (Py.lower query)) SUMMARIZATION_KEYWORDS.

(** [ContextRetriever.search].  [self.qdrant] is never missing (the
    constructor raises without it), so the first test is on [file_ids] alone.
    The payloads are taken out of the hits before the deduplication loop
    rather than inside it: a hit without payload raises either way, and
    nothing else in the loop has an effect. *)
Definition search (query user_id : string) (file_ids : list string)
  : M vector (list Payload) :=
  match file_ids with
  | [] => mret []
  | _ :: _ =>
      logging (LogContextSearch query (is_summary_request query));;
      try_except
        (if is_summary_request query then
           scroll_results ← call E (Scroll (query_filter user_id file_ids)
                                           SUMMARY_CHUNK_LIMIT true)
                                   (store_scroll (query_filter user_id file_ids)
                                                 SUMMARY_CHUNK_LIMIT true);
           if bool_decide (scroll_results = []) then mret []
           else
             payloads ← lift (payloads_of scroll_results);
             lift (py_sorted payloads)
         else
           expanded_queries ← _get_expanded_queries query;
           queries ← lift (py_iter expanded_queries);
           all_hits ← fan_out (query_filter user_id file_ids) queries [];
           hit_payloads ← lift (payloads_of all_hits);
           let retrieved_chunks := (unique_loop hit_payloads []).*2 in
           logging (LogRetrieved (length retrieved_chunks));;
           mret retrieved_chunks)
        (λ e, logging (LogQdrantFailed user_id e);; mret [])
  end.

End ContextRetriever.

(** ** Observations on a run *)

Section Observations.

Context {vector : Type}.

(** The pair [(file_id, user_id)] has a stored point. *)
Definition has_stored_point (s : Store vector) (file_id user_id : string) : Prop :=
  ∃ c p, s = Some c ∧ p ∈ points c
         ∧ payload p !! "file_id" = Some (PStr file_id)
         ∧ payload p !! "user_id" = Some (PStr user_id).

(** The stored points of the pair [(file_id, user_id)]. *)
Definition points_of_pair (s : Store vector) (file_id user_id : string)
  : list (Point vector) :=
  match s with
  | Some c => matching (duplicate_filter file_id user_id) c
  | None => []
  end.

(** The ids of a batch are fresh: pairwise distinct and unused in the store. *)
Definition fresh_ids (batch : list (Point vector)) (s : Store vector) : Prop :=
  NoDup (id <$> batch)
  ∧ ∀ c p q, s = Some c → p ∈ batch → q ∈ points c → id p ≠ id q.

(** Extraction, chunking, embedding and writes. *)
Definition is_ingest_work (ev : event vector) : bool :=
  match ev with
  | Call (PdfOpen _ | SplitText _ | EmbedDocuments _ | Upsert _) => true
  | _ => false
  end.

(** The batches written by a run. *)
Definition upserts (t : list (event vector)) : list (list (Point vector)) :=
  omap (λ ev, match ev with Call (Upsert batch) => Some batch | _ => None end) t.

(** The queries embedded and the searches issued by a run. *)
Definition embedded_queries (t : list (event vector)) : list pyobj :=
  omap (λ ev, match ev with Call (EmbedQuery q) => Some q | _ => None end) t.

Definition searches (t : list (event vector)) : list vector :=
  omap (λ ev, match ev with Call (Search qv _ _) => Some qv | _ => None end) t.

(** The terminal outcomes of an ingestion that does not raise, as the log
    line of the run tells them. *)
Inductive Outcome :=
| SkippedDuplicate
| SkippedEmpty
| Ingested (count : nat).

Fixpoint outcome_of (t : list (event vector)) : option Outcome :=
  match t with
  | [] => None
  | Log (LogAlreadyProcessed _ _) :: _ => Some SkippedDuplicate
  | Log (LogNoTextContent _) :: _ => Some SkippedEmpty
  | Log (LogZeroChunks _) :: _ => Some SkippedEmpty
  | Log (LogStored n _) :: _ => Some (Ingested n)
  | _ :: t' => outcome_of t'
  end.

(** A store or embedding call of the run raised. *)
Definition retrieval_request (r : request vector) : bool :=
  match r with
  | Scroll _ _ _ | Search _ _ _ | EmbedQuery _ => true
  | _ => false
  end.

Definition retrieval_failed (t : list (event vector)) : bool :=
  existsb (λ ev, match ev with Raised r _ => retrieval_request r | _ => false end) t.

Definition tick (w : World vector) : World vector :=
  {| clock := S (clock w); store := store w |}.

(** The number of [delete_collection] calls of a run. *)
Definition deletions (t : list (event vector)) : nat :=
  length (omap (λ ev, match ev with Call DeleteCollection => Some tt | _ => None end) t).

End Observations.

(** What the [try] block of [_get_expanded_queries] makes of a decoded
    reply: the original query is appended unless it is in there. *)
Definition with_original (query : string) (decoded : pyobj) : result pyobj :=
  present ← py_in query decoded;
  if negb present then py_append decoded query else Ok decoded.

(** A hit can be kept: both components of its key are there and its text
    is not empty. *)
Definition usable (p : Payload) : bool :=
  negb (bool_decide (fst (chunk_key p) = PNone))
  && negb (bool_decide (snd (chunk_key p) = PNone))
  && truthy (dict_get p "text").

(** The hits the loop keeps, given the keys [seen] so far. *)
Fixpoint kept_hits (seen : list (pyval * pyval)) (hits : list Payload)
  : list Payload :=
  match hits with
  | [] => []
  | p :: rest =>
      if usable p && negb (bool_decide (chunk_key p ∈ seen))
      then p :: kept_hits (chunk_key p :: seen) rest
      else kept_hits seen rest
  end.

(** [a <= b] on sort keys that can be compared. *)
Definition key_le (a b : pyval) : Prop :=
  match a, b with
  | PInt x, PInt y => (x ≤ y)%Z
  | PStr s, PStr t => String.le s t
  | _, _ => False
  end.

(** Non-decreasing [chunk_index] order (a missing index counts as 0). *)
Definition chunk_index_le (p q : Payload) : Prop :=
  key_le (sort_key p) (sort_key q).

Section Derived.

Context {vector : Type} (E : Env vector).

(** The text the extractor yields for a file and its chunks. *)
Definition extracted_text (bytes : list Byte.byte) : string :=
  join_pages (page_texts (pdf_pages E bytes)).

Definition chunks_of (bytes : list Byte.byte) : list string :=
  split_text E (extracted_text bytes).

(** What query expansion makes of the reply [content] of the chat model. *)
Definition expansion_of (query content : string) : result pyobj :=
  response_text ← response_json_text content;
  decoded ← json_loads E response_text;
  with_original query decoded.

(** The points a search for one expanded query finds. *)
Definition found (s : Store vector) (f : Filter) (q : pyobj) : list (Point vector) :=
  match s with
  | Some c => take TOP_K_RESULTS (rank E (embed_query E q) (matching f c))
  | None => []
  end.

(** The hits accumulated over the expanded queries, in order. *)
Definition accumulated (s : Store vector) (f : Filter) (qs : list pyobj)
  : list (Point vector) :=
  concat (found s f <$> qs).

End Derived.

(** ** Concrete collaborators *)

Module Example.

(** A decoder for the JSON texts of the examples: arrays of strings without
    escape sequences, on which it agrees with [json.loads]; it rejects
    every other text. *)
Inductive decoder_state :=
| BeforeArray
| FirstItem
| NextItem
| InString (cur : string)
| AfterString
| AfterArray.

Definition json_space (c : ascii) : bool :=
  let n := nat_of_ascii c in
  (n =? 32)%nat || (n =? 9)%nat || (n =? 10)%nat || (n =? 13)%nat.

Definition JSONDecodeError : exn := Exn "JSONDecodeError" "Expecting value" None.

Fixpoint decode_go (st : decoder_state) (acc : list pyobj) (s : string)
  : result pyobj :=
  match s with
  | EmptyString =>
      match st with
      | AfterArray => Ok (JList (rev acc))
      | _ => Raise JSONDecodeError
      end
  | String c s' =>
      let n := nat_of_ascii c in
      match st with
      | BeforeArray =>
          if json_space c then decode_go BeforeArray acc s'
          else if (n =? 91)%nat then decode_go FirstItem acc s'
          else Raise JSONDecodeError
      | FirstItem =>
          if json_space c then decode_go FirstItem acc s'
          else if (n =? 93)%nat then decode_go AfterArray acc s'
          else if (n =? 34)%nat then decode_go (InString EmptyString) acc s'
          else Raise JSONDecodeError
      | NextItem =>
          if json_space c then decode_go NextItem acc s'
          else if (n =? 34)%nat then decode_go (InString EmptyString) acc s'
          else Raise JSONDecodeError
      | InString cur =>
          if (n =? 34)%nat then decode_go AfterString (JStr (String.rev cur) :: acc) s'
          else if (n =? 92)%nat || (n <? 32)%nat then Raise JSONDecodeError
          else decode_go (InString (String c cur)) acc s'
      | AfterString =>
          if json_space c then decode_go AfterString acc s'
          else if (n =? 44)%nat then decode_go NextItem acc s'
          else if (n =? 93)%nat then decode_go AfterArray acc s'
          else Raise JSONDecodeError
      | AfterArray =>
          if json_space c then decode_go AfterArray acc s'
          else Raise JSONDecodeError
      end
  end.

Definition decode_string_array (s : string) : result pyobj :=
  decode_go BeforeArray [] s.

(** The JSON text of an array of strings. *)
Fixpoint array_items (items : list string) : string :=
  match items with
  | [] => ""
  | [x] => Py.dq +:+ x +:+ Py.dq
  | x :: rest => Py.dq +:+ x +:+ Py.dq +:+ ", " +:+ array_items rest
  end.

Definition array_text (items : list string) : string :=
  "[" +:+ array_items items +:+ "]".

(** No chat model, no faults; a PDF of two pages with text, split in three
    chunks; the store ranks points in stored order. *)
Definition quiet : Env unit := {|
  faults := λ _, None;
  uuid4 := λ n, "uuid-" +:+ String (ascii_of_nat (48 + n)) "";
  pdf_pages := λ _, [Some "page one"; None; Some ""; Some "page two"];
  split_text := λ _, ["alpha"; "beta"; "gamma"];
  embed_documents := λ chunks, (λ _, tt) <$> chunks;
  embed_query := λ _, tt;
  rank := λ _ pts, pts;
  db_client := None;
  json_loads := decode_string_array
|}.

(** The same with a chat model whose reply is [reply]. *)
Definition with_model (reply : string) : Env unit := {|
  faults := faults quiet;
  uuid4 := uuid4 quiet;
  pdf_pages := pdf_pages quiet;
  split_text := split_text quiet;
  embed_documents := embed_documents quiet;
  embed_query := embed_query quiet;
  rank := rank quiet;
  db_client := Some (λ _, reply);
  json_loads := decode_string_array
|}.

(** The same as [quiet], the call number [n] raising a timeout. *)
Definition failing_at (n : nat) : Env unit := {|
  faults := λ k, if (k =? n)%nat then Some (Exn "ResponseHandlingException" "timed out" None)
                 else None;
  uuid4 := uuid4 quiet;
  pdf_pages := pdf_pages quiet;
  split_text := split_text quiet;
  embed_documents := embed_documents quiet;
  embed_query := embed_query quiet;
  rank := rank quiet;
  db_client := None;
  json_loads := decode_string_array
|}.

(** Five paraphrases, as the prompt asks for. *)
Definition five_paraphrases : string :=
  array_text [ "thermal limits"; "operating constraints"; "safety thresholds";
               "maximum ratings"; "limit values" ].

(** The collection as the ensure step creates it. *)
Definition empty_collection : Collection unit :=
  {| vector_size := EMBEDDING_DIM; indexes := ["user_id"; "file_id"]; points := [] |}.

Definition fresh : World unit := {| clock := 0; store := Some empty_collection |}.

(** A collection created with another embedding model. *)
Definition drifted : World unit :=
  {| clock := 0;
     store := Some {| vector_size := 768; indexes := []; points := [] |} |}.

(** The world after the file [f1] of user [u1] was ingested. *)
Definition ingested : World unit :=
  (process_document quiet "u1" "Ann" "docs" "a.pdf" "2024-01-01" [] "f1" fresh).1.2.

(** The same store, its points in the opposite order. *)
Definition shuffled : World unit :=
  {| clock := clock ingested;
     store := (λ c, {| vector_size := vector_size c;
                       indexes := indexes c;
                       points := reverse (points c) |}) <$> store ingested |}.

(** Two hits with the same key, the first one without text. *)
Definition hit_without_text : Payload :=
  <["file_id" := PStr "f1"]> (<["chunk_index" := PInt 2]> (<["text" := PStr ""]> ∅)).

Definition hit_with_text : Payload :=
  <["file_id" := PStr "f1"]> (<["chunk_index" := PInt 2]> (<["text" := PStr "gamma"]> ∅)).

End Example.

(** ** delete_chunks.py *)

(** Lines [ChunkDeleter] writes to the log. *)
Inductive deleter_log :=
| LogDeleterNoClient
| LogDeleterNoFileIds
| LogDeleting (file_ids : list string)
| LogDeleted (file_ids : list string)
| LogDeleteFailed (file_ids : list string) (e : exn).

(** The trace of a deletion: the [delete] call, what it raised, the log. *)
Inductive deleter_event :=
| DeleteCall (f : Filter)
| DeleteRaised (f : Filter) (e : exn)
| DeleterLog (m : deleter_log).

(** [delete] with a filter selector: the points the filter holds of go. *)
Definition store_delete {vector} (f : Filter) (s : Store vector)
  : result unit * Store vector :=
  match s with
  | Some c =>
      (Ok tt,
       Some {| vector_size := vector_size c;
               indexes := indexes c;
               points := filter (λ p, filter_holds f (payload p) = false) (points c) |})
  | None => (Raise not_found, s)
  end.

(** The selector of [delete_by_file_ids]: [file_id] is one of [file_ids]. *)
Definition delete_filter (file_ids : list string) : Filter :=
  {| must := [ {| key := "file_id"; match_ := MatchAny file_ids |} ] |}.

Section ChunkDeleter.

Context {vector : Type} (E : Env vector).

(** [ChunkDeleter.delete_by_file_ids]; [qdrant] tells whether [self.qdrant]
    is there.  The call takes one tick of the clock and raises what the fault
    schedule says.  A call that fails on the side of the client tells
    nothing about the server: [applied n] says whether the store carried out
    call number [n] all the same, and nothing is rolled back. *)
Definition delete_by_file_ids (applied : nat → bool) (qdrant : bool)
    (file_ids : list string) (w : World vector)
  : result pyval * World vector * list deleter_event :=
  if negb qdrant then (Ok PNone, w, [DeleterLog LogDeleterNoClient])
  else
    match file_ids with
    | [] => (Ok PNone, w, [DeleterLog LogDeleterNoFileIds])
    | _ :: _ =>
        let points_selector := delete_filter file_ids in
        match faults E (clock w) with
        | Some e =>
            (Raise e,
             {| clock := S (clock w);
                store := if applied (clock w)
                         then (store_delete points_selector (store w)).2
                         else store w |},
             [DeleterLog (LogDeleting file_ids); DeleteCall points_selector;
              DeleteRaised points_selector e; DeleterLog (LogDeleteFailed file_ids e)])
        | None =>
            match store_delete points_selector (store w) with
            | (Ok _, s) =>
                (Ok PNone, {| clock := S (clock w); store := s |},
                 [DeleterLog (LogDeleting file_ids); DeleteCall points_selector;
                  DeleterLog (LogDeleted file_ids)])
            | (Raise e, s) =>
                (Raise e, {| clock := S (clock w); store := s |},
                 [DeleterLog (LogDeleting file_ids); DeleteCall points_selector;
                  DeleteRaised points_selector e;
                  DeleterLog (LogDeleteFailed file_ids e)])
            end
        end
    end.

End ChunkDeleter.

(** ** main.py: the callers of the retriever and of the chat model *)

Definition KeyError (k : string) : exn := Exn "KeyError" k None.

(** [d[k]]. *)
Definition dict_item (d : Payload) (k : string) : result pyval :=
  match d !! k with
  | Some v => Ok v
  | None => Raise (KeyError k)
  end.

(** [[chunk[k] for chunk in chunks]]. *)
Fixpoint items_of (k : string) (chunks : list Payload) : result (list pyval) :=
  match chunks with
  | [] => Ok []
  | chunk :: rest => v ← dict_item chunk k; vs ← items_of k rest; Ok (v :: vs)
  end.

(** [sep.join(items)] for strings. *)
Fixpoint str_join (sep : string) (items : list string) : string :=
  match items with
  | [] => ""
  | [x] => x
  | x :: rest => x +:+ sep +:+ str_join sep rest
  end.

(** The strings of a list of values; [str.join] raises on any other item. *)
Fixpoint strings_of (items : list pyval) : result (list string) :=
  match items with
  | [] => Ok []
  | PStr s :: rest => ss ← strings_of rest; Ok (s :: ss)
  | _ :: _ => Raise TypeError
  end.

Definition py_join (sep : string) (items : list pyval) : result string :=
  ss ← strings_of items; Ok (str_join sep ss).

(** [sorted(l, key=key)] for any element type: the sort of [py_sorted]. *)
Fixpoint insert_by {A} (key : A → pyval) (x : A) (l : list A) : result (list A) :=
  match l with
  | [] => Ok [x]
  | y :: l' =>
      lt ← py_lt (key y) (key x);
      if lt : bool then r ← insert_by key x l'; Ok (y :: r) else Ok (x :: l)
  end.

Fixpoint sort_by {A} (key : A → pyval) (l : list A) : result (list A) :=
  match l with
  | [] => Ok []
  | x :: l' => s ← sort_by key l'; insert_by key x s
  end.

(** [sorted(l)] on values. *)
Definition sorted_vals (l : list pyval) : result (list pyval) := sort_by (λ v, v) l.

(** The separator of the context texts, ["\n---\n"]. *)
Definition context_separator : string :=
  String (ascii_of_nat 10) ("---" +:+ String (ascii_of_nat 10) "").

(** The elements of the set comprehension [unique_filenames], one per chunk
    whose [original_filename] is truthy. *)
Definition filenames_of (retrieved_chunks : list Payload) : list pyval :=
  omap (λ chunk, if truthy (dict_get chunk "original_filename")
                 then chunk !! "original_filename" else None) retrieved_chunks.

(** The body of [if retrieved_chunks:] in [generate_response]: the context
    text and [files_used].  The set [unique_filenames] is listed without
    repeats in the order of the chunks; [sorted] does not depend on the
    order in which a set is listed. *)
Definition assemble_context (retrieved_chunks : list Payload)
  : result (string * list pyval) :=
  match retrieved_chunks with
  | [] => Ok ("", [])
  | _ :: _ =>
      context_texts ← items_of "text" retrieved_chunks;
      context ← py_join context_separator context_texts;
      files_used ← sorted_vals (remove_dups (filenames_of retrieved_chunks));
      Ok (context, files_used)
  end.

Definition context_failed : string := "Failed to retrieve context from documents.".

(** Lines the handlers of [main.py] write to the log. *)
Inductive app_log :=
| LogContextRetrievalFailed (user_id : pyobj) (e : exn)
| LogTitleFailed (e : exn).

(** The trace of a handler: the events of the services it calls and its own
    log lines. *)
Inductive app_event (vector : Type) :=
| Core (ev : event vector)
| AppLog (m : app_log).
Arguments Core {vector} ev.
Arguments AppLog {vector} m.




(** Truth value of a JSON value, as [if x:] tests it. *)
Definition py_truthy (o : pyobj) : bool :=
  match o with
  | JNull => false
  | JBool b => b
  | JNum z => negb (Z.eqb z 0)
  | JStr s => negb (String.eqb s "")
  | JList l => match l with [] => false | _ :: _ => true end
  | JDict kv => match kv with [] => false | _ :: _ => true end
  end.

(** What the filter models raise on a value of a wrong type. *)
Definition ValidationError : exn := Exn "ValidationError" "" None.

Definition is_number (o : pyobj) : bool :=
  match o with JNum _ => true | _ => false end.

(** The strings of a list that holds nothing else. *)
Fixpoint as_strings (l : list pyobj) : option (list string) :=
  match l with
  | [] => Some []
  | JStr s :: rest => cons s <$> as_strings rest
  | _ :: _ => None
  end.


Section Handlers.

Context {vector : Type} (E : Env vector).

(** The context retrieval of [generate_response] (from [context = ""] to the
    end of its [try] statement): the context text and [files_used].  The
    fields [prompt], [user_id] and [file_ids] are JSON values the handler
    did not validate.  In [search], [query.lower()] raises on a prompt that
    is no string, and the filter models raise on a [user_id] that is not a
    string, a number or a boolean and on [file_ids] that are not a list of
    strings or a list of numbers, all of it before the [try] of [search].
    The filters of this development match strings: a request with a number
    or a boolean for an id is outside of it, and the result is [None]. *)
Definition retrieve_context (prompt user_id file_ids : pyobj) (w : World vector)
  : option ((string * list pyval) * World vector * list (app_event vector)) :=
  let failed e :=
    Some ((context_failed, []), w, [AppLog (LogContextRetrievalFailed user_id e)]) in
  if negb (py_truthy file_ids) then Some (("", []), w, [])
  else
    match prompt with
    | JStr query =>
        match user_id with
        | JStr user =>
            match file_ids with
            | JList ids =>
                match as_strings ids with
                | Some files =>
                    match search E query user files w with
                    | (Ok retrieved_chunks, w1, t) =>
                        match assemble_context retrieved_chunks with
                        | Ok context_and_files => Some (context_and_files, w1, Core <$> t)
                        | Raise e =>
                            Some ((context_failed, []), w1,
                                  (Core <$> t)
                                  ++ [AppLog (LogContextRetrievalFailed user_id e)])
                        end
                    | (Raise e, w1, t) =>
                        Some ((context_failed, []), w1,
                              (Core <$> t)
                              ++ [AppLog (LogContextRetrievalFailed user_id e)])
                    end
                | None =>
                    if forallb is_number ids then None else failed ValidationError
                end
            | _ => failed ValidationError
            end
        | JNum _ | JBool _ => None
        | _ => failed ValidationError
        end
    | _ => failed AttributeError
    end.


End Handlers.

(** ** More observations *)

(** A payload as [process_document] writes it: a text, a file name and an
    integer index. *)
Definition pipeline_payload (p : Payload) : Prop :=
  (∃ text, p !! "text" = Some (PStr text))
  ∧ (∃ name, p !! "original_filename" = Some (PStr name))
  ∧ (∃ i, p !! "chunk_index" = Some (PInt i)).

(** Every stored point has such a payload. *)
Definition pipeline_store {vector} (s : Store vector) : Prop :=
  ∀ c p, s = Some c → p ∈ points c → pipeline_payload (payload p).

(** The stored points, none when there is no collection. *)
Definition stored_points {vector} (s : Store vector) : list (Point vector) :=
  match s with
  | Some c => points c
  | None => []
  end.

(** The kinds of sort keys [<] is defined on. *)
Definition is_int (v : pyval) : bool :=
  match v with PInt _ => true | _ => false end.

Definition is_string (v : pyval) : bool :=
  match v with PStr _ => true | _ => false end.

(** The calls that only read. *)
Definition read_only {vector} (ev : event vector) : bool :=
  match ev with
  | Call (Scroll _ _ _ | Search _ _ _ | EmbedQuery _ | Invoke _) => true
  | Call _ => false
  | Raised _ _ => true
  | Log _ => true
  end.

(** No character of [s] is [c]. *)
Fixpoint free_of (c : ascii) (s : string) : bool :=
  match s with
  | EmptyString => true
  | String a s' => negb (Ascii.eqb a c) && free_of c s'
  end.

(** ** More concrete collaborators *)

Module Scenario.

(** The collection after the ingestion of [f1]. *)
Definition ingested_collection : Collection unit :=
  default Example.empty_collection (store Example.ingested).

(** The first call is answered by a gateway with a 404 page; no chat
    model. *)
Definition gateway_404 : Env unit := {|
  faults := λ k, if (k =? 0)%nat then Some (Exn "ApiException" "HTTP 404 page not found" None)
                 else None;
  uuid4 := uuid4 Example.quiet;
  pdf_pages := pdf_pages Example.quiet;
  split_text := split_text Example.quiet;
  embed_documents := embed_documents Example.quiet;
  embed_query := embed_query Example.quiet;
  rank := rank Example.quiet;
  db_client := None;
  json_loads := Example.decode_string_array
|}.

(** A scanned PDF: no page has text. *)
Definition scanned : Env unit := {|
  faults := faults Example.quiet;
  uuid4 := uuid4 Example.quiet;
  pdf_pages := λ _, [None; Some ""];
  split_text := split_text Example.quiet;
  embed_documents := embed_documents Example.quiet;
  embed_query := embed_query Example.quiet;
  rank := rank Example.quiet;
  db_client := None;
  json_loads := Example.decode_string_array
|}.

(** A PDF whose one page holds white space only, none of it ASCII but
    the second character: U+00A0, a blank, U+3000. *)
Definition blank_text : string :=
  String (ascii_of_nat 194) (String (ascii_of_nat 160)
    (String " " (String (ascii_of_nat 227) (String (ascii_of_nat 128)
       (String (ascii_of_nat 128) EmptyString))))).

Definition blank_pdf : Env unit := {|
  faults := faults Example.quiet;
  uuid4 := uuid4 Example.quiet;
  pdf_pages := λ _, [Some blank_text];
  split_text := split_text Example.quiet;
  embed_documents := embed_documents Example.quiet;
  embed_query := embed_query Example.quiet;
  rank := rank Example.quiet;
  db_client := None;
  json_loads := Example.decode_string_array
|}.

(** Ids that go down as the calls go on: the store lists the points of a
    file in the opposite order of its chunks. *)
Definition countdown : Env unit := {|
  faults := faults Example.quiet;
  uuid4 := λ n, "uuid-" +:+ String (ascii_of_nat (122 - n)) "";
  pdf_pages := pdf_pages Example.quiet;
  split_text := split_text Example.quiet;
  embed_documents := embed_documents Example.quiet;
  embed_query := embed_query Example.quiet;
  rank := rank Example.quiet;
  db_client := None;
  json_loads := Example.decode_string_array
|}.

(** [KEY POINTS], its first letter the Kelvin sign U+212A. *)
Definition kelvin_key_points : string :=
  String (ascii_of_nat 226) (String (ascii_of_nat 132) (String (ascii_of_nat 170)
    "EY POINTS")).

(** An embedder that returns one vector less than it was given texts. *)
Definition short_embedder : Env unit := {|
  faults := faults Example.quiet;
  uuid4 := uuid4 Example.quiet;
  pdf_pages := pdf_pages Example.quiet;
  split_text := split_text Example.quiet;
  embed_documents := λ chunks, (λ _, tt) <$> tail chunks;
  embed_query := embed_query Example.quiet;
  rank := rank Example.quiet;
  db_client := None;
  json_loads := Example.decode_string_array
|}.

(** A decoder for the replies of the examples: the literals [null], [true]
    and [false], a string without escape sequences, or an array of such
    strings. *)
Definition decode_string_literal (text : string) : option string :=
  match text with
  | String c rest =>
      match String.rev rest with
      | String d inner =>
          if Ascii.eqb c (ascii_of_nat 34) && Ascii.eqb d (ascii_of_nat 34)
             && free_of (ascii_of_nat 34) inner && free_of (ascii_of_nat 92) inner
          then Some (String.rev inner) else None
      | EmptyString => None
      end
  | EmptyString => None
  end.

Definition decode_value (text : string) : result pyobj :=
  if String.eqb text "null" then Ok JNull
  else if String.eqb text "true" then Ok (JBool true)
  else if String.eqb text "false" then Ok (JBool false)
  else match decode_string_literal text with
       | Some s => Ok (JStr s)
       | None => Example.decode_string_array text
       end.

(** A chat model whose reply is [reply], with that decoder. *)
Definition with_reply (reply : string) : Env unit := {|
  faults := faults Example.quiet;
  uuid4 := uuid4 Example.quiet;
  pdf_pages := pdf_pages Example.quiet;
  split_text := split_text Example.quiet;
  embed_documents := embed_documents Example.quiet;
  embed_query := embed_query Example.quiet;
  rank := rank Example.quiet;
  db_client := Some (λ _, reply);
  json_loads := decode_value
|}.

(** Two points of the file [f1] of user [u1], written by two versions of
    an ingestion: the index of the second one is a string. *)
Definition numbered : Point unit :=
  {| id := "p0"; vec := tt;
     payload := <["file_id" := PStr "f1"]> (<["user_id" := PStr "u1"]>
                (<["chunk_index" := PInt 0]> (<["text" := PStr "alpha"]> ∅))) |}.

Definition lettered : Point unit :=
  {| id := "p1"; vec := tt;
     payload := <["file_id" := PStr "f1"]> (<["user_id" := PStr "u1"]>
                (<["chunk_index" := PStr "1"]> (<["text" := PStr "beta"]> ∅))) |}.

Definition mixed_collection : Collection unit :=
  {| vector_size := EMBEDDING_DIM; indexes := ["user_id"; "file_id"];
     points := [numbered; lettered] |}.

Definition mixed : World unit := {| clock := 0; store := Some mixed_collection |}.

(** A point of [f1] without a text. *)
Definition untexted : Point unit :=
  {| id := "p2"; vec := tt;
     payload := <["file_id" := PStr "f1"]> (<["user_id" := PStr "u1"]>
                (<["chunk_index" := PInt 0]> ∅)) |}.

Definition textless : World unit :=
  {| clock := 0;
     store := Some {| vector_size := EMBEDDING_DIM; indexes := ["user_id"; "file_id"];
                      points := [untexted] |} |}.

(** Three retrieved chunks of two files, the last one without a file
    name. *)
Definition retrieved : list Payload :=
  [ <["text" := PStr "alpha"]> (<["original_filename" := PStr "b.pdf"]> ∅);
    <["text" := PStr "beta"]> (<["original_filename" := PStr "a.pdf"]> ∅);
    <["text" := PStr "gamma"]> (<["original_filename" := PNone]> ∅) ].

End Scenario.

(** * Properties *)

Ltac unfold_M :=
  unfold mbind, mret, M_bind, M_ret, result_bind, result_ret,
    bind, ret, try_except, try_finally, logging, lift, raise, call, fresh_uuid in *.

(** ** The page of a scroll *)

Section Scroll.

Context {vector : Type}.

Lemma insert_by_id_perm (p : Point vector) l : insert_by_id p l ≡ₚ p :: l.
Proof.
  induction l as [|q l IH]; simpl; [done|].
  destruct (String.ltb (id p) (id q)); [done|]. rewrite IH. apply Permutation_swap.
Qed.

Lemma by_id_perm (l : list (Point vector)) : by_id l ≡ₚ l.
Proof.
  induction l as [|p l IH]; simpl; [done|]. by rewrite insert_by_id_perm, IH.
Qed.

Lemma by_id_length (l : list (Point vector)) : length (by_id l) = length l.
Proof. by rewrite by_id_perm. Qed.

Lemma elem_of_scroll_page (f : Filter) limit (c : Collection vector) p :
  p ∈ scroll_page f limit c → p ∈ matching f c.
Proof.
  unfold scroll_page. intros (i & Hp & _)%elem_of_take.
  apply list_elem_of_lookup_2 in Hp. by rewrite by_id_perm in Hp.
Qed.

Lemma scroll_page_nil (f : Filter) limit (c : Collection vector) :
  matching f c = [] → scroll_page f limit c = [].
Proof. unfold scroll_page. intros ->. by destruct limit. Qed.

Lemma scroll_page_first (f : Filter) limit (c : Collection vector) :
  matching f c ≠ [] → ∃ q l, scroll_page f (S limit) c = q :: l.
Proof.
  unfold scroll_page. intros Hne.
  destruct (by_id (matching f c)) as [|q l] eqn:Hl; [|by eexists _, _].
  apply (f_equal length) in Hl. rewrite by_id_length in Hl.
  by destruct (matching f c).
Qed.

(** A page that does not reach its limit holds every matching point. *)
Lemma scroll_page_all (f : Filter) limit (c : Collection vector) :
  (length (matching f c) ≤ limit)%nat → scroll_page f limit c ≡ₚ matching f c.
Proof.
  intros Hlen. unfold scroll_page. rewrite take_ge by (rewrite by_id_length; lia).
  apply by_id_perm.
Qed.

Lemma scroll_page_length (f : Filter) limit (c : Collection vector) :
  length (scroll_page f limit c) = (limit `min` length (matching f c))%nat.
Proof. unfold scroll_page. by rewrite length_take, by_id_length. Qed.

End Scroll.

Section Ingestion.

Context {vector : Type} (E : Env vector).

Lemma duplicate_filter_holds (p : Payload) file_id user_id :
  filter_holds (duplicate_filter file_id user_id) p = true ↔
  p !! "file_id" = Some (PStr file_id) ∧ p !! "user_id" = Some (PStr user_id).
Proof.
  unfold filter_holds, duplicate_filter, condition_holds; simpl.
  rewrite !andb_true_iff.
  destruct (p !! "file_id") as [[| |s]|], (p !! "user_id") as [[| |s']|];
    simpl; rewrite ?String.eqb_eq; try (intuition congruence).
Qed.

Lemma has_stored_point_matching (s : Store vector) file_id user_id :
  has_stored_point s file_id user_id ↔ points_of_pair s file_id user_id ≠ [].
Proof.
  unfold has_stored_point, points_of_pair, matching. split.
  - intros (c & p & -> & Hin & Hf & Hu) Hnil.
    assert (p ∈ filter (λ p, filter_holds (duplicate_filter file_id user_id)
                               (payload p) = true) (points c)) as Hp.
    { apply list_elem_of_filter. split; [|done]. by apply duplicate_filter_holds. }
    rewrite Hnil in Hp. by apply not_elem_of_nil in Hp.
  - destruct s as [c|]; [|done]. intros Hne.
    destruct (filter _ (points c)) as [|p l] eqn:Hl; [done|].
    assert (p ∈ p :: l) as Hp by left. rewrite <- Hl in Hp.
    apply list_elem_of_filter in Hp as [Hf Hin].
    apply duplicate_filter_holds in Hf as [? ?]. by exists c, p.
Qed.

(** The run of [process_document] on a pair that has a stored point. *)
Lemma process_document_duplicate (w : World vector)
    user_id user_name collection_name original_filename timestamp bytes file_id :
  has_stored_point (store w) file_id user_id →
  process_document E user_id user_name collection_name original_filename
    timestamp bytes file_id w =
  match faults E (clock w) with
  | Some e =>
      (Raise e, tick w,
       [Log (LogIngestionStart file_id);
        Call (Scroll (duplicate_filter file_id user_id) 1 false);
        Raised (Scroll (duplicate_filter file_id user_id) 1 false) e;
        Log (LogProcessingFailed original_filename e); Log LogIngestionEnd])
  | None =>
      (Ok PNone, tick w,
       [Log (LogIngestionStart file_id);
        Call (Scroll (duplicate_filter file_id user_id) 1 false);
        Log (LogAlreadyProcessed file_id user_id); Log LogIngestionEnd])
  end.
Proof.
  intros Hdup. pose proof Hdup as Hne. apply has_stored_point_matching in Hne.
  destruct Hdup as (c & _ & Hs & _). destruct w as [n s]; simpl in *; subst s.
  unfold process_document, tick. unfold_M. simpl.
  destruct (faults E n) as [e|]; [done|]. simpl.
  unfold points_of_pair in Hne.
  destruct (scroll_page_first (duplicate_filter file_id user_id) 0 c Hne)
    as (q & l & ->).
  done.
Qed.

(** The run of the comprehension that builds [points_to_insert]: it draws
    one id per chunk, touches neither store nor trace, and either yields one
    point per chunk, numbered from [i] on, or raises [IndexError] because
    the embedder returned too few vectors. *)
Lemma points_from_run user_id user_name collection_name original_filename
    timestamp file_id embeddings chunks :
  ∀ i (w : World vector),
  ∃ r n,
    points_from E user_id user_name collection_name original_filename timestamp
      file_id embeddings i chunks w = (r, {| clock := n; store := store w |}, [])
    ∧ match r with
      | Ok pts =>
          n = (clock w + length chunks)%nat
          ∧ payload <$> pts =
              imap (λ j c, chunk_payload user_id user_name collection_name
                             original_filename timestamp file_id (i + j) c) chunks
          ∧ id <$> pts = (λ j, uuid4 E (clock w + j)) <$> seq 0 (length chunks)
      | Raise e => e = IndexError ∧ (length embeddings < i + length chunks)%nat
      end.
Proof.
  induction chunks as [|c chunks IH]; intros i w.
  - exists (Ok []), (clock w). destruct w; simpl. unfold_M. split; [done|].
    split; [lia|done].
  - simpl. unfold_M. simpl.
    destruct (embeddings !! i) as [v|] eqn:Hv.
    + destruct (IH (S i) {| clock := S (clock w); store := store w |})
        as (r & n & Hrun & Hr).
      rewrite Hrun. simpl in *. destruct r as [pts|e].
      * exists (Ok ({| id := uuid4 E (clock w); vec := v;
                       payload := chunk_payload user_id user_name collection_name
                         original_filename timestamp file_id i c |} :: pts)), n.
        split; [done|]. destruct Hr as (-> & Hp & Hi). split; [lia|]. split.
        -- rewrite fmap_cons, Hp. simpl. f_equal; [by rewrite Nat.add_0_r|].
           apply imap_ext. intros j x _. simpl. f_equal. lia.
        -- rewrite fmap_cons, Hi. simpl. f_equal; [by rewrite Nat.add_0_r|].
           rewrite <- seq_shift. rewrite <- list_fmap_compose. apply list_fmap_ext.
           intros _ j _. simpl. f_equal. lia.
      * exists (Raise e), n. split; [done|]. destruct Hr as [-> Hr].
        split; [done|]. lia.
    + exists (Raise IndexError), (S (clock w)). split; [done|]. split; [done|].
      apply lookup_ge_None in Hv. lia.
Qed.

(** Every run of [process_document] either writes nothing, or reaches the
    upsert with one point per chunk. *)
Lemma process_document_cases (w w' : World vector) res t
    user_id user_name collection_name original_filename timestamp bytes file_id :
  process_document E user_id user_name collection_name original_filename
    timestamp bytes file_id w = (res, w', t) →
  (upserts t = [] ∧ store w' = store w
   ∧ ∀ v, res = Ok v →
          v = PNone
          ∧ (outcome_of t = Some SkippedDuplicate
               ∧ has_stored_point (store w) file_id user_id
             ∨ outcome_of t = Some SkippedEmpty
               ∧ ¬ has_stored_point (store w) file_id user_id))
  ∨ (∃ batch c,
       store w = Some c
       ∧ ¬ has_stored_point (store w) file_id user_id
       ∧ chunks_of E bytes ≠ []
       ∧ upserts t = [batch]
       ∧ payload <$> batch =
           imap (λ j ch, chunk_payload user_id user_name collection_name
                           original_filename timestamp file_id j ch) (chunks_of E bytes)
       ∧ id <$> batch = (λ j, uuid4 E (clock w + 4 + j)) <$> seq 0 (length (chunks_of E bytes))
       ∧ (res = Ok PNone
            ∧ store w' = snd (store_upsert batch (store w))
            ∧ outcome_of t = Some (Ingested (length (chunks_of E bytes)))
          ∨ (∃ e, res = Raise e) ∧ store w' = store w)).
Proof.
  destruct w as [n s]. unfold chunks_of, extracted_text.
  unfold process_document, _extract_text_from_file.
  unfold_M. simpl.
  destruct (faults E n) as [e0|]; simpl.
  { intros [= <- <- <-]. left. simpl. done. }
  destruct s as [c|]; simpl.
  2:{ intros [= <- <- <-]. left. simpl. done. }
  pose proof (has_stored_point_matching (Some c) file_id user_id) as Hdup.
  simpl in Hdup.
  destruct (decide (matching (duplicate_filter file_id user_id) c = [])) as [Hm|Hm].
  2:{ destruct (scroll_page_first (duplicate_filter file_id user_id) 0 c Hm)
        as (q & l & ->). simpl.
      intros [= <- <- <-]. left. simpl. split; [done|]. split; [done|].
      intros v [= <-]. split; [done|]. left. split; [done|]. by apply Hdup. }
  rewrite (scroll_page_nil (duplicate_filter file_id user_id) 1 c Hm). simpl.
  assert (¬ has_stored_point (Some c) file_id user_id) as Hnd.
  { intros H. by apply Hdup in H. }
  clear Hdup Hm.
  destruct (faults E (S n)) as [e1|]; simpl.
  { intros [= <- <- <-]. left. simpl. done. }
  set (text := join_pages (page_texts (pdf_pages E bytes))).
  destruct ((text =? "") || (Py.strip text =? ""))%bool; simpl.
  { intros [= <- <- <-]. left. simpl. split; [done|]. split; [done|].
    intros v [= <-]. split; [done|]. by right. }
  destruct (faults E (S (S n))) as [e2|]; simpl.
  { intros [= <- <- <-]. left. simpl. done. }
  case_bool_decide as Hchunks; simpl.
  { intros [= <- <- <-]. left. simpl. split; [done|]. split; [done|].
    intros v [= <-]. split; [done|]. by right. }
  destruct (faults E (S (S (S n)))) as [e3|]; simpl.
  { intros [= <- <- <-]. left. simpl. done. }
  destruct (points_from_run user_id user_name collection_name original_filename
              timestamp file_id (embed_documents E (split_text E text))
              (split_text E text) 0
              {| clock := S (S (S (S n))); store := Some c |})
    as (r & m & Hrun & Hr).
  rewrite Hrun. simpl in *. destruct r as [pts|e]; simpl.
  2:{ intros [= <- <- <-]. left. simpl. done. }
  destruct Hr as (-> & Hp & Hi).
  assert ((λ j, uuid4 E (S (S (S (S (n + j)))))) <$> seq 0 (length (split_text E text))
          = (λ j, uuid4 E (n + 4 + j)) <$> seq 0 (length (split_text E text))) as Hids.
  { apply list_fmap_ext. intros _ j _. f_equal. lia. }
  rewrite Hids in Hi. clear Hids.
  destruct pts as [|p pts]; simpl.
  { destruct (split_text E text); [done|]. discriminate Hp. }
  destruct (faults E (S (S (S (S (n + length (split_text E text))))))) as [e4|]; simpl.
  { intros [= <- <- <-]. right. exists (p :: pts), c. simpl.
    do 6 (split; [done|]). right. split; [by exists e4|done]. }
  intros [= <- <- <-]. right. exists (p :: pts), c. simpl.
  do 6 (split; [done|]). left. split; [done|]. split; [done|].
  do 2 f_equal. apply (f_equal length) in Hp.
  rewrite length_fmap, length_imap in Hp. done.
Qed.

Lemma chunk_payload_file_id user_id user_name collection_name original_filename
    timestamp file_id j ch :
  chunk_payload user_id user_name collection_name original_filename timestamp
    file_id j ch !! "file_id" = Some (PStr file_id).
Proof. unfold chunk_payload. by rewrite lookup_insert_eq. Qed.

Lemma chunk_payload_user_id user_id user_name collection_name original_filename
    timestamp file_id j ch :
  chunk_payload user_id user_name collection_name original_filename timestamp
    file_id j ch !! "user_id" = Some (PStr user_id).
Proof.
  unfold chunk_payload. rewrite lookup_insert_ne by done. by rewrite lookup_insert_eq.
Qed.

Lemma chunk_payload_chunk_index user_id user_name collection_name original_filename
    timestamp file_id j ch :
  chunk_payload user_id user_name collection_name original_filename timestamp
    file_id j ch !! "chunk_index" = Some (PInt (Z.of_nat j)).
Proof.
  unfold chunk_payload. do 6 (rewrite lookup_insert_ne by done).
  by rewrite lookup_insert_eq.
Qed.

Lemma chunk_payload_text user_id user_name collection_name original_filename
    timestamp file_id j ch :
  chunk_payload user_id user_name collection_name original_filename timestamp
    file_id j ch !! "text" = Some (PStr ch).
Proof.
  unfold chunk_payload. do 7 (rewrite lookup_insert_ne by done).
  by rewrite lookup_insert_eq.
Qed.

(** ** The store after an upsert *)

Lemma upsert_point_elem (p : Point vector) ps : p ∈ upsert_point p ps.
Proof.
  induction ps as [|q ps IH]; simpl; [by left|].
  destruct (id q =? id p)%string; [by left|by right].
Qed.

Lemma upsert_point_fresh (p : Point vector) ps :
  id p ∉ id <$> ps → upsert_point p ps = ps ++ [p].
Proof.
  induction ps as [|q ps IH]; simpl; [done|]. intros Hnin.
  apply not_elem_of_cons in Hnin as [Hne Hnin].
  destruct (String.eqb_spec (id q) (id p)) as [Heq|_]; [congruence|].
  by rewrite IH.
Qed.

Lemma upsert_batch_last (batch : list (Point vector)) p ps :
  p ∈ foldl (λ ps p, upsert_point p ps) ps (batch ++ [p]).
Proof. rewrite foldl_app. simpl. apply upsert_point_elem. Qed.

Lemma upsert_batch_fresh (batch : list (Point vector)) :
  ∀ ps,
  NoDup (id <$> batch) →
  (∀ p q, p ∈ batch → q ∈ ps → id p ≠ id q) →
  foldl (λ ps p, upsert_point p ps) ps batch = ps ++ batch.
Proof.
  induction batch as [|b batch IH]; intros ps Hnd Hfresh; simpl.
  - by rewrite app_nil_r.
  - rewrite fmap_cons in Hnd. apply NoDup_cons in Hnd as [Hb Hnd].
    rewrite upsert_point_fresh.
    + rewrite IH; [by rewrite <- app_assoc|done|].
      intros p q Hp Hq. apply elem_of_app in Hq as [Hq|Hq].
      * apply Hfresh; [by right|done].
      * apply list_elem_of_singleton in Hq as ->. intros Heq. apply Hb.
        rewrite <- Heq. by apply list_elem_of_fmap_2.
    + intros Hin. apply list_elem_of_fmap in Hin as (q & Heq & Hq).
      by apply (Hfresh b q); [left|..].
Qed.

(** A batch built by [process_document] belongs to its pair. *)
Lemma batch_matches (batch : list (Point vector)) chunks
    user_id user_name collection_name original_filename timestamp file_id :
  payload <$> batch =
    imap (λ j ch, chunk_payload user_id user_name collection_name
                    original_filename timestamp file_id j ch) chunks →
  ∀ p, p ∈ batch →
       payload p !! "file_id" = Some (PStr file_id)
       ∧ payload p !! "user_id" = Some (PStr user_id).
Proof.
  intros Hp p Hin.
  assert (payload p ∈ payload <$> batch) as Hpp by by apply list_elem_of_fmap_2.
  rewrite Hp in Hpp. apply list_elem_of_lookup in Hpp as [j Hj].
  apply list_lookup_imap_Some in Hj as (ch & _ & ->).
  split; [apply chunk_payload_file_id|apply chunk_payload_user_id].
Qed.

Lemma matching_all (f : Filter) (l : list (Point vector)) :
  (∀ p, p ∈ l → filter_holds f (payload p) = true) →
  filter (λ p, filter_holds f (payload p) = true) l = l.
Proof.
  induction l as [|p l IH]; intros Hall; [done|].
  rewrite filter_cons_True by (apply Hall; by left).
  f_equal. apply IH. intros q Hq. apply Hall. by right.
Qed.

(** After a first ingestion that wrote its batch, the pair has a stored
    point, and with fresh ids its stored points are that batch. *)
Lemma ingested_then_stored (w w' : World vector) t batch
    user_id user_name collection_name original_filename timestamp bytes file_id :
  process_document E user_id user_name collection_name original_filename
    timestamp bytes file_id w = (Ok PNone, w', t) →
  upserts t = [batch] →
  has_stored_point (store w') file_id user_id
  ∧ (fresh_ids batch (store w) → points_of_pair (store w') file_id user_id = batch).
Proof.
  intros Hrun Hup. apply process_document_cases in Hrun as [(Hnil & _)|Hrun].
  { rewrite Hnil in Hup. discriminate Hup. }
  destruct Hrun as (batch' & c & Hc & Hnd & Hchunks & Hup' & Hp & _ & Hres).
  rewrite Hup in Hup'. injection Hup' as <-.
  destruct Hres as [(_ & Hw' & _)|[[e [=]] _]].
  rewrite Hc in Hw'. simpl in Hw'.
  pose proof (batch_matches _ _ _ _ _ _ _ _ Hp) as Hall.
  split.
  - destruct (decide (batch = [])) as [->|Hne].
    { destruct (chunks_of E bytes); [done|discriminate Hp]. }
    destruct (exists_last Hne) as (b & p & ->).
    exists {| vector_size := vector_size c; indexes := indexes c;
              points := foldl (λ ps p, upsert_point p ps) (points c) (b ++ [p]) |}, p.
    split; [done|]. split; [apply upsert_batch_last|].
    apply Hall. apply elem_of_app. right. by left.
  - intros [Hnodup Hfresh]. rewrite Hw'. simpl. unfold matching. simpl.
    rewrite upsert_batch_fresh;
      [|done|intros p q Hp' Hq; by apply (Hfresh c p q)].
    rewrite filter_app.
    assert (filter (λ p, filter_holds (duplicate_filter file_id user_id)
                           (payload p) = true) (points c) = []) as ->.
    { destruct (filter _ (points c)) eqn:Hf; [done|]. exfalso. apply Hnd.
      apply has_stored_point_matching. rewrite Hc. simpl. unfold matching.
      by rewrite Hf. }
    simpl. apply matching_all. intros p Hp'. apply duplicate_filter_holds.
    by apply Hall.
Qed.

(** C1.  A call of [process_document] for a pair [(file_id, user_id)] that
    already has a stored point stops at the duplicate check: the store is
    left as it was and the run performs no extraction, chunking, embedding
    or upsert; when the check itself does not fail, the call returns with
    the duplicate outcome.  Hence a second ingestion of a pair whose first
    ingestion wrote its batch changes nothing, and (ids being fresh) the
    stored points of the pair are exactly the one batch. *)
Theorem duplicate_ingestion_is_noop (w : World vector)
    user_id user_name collection_name original_filename timestamp bytes file_id :
  let first := process_document E user_id user_name collection_name
                 original_filename timestamp bytes file_id w in
  (has_stored_point (store w) file_id user_id →
     store first.1.2 = store w
     ∧ Forall (λ ev, is_ingest_work ev = false) first.2
     ∧ (faults E (clock w) = None →
          first.1.1 = Ok PNone ∧ outcome_of first.2 = Some SkippedDuplicate))
  ∧ (∀ batch user_name' collection_name' original_filename' timestamp' bytes',
       first.1.1 = Ok PNone →
       upserts first.2 = [batch] →
       let second := process_document E user_id user_name' collection_name'
                       original_filename' timestamp' bytes' file_id first.1.2 in
       store second.1.2 = store first.1.2
       ∧ Forall (λ ev, is_ingest_work ev = false) second.2
       ∧ (fresh_ids batch (store w) →
            points_of_pair (store second.1.2) file_id user_id = batch)).
Proof.
  assert (∀ (w0 : World vector) un cn fn ts bs,
            has_stored_point (store w0) file_id user_id →
            let r := process_document E user_id un cn fn ts bs file_id w0 in
            store r.1.2 = store w0
            ∧ Forall (λ ev, is_ingest_work ev = false) r.2
            ∧ (faults E (clock w0) = None →
                 r.1.1 = Ok PNone ∧ outcome_of r.2 = Some SkippedDuplicate)) as Hdup.
  { intros w0 un cn fn ts bs Hs. simpl.
    rewrite (process_document_duplicate w0 _ un cn fn ts bs _ Hs).
    destruct (faults E (clock w0)) as [e|]; simpl.
    - split; [done|]. split; [by repeat constructor|done].
    - split; [done|]. split; [by repeat constructor|done]. }
  split; [by apply Hdup|].
  intros batch un cn fn ts bs Hok Hup. simpl.
  destruct (process_document E user_id user_name collection_name original_filename
              timestamp bytes file_id w) as [[res w1] t1] eqn:Hrun.
  simpl in *. subst res.
  destruct (ingested_then_stored _ _ _ _ _ _ _ _ _ _ _ Hrun Hup) as [Hstored Hfresh].
  destruct (Hdup w1 un cn fn ts bs Hstored) as (Hs & Hwork & _).
  split; [done|]. split; [done|]. intros Hf. rewrite Hs. by apply Hfresh.
Qed.

(** C2.  When [process_document] returns after writing, it wrote one batch
    with one point per chunk of the extracted text: the [chunk_index]
    values of the batch are 0, 1, ..., n-1 in this order, n being the number
    of chunks the splitter returned, and the [text] of each point is the
    chunk at its index.  The store is the old one with that batch upserted;
    with fresh ids the batch is appended to the stored points as it is. *)
Theorem ingested_points_numbered (w : World vector)
    user_id user_name collection_name original_filename timestamp bytes file_id :
  let run := process_document E user_id user_name collection_name
               original_filename timestamp bytes file_id w in
  let chunks := chunks_of E bytes in
  run.1.1 = Ok PNone →
  upserts run.2 ≠ [] →
  ∃ batch,
    upserts run.2 = [batch]
    ∧ length batch = length chunks
    ∧ (λ p, payload p !! "chunk_index") <$> batch
        = (λ i, Some (PInt (Z.of_nat i))) <$> seq 0 (length chunks)
    ∧ (λ p, payload p !! "text") <$> batch = (λ ch, Some (PStr ch)) <$> chunks
    ∧ outcome_of run.2 = Some (Ingested (length chunks))
    ∧ store run.1.2 = snd (store_upsert batch (store w))
    ∧ (fresh_ids batch (store w) →
         ∃ c, store w = Some c ∧ points <$> store run.1.2 = Some (points c ++ batch)).
Proof.
  simpl.
  destruct (process_document E user_id user_name collection_name original_filename
              timestamp bytes file_id w) as [[res w'] t] eqn:Hrun.
  simpl. intros -> Hup.
  apply process_document_cases in Hrun as [(Hnil & _)|Hrun]; [done|].
  destruct Hrun as (batch & c & Hc & _ & _ & Hup' & Hp & _ & Hres).
  destruct Hres as [(_ & Hw' & Hout)|[[e [=]] _]].
  exists batch. split; [done|].
  assert (length batch = length (chunks_of E bytes)) as Hlen.
  { apply (f_equal length) in Hp. by rewrite length_fmap, length_imap in Hp. }
  split; [done|]. split.
  { apply (f_equal (fmap (λ p : Payload, p !! "chunk_index"))) in Hp.
    rewrite <- list_fmap_compose, fmap_imap in Hp. rewrite <- imap_seq_0.
    etrans; [exact Hp|]. apply imap_ext. intros j ch _. simpl.
    apply chunk_payload_chunk_index. }
  split.
  { apply (f_equal (fmap (λ p : Payload, p !! "text"))) in Hp.
    rewrite <- list_fmap_compose, fmap_imap in Hp.
    rewrite <- (imap_const (λ ch, Some (PStr ch)) (chunks_of E bytes)).
    etrans; [exact Hp|]. apply imap_ext. intros j ch _. simpl.
    apply chunk_payload_text. }
  split; [done|]. split; [done|].
  intros [Hnodup Hfresh]. exists c. split; [done|].
  rewrite Hw', Hc. simpl. f_equal. apply upsert_batch_fresh; [done|].
  intros p q Hp' Hq. by apply (Hfresh c p q).
Qed.

(** C3 (as the code has it).  Whenever [process_document] returns, it
    returns [None], whichever outcome occurred; the outcome is told by the
    log line of the run and by the store, not by the returned value: a
    duplicate and an empty document leave the store as it was, and an
    ingestion wrote one batch of [count] points. *)
Theorem outcome_only_in_log (w : World vector)
    user_id user_name collection_name original_filename timestamp bytes file_id :
  let run := process_document E user_id user_name collection_name
               original_filename timestamp bytes file_id w in
  ∀ v, run.1.1 = Ok v →
    v = PNone
    ∧ ∃ o, outcome_of run.2 = Some o
         ∧ match o with
           | SkippedDuplicate =>
               has_stored_point (store w) file_id user_id
               ∧ upserts run.2 = [] ∧ store run.1.2 = store w
           | SkippedEmpty =>
               ¬ has_stored_point (store w) file_id user_id
               ∧ upserts run.2 = [] ∧ store run.1.2 = store w
           | Ingested count =>
               count = length (chunks_of E bytes)
               ∧ ∃ batch, upserts run.2 = [batch] ∧ length batch = count
           end.
Proof.
  simpl.
  destruct (process_document E user_id user_name collection_name original_filename
              timestamp bytes file_id w) as [[res w'] t] eqn:Hrun.
  simpl. intros v ->.
  apply process_document_cases in Hrun as [(Hnil & Hs & Hv)|Hrun].
  - destruct (Hv v eq_refl) as [-> [[Ho Hd]|[Ho Hd]]]; split; try done.
    + by exists SkippedDuplicate.
    + by exists SkippedEmpty.
  - destruct Hrun as (batch & c & Hc & _ & _ & Hup' & Hp & _ & Hres).
    destruct Hres as [([= ->] & Hw' & Hout)|[[e [=]] _]].
    split; [done|]. exists (Ingested (length (chunks_of E bytes))).
    split; [done|]. split; [done|]. exists batch. split; [done|].
    apply (f_equal length) in Hp. by rewrite length_fmap, length_imap in Hp.
Qed.

End Ingestion.

Section EnsureCollection.

Context {vector : Type} (E : Env vector).

(** From a store without the collection, the ensure step does not call
    itself. *)
Lemma ensure_missing_no_retry depth (w : World vector) :
  store w = None →
  _get_or_create_collection E (S depth) w = _get_or_create_collection E 1 w
  ∧ deletions (_get_or_create_collection E 1 w).2 = 0%nat.
Proof.
  destruct w as [n s]. simpl. intros ->.
  unfold_M. simpl.
  destruct (faults E n) as [e|]; simpl.
  - destruct (is_not_found e); simpl; [|done].
    destruct (faults E (S n)); simpl; [done|].
    destruct (faults E (S (S n))); simpl; [done|].
    destruct (faults E (S (S (S n)))); simpl; done.
  - destruct (faults E (S n)); simpl; [done|].
    destruct (faults E (S (S n))); simpl; [done|].
    destruct (faults E (S (S (S n)))); simpl; done.
Qed.

Lemma deletions_app (t1 t2 : list (event vector)) :
  deletions (t1 ++ t2) = (deletions t1 + deletions t2)%nat.
Proof. unfold deletions. by rewrite omap_app, length_app. Qed.

Lemma deletions_cons ev (t : list (event vector)) :
  deletions (ev :: t) =
  (match ev with Call DeleteCollection => 1 | _ => 0 end + deletions t)%nat.
Proof. by destruct ev as [[]| |]. Qed.

(** Two stack frames are all the ensure step ever needs. *)
Lemma ensure_depth_irrelevant depth (w : World vector) :
  _get_or_create_collection E (S (S depth)) w = _get_or_create_collection E 2 w
  ∧ (deletions (_get_or_create_collection E 2 w).2 ≤ 1)%nat.
Proof.
  destruct w as [n s]. destruct s as [c|].
  2:{ destruct (ensure_missing_no_retry (S depth) {| clock := n; store := None |}
                  eq_refl) as [-> _].
      destruct (ensure_missing_no_retry 1 {| clock := n; store := None |}
                  eq_refl) as [-> ->]. split; [done|lia]. }
  remember (S depth) as d1 eqn:Hd1. remember 1%nat as d2 eqn:Hd2.
  simpl. unfold_M. simpl.
  destruct (faults E n) as [e|]; simpl.
  { destruct (is_not_found e); simpl; [|split; [done|cbv; lia]].
    destruct (faults E (S n)); simpl; [split; [done|cbv; lia]|].
    destruct (faults E (S (S n))); simpl; [split; [done|cbv; lia]|].
    destruct (faults E (S (S (S n)))); simpl; split; done || (cbv; lia). }
  destruct (faults E (S n)) as [e|]; simpl; [split; [done|cbv; lia]|].
  destruct (Z.eqb (vector_size c) EMBEDDING_DIM); simpl.
  { destruct (faults E (S (S n))); simpl; [split; [done|cbv; lia]|].
    destruct (faults E (S (S (S n)))); simpl; split; done || (cbv; lia). }
  destruct (faults E (S (S n))) as [e|]; simpl; [split; [done|cbv; lia]|].
  subst d1 d2.
  destruct (ensure_missing_no_retry depth {| clock := S (S (S n)); store := None |}
              eq_refl) as [-> Hdel].
  destruct (_get_or_create_collection E 1 {| clock := S (S (S n)); store := None |})
    as [[r w2] t2].
  simpl in Hdel. split; [done|].
  destruct r; simpl; rewrite !deletions_cons, ?deletions_app, Hdel; cbv; lia.
Qed.

(** C5.  On a collection whose vector size is not [EMBEDDING_DIM], the
    ensure step deletes the collection and calls itself; the nested call
    finds no collection, creates it with [EMBEDDING_DIM] and both payload
    indexes, and does not call itself again.  So the run is the same for
    every stack depth of at least two frames, deletes at most once, and,
    when no collaborator call fails, ends with the fresh, empty
    collection. *)
Theorem drift_repair_retries_once depth (w : World vector) (c : Collection vector) :
  store w = Some c →
  vector_size c ≠ EMBEDDING_DIM →
  let run := _get_or_create_collection E (S (S depth)) w in
  run = _get_or_create_collection E 2 w
  ∧ (deletions run.2 ≤ 1)%nat
  ∧ ((∀ k, (k < 7)%nat → faults E (clock w + k) = None) →
       run.1.1 = Ok tt
       ∧ store run.1.2 = Some {| vector_size := EMBEDDING_DIM;
                                 indexes := ["user_id"; "file_id"];
                                 points := [] |}
       ∧ run.2 = [ Call GetCollection; Log LogVerifyingCollection;
                   Call GetCollection;
                   Log (LogDimensionMismatch (vector_size c));
                   Call DeleteCollection;
                   Call GetCollection; Raised GetCollection not_found;
                   Log LogCollectionNotFound; Log LogCreatingCollection;
                   Call (RecreateCollection EMBEDDING_DIM);
                   Log LogCreatingIndexes;
                   Call (CreatePayloadIndex "user_id");
                   Call (CreatePayloadIndex "file_id");
                   Log LogCollectionCreated ]).
Proof.
  intros Hc Hdim. cbv zeta.
  destruct (ensure_depth_irrelevant depth w) as [-> Hdel].
  split; [done|]. split; [done|]. intros Hf.
  destruct w as [n s]. simpl in *. subst s.
  assert (∀ k, (k < 7)%nat → faults E (k + n) = None) as Hf'.
  { intros k Hk. rewrite Nat.add_comm. by apply Hf. }
  pose proof (Hf' 0%nat ltac:(lia)) as H0. pose proof (Hf' 1%nat ltac:(lia)) as H1.
  pose proof (Hf' 2%nat ltac:(lia)) as H2. pose proof (Hf' 3%nat ltac:(lia)) as H3.
  pose proof (Hf' 4%nat ltac:(lia)) as H4. pose proof (Hf' 5%nat ltac:(lia)) as H5.
  pose proof (Hf' 6%nat ltac:(lia)) as H6. simpl in H0, H1, H2, H3, H4, H5, H6.
  apply Z.eqb_neq in Hdim.
  unfold_M. simpl. rewrite H0. simpl. rewrite H1. simpl. rewrite Hdim. simpl.
  rewrite H2. simpl. rewrite H3. simpl. rewrite H4. simpl. rewrite H5. simpl.
  rewrite H6. simpl. done.
Qed.

End EnsureCollection.

Section Expansion.

Context {vector : Type} (E : Env vector).

(** The run of [_get_expanded_queries], in closed form. *)
Lemma expanded_queries_run (query : string) (w : World vector) :
  _get_expanded_queries E query w =
  match db_client E with
  | None => (Ok (JList [JStr query]), w, [])
  | Some invoke =>
      let r := Invoke (expansion_messages query) in
      match faults E (clock w) with
      | Some e =>
          (Ok (JList [JStr query]), tick w,
           [Call r; Raised r e; Log (LogExpandFailed e)])
      | None =>
          match expansion_of E query (invoke (expansion_messages query)) with
          | Ok o => (Ok o, tick w, [Call r])
          | Raise e => (Ok (JList [JStr query]), tick w, [Call r; Log (LogExpandFailed e)])
          end
      end
  end.
Proof.
  unfold _get_expanded_queries, expansion_of, with_original, tick.
  destruct (db_client E) as [invoke|]; [|done].
  unfold_M. simpl. destruct (faults E (clock w)) as [e|]; simpl; [done|].
  destruct (response_json_text _) as [text|e]; simpl; [|done].
  destruct (json_loads E text) as [dec|e]; simpl; [|done].
  destruct (py_in query dec) as [present|e]; simpl; [|done].
  destruct present; simpl; [done|].
  destruct (py_append dec query); simpl; done.
Qed.

Lemma with_original_in query decoded o :
  with_original query decoded = Ok o → py_in query o = Ok true.
Proof.
  unfold with_original. unfold_M.
  destruct (py_in query decoded) as [[|]|e] eqn:Hin; simpl; try done.
  - by intros [= <-].
  - destruct decoded; simpl in *; try done. intros [= <-]. simpl. f_equal.
    rewrite existsb_app. simpl. rewrite String.eqb_refl. by rewrite orb_true_r.
Qed.

(** On a decoded array the result is that array, with the query appended
    when it was not in it. *)
Lemma with_original_list query l :
  with_original query (JList l) =
  Ok (JList (if existsb (is_str query) l then l else l ++ [JStr query])).
Proof. unfold with_original. simpl. by destruct (existsb _ l). Qed.

End Expansion.

(** ** Deduplication of the accumulated hits *)

Section Dedup.

Lemma loop_test_usable p (unique_chunks : unique_dict) :
  loop_test p unique_chunks
  = usable p && negb (bool_decide (chunk_key p ∈ unique_chunks.*1)).
Proof.
  unfold loop_test, usable, key_in.
  destruct (negb (bool_decide (fst (chunk_key p) = PNone))),
           (negb (bool_decide (snd (chunk_key p) = PNone))),
           (truthy (dict_get p "text")),
           (bool_decide (chunk_key p ∈ unique_chunks.*1)); done.
Qed.

Lemma kept_hits_seen_ext hits :
  ∀ seen1 seen2, (∀ k, k ∈ seen1 ↔ k ∈ seen2) →
                 kept_hits seen1 hits = kept_hits seen2 hits.
Proof.
  induction hits as [|p rest IH]; intros seen1 seen2 Hext; simpl; [done|].
  rewrite (bool_decide_ext _ _ (Hext (chunk_key p))).
  destruct (usable p && _); [f_equal|]; apply IH; [|done].
  intros k. rewrite !elem_of_cons. by rewrite Hext.
Qed.

(** The dict the loop builds holds, in order, one entry per kept hit. *)
Lemma unique_loop_kept hits :
  ∀ unique_chunks : unique_dict,
  unique_loop hits unique_chunks =
  unique_chunks ++ ((λ p, (chunk_key p, chunk_entry p)) <$> kept_hits unique_chunks.*1 hits).
Proof.
  induction hits as [|p rest IH]; intros acc; simpl.
  - by rewrite app_nil_r.
  - rewrite loop_test_usable.
    destruct (usable p && _); [|apply IH].
    rewrite IH, <- app_assoc. simpl. do 3 f_equal.
    apply kept_hits_seen_ext. intros k. rewrite fmap_app. simpl.
    rewrite elem_of_app, !elem_of_cons, elem_of_nil. tauto.
Qed.

Lemma kept_hits_keys hits :
  ∀ seen, NoDup (chunk_key <$> kept_hits seen hits)
          ∧ ∀ p, p ∈ kept_hits seen hits →
                 (chunk_key p ∉ seen) ∧ usable p = true ∧ p ∈ hits.
Proof.
  induction hits as [|x rest IH]; intros seen; simpl.
  - split; [constructor|]. intros p Hp. by apply not_elem_of_nil in Hp.
  - destruct (usable x) eqn:Hu; simpl.
    2:{ destruct (IH seen) as [Hnd Hin]. split; [done|].
        intros p Hp. destruct (Hin p Hp) as (? & ? & ?). split_and!; [done..|by right]. }
    case_bool_decide as Hseen; simpl.
    { destruct (IH seen) as [Hnd Hin]. split; [done|].
      intros p Hp. destruct (Hin p Hp) as (? & ? & ?). split_and!; [done..|by right]. }
    destruct (IH (chunk_key x :: seen)) as [Hnd Hin]. split.
    + constructor; [|done]. intros Hx.
      apply list_elem_of_fmap in Hx as (q & Hk & Hq).
      destruct (Hin q Hq) as (Hq' & _). apply Hq'. rewrite Hk. by left.
    + intros p Hp. apply elem_of_cons in Hp as [->|Hp]; [split_and!; [done..|by left]|].
      destruct (Hin p Hp) as (Hp' & ? & ?). split_and!; [|done|by right].
      intros Hs. apply Hp'. by right.
Qed.

Lemma kept_hits_sublist hits : ∀ seen, kept_hits seen hits `sublist_of` hits.
Proof.
  induction hits as [|x rest IH]; intros seen; simpl; [done|].
  destruct (usable x && _); [by apply sublist_skip|by apply sublist_cons].
Qed.



Lemma kept_hits_length hits : ∀ seen, (length (kept_hits seen hits) ≤ length hits)%nat.
Proof. intros seen. apply sublist_length, kept_hits_sublist. Qed.

End Dedup.

(** ** Sorting by [chunk_index] *)

Section Sorting.

Lemma py_lt_true_le a b : py_lt a b = Ok true → key_le a b.
Proof.
  destruct a as [|x|s], b as [|y|t]; simpl; try done.
  - intros [= H]. apply Z.ltb_lt in H. lia.
  - intros [= H]. unfold String.le, String.leb. unfold String.ltb in H.
    by destruct (String.compare s t).
Qed.

Lemma py_lt_false_ge a b : py_lt a b = Ok false → key_le b a.
Proof.
  destruct a as [|x|s], b as [|y|t]; simpl; try done.
  - intros [= H]. apply Z.ltb_ge in H. lia.
  - intros [= H]. unfold String.le, String.leb. unfold String.ltb in H.
    rewrite String.compare_antisym. by destruct (String.compare s t).
Qed.

Global Instance key_le_trans : Transitive key_le.
Proof.
  intros [|x|s] [|y|t] [|z|u]; simpl; try done.
  - lia.
  - apply (transitivity (R := String.le)).
Qed.

Global Instance chunk_index_le_trans : Transitive chunk_index_le.
Proof. intros p q r. unfold chunk_index_le. apply key_le_trans. Qed.

Lemma insert_sorted_spec x l :
  ∀ r, insert_sorted x l = Ok r →
       r ≡ₚ x :: l
       ∧ (Sorted chunk_index_le l →
            Sorted chunk_index_le r
            ∧ ∀ a, chunk_index_le a x → HdRel chunk_index_le a l →
                   HdRel chunk_index_le a r).
Proof.
  induction l as [|y l IH]; intros r; simpl.
  - intros [= <-]. split; [done|]. intros _. split; [by repeat constructor|].
    intros a Ha _. by constructor.
  - unfold_M. destruct (py_lt (sort_key y) (sort_key x)) as [[|]|e] eqn:Hlt; [| |done].
    + destruct (insert_sorted x l) as [r'|e]; [|done]. intros [= <-].
      destruct (IH r' eq_refl) as [Hperm Hsorted]. split.
      { rewrite Hperm. apply Permutation_swap. }
      intros Hs. apply Sorted_inv in Hs as [Hs Hhd].
      destruct (Hsorted Hs) as [Hs' Hhd']. split.
      * constructor; [done|]. apply Hhd'; [|done]. by apply py_lt_true_le.
      * intros a _ Ha. apply HdRel_inv in Ha. by constructor.
    + intros [= <-]. split; [done|]. intros Hs. split.
      * constructor; [done|]. constructor. by apply py_lt_false_ge.
      * intros a Ha _. by constructor.
Qed.

(** [sorted] returns a non-decreasing rearrangement of its argument. *)
Lemma py_sorted_spec l :
  ∀ r, py_sorted l = Ok r → r ≡ₚ l ∧ StronglySorted chunk_index_le r.
Proof.
  assert (∀ r, py_sorted l = Ok r → r ≡ₚ l ∧ Sorted chunk_index_le r) as H.
  { induction l as [|x l IH]; intros r; simpl.
    - intros [= <-]. split; [done|constructor].
    - unfold_M. destruct (py_sorted l) as [s|e]; [|done]. intros Hins.
      destruct (IH s eq_refl) as [Hperm Hs].
      destruct (insert_sorted_spec x s r Hins) as [Hperm' Hs'].
      split; [by rewrite Hperm', Hperm|]. by apply Hs'. }
  intros r Hr. destruct (H r Hr) as [Hperm Hs]. split; [done|].
  by apply Sorted_StronglySorted; [apply chunk_index_le_trans|].
Qed.

End Sorting.

(** ** Sorting by any key *)

Section SortMore.

Context {A : Type} (key : A → pyval).

Lemma py_lt_ok_kinds a b c :
  py_lt a b = Ok c →
  (is_int a = true ∧ is_int b = true) ∨ (is_string a = true ∧ is_string b = true).
Proof. destruct a, b; simpl; try done; auto. Qed.

Lemma py_lt_raises a b e : py_lt a b = Raise e → e = TypeError.
Proof. destruct a, b; simpl; congruence. Qed.

Lemma insert_by_perm x l : ∀ r, insert_by key x l = Ok r → r ≡ₚ x :: l.
Proof.
  induction l as [|y l IH]; intros r; simpl.
  - by intros [= <-].
  - unfold_M. destruct (py_lt (key y) (key x)) as [[|]|e]; [| |done].
    + destruct (insert_by key x l) as [r'|e]; [|done]. intros [= <-].
      rewrite (IH r' eq_refl). apply Permutation_swap.
    + by intros [= <-].
Qed.

Lemma sort_by_perm l : ∀ r, sort_by key l = Ok r → r ≡ₚ l.
Proof.
  induction l as [|x l IH]; intros r; simpl.
  - by intros [= <-].
  - unfold_M. destruct (sort_by key l) as [s|e]; [|done]. intros Hins.
    rewrite (insert_by_perm _ _ _ Hins). by rewrite (IH s eq_refl).
Qed.

Lemma insert_by_raises x l e : insert_by key x l = Raise e → e = TypeError.
Proof.
  induction l as [|y l IH]; simpl; [done|]. unfold_M.
  destruct (py_lt (key y) (key x)) as [[|]|e'] eqn:Hlt.
  - destruct (insert_by key x l) as [r'|e']; [done|]. intros [= <-]. by apply IH.
  - done.
  - intros [= <-]. by eapply py_lt_raises.
Qed.

Lemma sort_by_raises l e : sort_by key l = Raise e → e = TypeError.
Proof.
  induction l as [|x l IH]; simpl; [done|]. unfold_M.
  destruct (sort_by key l) as [s|e']; [|intros [= <-]; by apply IH].
  apply insert_by_raises.
Qed.

(** Keys that are all of one kind [K] on which [<] is defined can be
    sorted. *)
Lemma sort_by_one_kind (K : pyval → bool) l :
  (∀ a b, K a = true → K b = true → ∃ c, py_lt a b = Ok c) →
  Forall (λ x, K (key x) = true) l →
  ∃ r, sort_by key l = Ok r.
Proof.
  intros HK. induction l as [|x l IH]; intros Hall; simpl; [by eexists|].
  apply Forall_cons in Hall as [Hx Hall]. destruct (IH Hall) as [s Hs].
  unfold_M. rewrite Hs.
  assert (Forall (λ x, K (key x) = true) s) as Hs'.
  { by rewrite (sort_by_perm _ _ Hs). }
  clear Hs IH Hall. induction s as [|y s IH]; simpl; [by eexists|].
  apply Forall_cons in Hs' as [Hy Hs'].
  destruct (HK _ _ Hy Hx) as [c ->]. destruct c; [|by eexists].
  destruct (IH Hs') as [r ->]. by eexists.
Qed.

Lemma insert_by_head_kind x y l r :
  insert_by key x (y :: l) = Ok r →
  (is_int (key y) = true ∧ is_int (key x) = true)
  ∨ (is_string (key y) = true ∧ is_string (key x) = true).
Proof.
  simpl. unfold_M. destruct (py_lt (key y) (key x)) as [c|e] eqn:Hlt; [|done].
  intros _. by eapply py_lt_ok_kinds.
Qed.

(** Two elements or more can be sorted only when their keys are all
    integers or all strings. *)
Lemma sort_by_ok_kinds l :
  ∀ r, sort_by key l = Ok r →
       (2 ≤ length l)%nat →
       Forall (λ x, is_int (key x) = true) l
       ∨ Forall (λ x, is_string (key x) = true) l.
Proof.
  induction l as [|x l IH]; intros r; simpl; [lia|]. unfold_M.
  destruct (sort_by key l) as [s|e] eqn:Hs; [|done]. intros Hins Hlen.
  pose proof (sort_by_perm _ _ Hs) as Hperm.
  destruct s as [|y s].
  { apply Permutation_nil_l in Hperm. subst l. simpl in Hlen. lia. }
  assert (y ∈ l) as Hy. { rewrite <- Hperm. by left. }
  pose proof (insert_by_head_kind _ _ _ _ Hins) as Hkind.
  assert (Forall (λ x, is_int (key x) = true) l
          ∨ Forall (λ x, is_string (key x) = true) l) as Hl.
  { destruct l as [|z [|z' l']].
    - by apply elem_of_nil in Hy.
    - apply list_elem_of_singleton in Hy as ->.
      destruct Hkind as [[? _]|[? _]]; [left|right]; by repeat constructor.
    - apply (IH (y :: s) eq_refl). simpl. lia. }
  destruct Hl as [Hl|Hl]; [left|right]; constructor; try done.
  - destruct Hkind as [[_ ?]|[Hys _]]; [done|].
    rewrite Forall_forall in Hl. specialize (Hl y Hy).
    by destruct (key y).
  - destruct Hkind as [[Hyi _]|[_ ?]]; [|done].
    rewrite Forall_forall in Hl. specialize (Hl y Hy).
    by destruct (key y).
Qed.

End SortMore.

Lemma insert_sorted_insert_by (x : Payload) (l : list Payload) :
  insert_sorted x l = insert_by sort_key x l.
Proof.
  induction l as [|y l IH]; [done|].
  cbn [insert_sorted insert_by]. by rewrite IH.
Qed.

Lemma py_sorted_sort_by (l : list Payload) : py_sorted l = sort_by sort_key l.
Proof.
  induction l as [|x l IH]; [done|].
  cbn [py_sorted sort_by]. rewrite IH.
  destruct (sort_by sort_key l) as [s|e]; [|done].
  apply insert_sorted_insert_by.
Qed.

Lemma py_lt_ints a b :
  is_int a = true → is_int b = true → ∃ c, py_lt a b = Ok c.
Proof. destruct a, b; simpl; try done; eauto. Qed.

Lemma py_lt_strings a b :
  is_string a = true → is_string b = true → ∃ c, py_lt a b = Ok c.
Proof. destruct a, b; simpl; try done; eauto. Qed.

(** Payloads whose indexes are all integers, or all strings, are sorted
    without an error. *)
Lemma py_sorted_comparable (l : list Payload) :
  Forall (λ p, is_int (sort_key p) = true) l
  ∨ Forall (λ p, is_string (sort_key p) = true) l →
  ∃ r, py_sorted l = Ok r ∧ r ≡ₚ l ∧ StronglySorted chunk_index_le r.
Proof.
  intros Hkind.
  assert (∃ r, sort_by sort_key l = Ok r) as [r Hr].
  { destruct Hkind as [Hall|Hall].
    - by apply (sort_by_one_kind sort_key is_int l py_lt_ints).
    - by apply (sort_by_one_kind sort_key is_string l py_lt_strings). }
  rewrite <- py_sorted_sort_by in Hr. exists r. split; [done|].
  by apply py_sorted_spec.
Qed.

Lemma py_sorted_raises (l : list Payload) e : py_sorted l = Raise e → e = TypeError.
Proof. rewrite py_sorted_sort_by. apply sort_by_raises. Qed.

(** ** Retrieval *)

Section Retrieval.

Context {vector : Type} (E : Env vector).

Lemma found_length s f q : (length (found E s f q) ≤ TOP_K_RESULTS)%nat.
Proof.
  unfold found, TOP_K_RESULTS. destruct s; [rewrite length_take|simpl]; lia.
Qed.

Lemma accumulated_length s f qs :
  (length (accumulated E s f qs) ≤ TOP_K_RESULTS * length qs)%nat.
Proof.
  unfold accumulated. induction qs as [|q qs IH]; [simpl; lia|].
  rewrite fmap_cons. cbn [concat]. rewrite length_app, length_cons.
  pose proof (found_length s f q). lia.
Qed.

Lemma payloads_of_records (pts : list (Point vector)) :
  payloads_of (to_record true <$> pts) = Ok (payload <$> pts).
Proof.
  induction pts as [|p pts IH]; [done|].
  rewrite !fmap_cons. cbn [payloads_of]. rewrite IH. done.
Qed.

(** The run of the fan-out loop. *)
Lemma fan_out_run f qs :
  ∀ acc (w : World vector),
  ∃ r w' t,
    fan_out E f qs acc w = (r, w', t)
    ∧ store w' = store w
    ∧ (∃ k, embedded_queries t = take k qs ∧ (qs ≠ [] → (1 ≤ k)%nat))
    ∧ (length (searches t) ≤ length (embedded_queries t))%nat
    ∧ (length (embedded_queries t) ≤ length qs)%nat
    ∧ match r with
      | Ok hits =>
          hits = acc ++ (to_record true <$> accumulated E (store w) f qs)
          ∧ retrieval_failed t = false
          ∧ length (searches t) = length qs
      | Raise e => retrieval_failed t = true
      end.
Proof.
  induction qs as [|q qs IH]; intros acc w.
  - exists (Ok acc), w, []. simpl. unfold_M. split; [done|]. split; [done|].
    split; [by exists 0%nat|]. split; [done|]. split; [done|].
    by rewrite app_nil_r.
  - simpl. unfold_M. simpl.
    destruct (faults E (clock w)) as [e|]; simpl.
    { eexists _, _, _. split; [done|]. simpl. split; [done|].
      split; [by exists 1%nat|].
      split; [lia|]. split; [lia|done]. }
    destruct (faults E (S (clock w))) as [e|]; simpl.
    { eexists _, _, _. split; [done|]. simpl. split; [done|].
      split; [by exists 1%nat|].
      split; [lia|]. split; [lia|done]. }
    destruct (store w) as [c|] eqn:Hs; simpl.
    2:{ eexists _, _, _. split; [done|]. simpl. split; [done|].
        split; [by exists 1%nat|].
        split; [lia|]. split; [lia|done]. }
    destruct (IH (acc ++ (to_record true <$>
                            take TOP_K_RESULTS (rank E (embed_query E q) (matching f c))))
                 {| clock := S (S (clock w)); store := Some c |})
      as (r & w' & t & Hrun & Hst & (k & Hk & Hk1) & Hsl & Hel & Hr).
    rewrite Hrun. simpl in *.
    exists r, w', (Call (EmbedQuery q)
                   :: Call (Search (embed_query E q) f TOP_K_RESULTS) :: t).
    split; [done|]. split; [done|]. simpl.
    split; [exists (S k); split; [by rewrite Hk|lia]|].
    split; [lia|]. split; [lia|].
    destruct r as [hits|e]; [|done].
    destruct Hr as (-> & Hfail & Hlen). split; [|split; [done|lia]].
    unfold accumulated. simpl. by rewrite fmap_app, app_assoc.
Qed.

Lemma py_in_iterable query o b :
  py_in query o = Ok b → ∃ qs, py_iter o = Ok qs.
Proof. destruct o; simpl; try done; eauto. Qed.

(** Query expansion never raises, leaves the store alone, makes no store
    or embedding call, and yields something the query is [in]. *)
Lemma expanded_queries_ok (query : string) (w : World vector) :
  ∃ o w1 t1,
    _get_expanded_queries E query w = (Ok o, w1, t1)
    ∧ store w1 = store w
    ∧ py_in query o = Ok true
    ∧ retrieval_failed t1 = false
    ∧ embedded_queries t1 = []
    ∧ searches t1 = [].
Proof.
  rewrite expanded_queries_run.
  assert (py_in query (JList [JStr query]) = Ok true) as Hself.
  { simpl. by rewrite String.eqb_refl. }
  destruct (db_client E) as [invoke|]; [|by eexists _, _, _].
  simpl. destruct (faults E (clock w)) as [e|]; [by eexists _, _, _|].
  destruct (expansion_of E query _) as [o|e] eqn:Hexp; [|by eexists _, _, _].
  eexists _, _, _. split; [done|]. split; [done|]. split; [|done].
  unfold expansion_of in Hexp. unfold_M.
  destruct (response_json_text _); [|done].
  destruct (json_loads E _); [|done]. by eapply with_original_in.
Qed.

(** The run of [search] in semantic mode. *)
Lemma search_semantic_run (query user_id : string) (file_ids : list string)
    (w : World vector) :
  file_ids ≠ [] →
  is_summary_request query = false →
  ∃ o w1 t1 qs r w2 t2,
    _get_expanded_queries E query w = (Ok o, w1, t1)
    ∧ py_iter o = Ok qs
    ∧ fan_out E (query_filter user_id file_ids) qs [] w1 = (r, w2, t2)
    ∧ search E query user_id file_ids w =
      match r with
      | Ok _ =>
          let chunks := chunk_entry <$>
                          kept_hits [] (payload <$> accumulated E (store w)
                                          (query_filter user_id file_ids) qs) in
          (Ok chunks, w2,
           Log (LogContextSearch query false)
           :: (t1 ++ t2) ++ [Log (LogRetrieved (length chunks))])
      | Raise e =>
          (Ok [], w2,
           Log (LogContextSearch query false)
           :: (t1 ++ t2) ++ [Log (LogQdrantFailed user_id e)])
      end.
Proof.
  intros Hids Hmode.
  destruct (expanded_queries_ok query w) as (o & w1 & t1 & Hexp & Hst & Hin & _).
  destruct (py_in_iterable _ _ _ Hin) as [qs Hqs].
  destruct (fan_out_run (query_filter user_id file_ids) qs [] w1)
    as (r & w2 & t2 & Hfan & _ & _ & _ & _ & Hr).
  exists o, w1, t1, qs, r, w2, t2. do 3 (split; [done|]).
  unfold search. destruct file_ids as [|fid fids]; [done|].
  rewrite Hmode. unfold_M. rewrite Hexp, Hqs. simpl. rewrite Hfan.
  destruct r as [hits|e]; simpl.
  - destruct Hr as (-> & _). simpl. rewrite payloads_of_records, Hst. simpl.
    rewrite unique_loop_kept. simpl. rewrite <- list_fmap_compose.
    by rewrite <- app_assoc.
  - done.
Qed.

Lemma query_filter_holds (p : Payload) user_id file_ids :
  filter_holds (query_filter user_id file_ids) p = true ↔
  p !! "user_id" = Some (PStr user_id)
  ∧ ∃ file_id, file_id ∈ file_ids ∧ p !! "file_id" = Some (PStr file_id).
Proof.
  unfold filter_holds, query_filter, condition_holds; simpl.
  rewrite !andb_true_iff.
  destruct (p !! "user_id") as [[| |u]|], (p !! "file_id") as [[| |fid]|]; simpl;
    rewrite ?String.eqb_eq, ?existsb_exists;
    try (split; [intros (? & ? & ?)|intros (? & ? & ? & ?)]; congruence).
  split.
  - intros (-> & (x & Hx & ->%String.eqb_eq) & _). split; [done|].
    exists x. split; [by apply list_elem_of_In|done].
  - intros ([= ->] & x & Hx & [= ->]). split; [done|]. split; [|done].
    exists x. split; [by apply list_elem_of_In|apply String.eqb_refl].
Qed.

(** The run of [search] in summarization mode. *)
Lemma search_summary_run (query user_id : string) (file_ids : list string)
    (w : World vector) :
  file_ids ≠ [] →
  is_summary_request query = true →
  let f := query_filter user_id file_ids in
  let r := Scroll f SUMMARY_CHUNK_LIMIT true in
  search E query user_id file_ids w =
  match faults E (clock w) with
  | Some e =>
      (Ok [], tick w,
       [Log (LogContextSearch query true); Call r; Raised r e;
        Log (LogQdrantFailed user_id e)])
  | None =>
      match store w with
      | None =>
          (Ok [], tick w,
           [Log (LogContextSearch query true); Call r; Raised r not_found;
            Log (LogQdrantFailed user_id not_found)])
      | Some c =>
          match py_sorted (payload <$> scroll_page f SUMMARY_CHUNK_LIMIT c) with
          | Ok payloads => (Ok payloads, tick w, [Log (LogContextSearch query true); Call r])
          | Raise e =>
              (Ok [], tick w,
               [Log (LogContextSearch query true); Call r;
                Log (LogQdrantFailed user_id e)])
          end
      end
  end.
Proof.
  intros Hids Hmode. cbv zeta. unfold search.
  destruct file_ids as [|fid fids]; [done|].
  rewrite Hmode. unfold tick. unfold_M. simpl.
  destruct (faults E (clock w)) as [e|]; simpl; [done|].
  destruct (store w) as [c|]; simpl; [|done].
  case_bool_decide as Hnil; simpl.
  - apply fmap_nil_inv in Hnil. rewrite Hnil. done.
  - rewrite payloads_of_records. simpl.
    destruct (py_sorted _); simpl; done.
Qed.

Lemma retrieval_failed_app (t1 t2 : list (event vector)) :
  retrieval_failed (t1 ++ t2) = retrieval_failed t1 || retrieval_failed t2.
Proof. unfold retrieval_failed. apply existsb_app. Qed.

Lemma embedded_queries_app (t1 t2 : list (event vector)) :
  embedded_queries (t1 ++ t2) = embedded_queries t1 ++ embedded_queries t2.
Proof. unfold embedded_queries. apply omap_app. Qed.

Lemma searches_app (t1 t2 : list (event vector)) :
  searches (t1 ++ t2) = searches t1 ++ searches t2.
Proof. unfold searches. apply omap_app. Qed.

(** What the trace of a semantic-mode run shows, and what the run returns. *)
Lemma search_semantic_facts (query user_id : string) (file_ids : list string)
    (w : World vector) :
  file_ids ≠ [] →
  is_summary_request query = false →
  let run := search E query user_id file_ids w in
  ∃ o qs,
    (_get_expanded_queries E query w).1.1 = Ok o
    ∧ py_iter o = Ok qs
    ∧ py_in query o = Ok true
    ∧ run.1.1 = Ok (if retrieval_failed run.2 then []
                    else chunk_entry <$>
                           kept_hits [] (payload <$> accumulated E (store w)
                                           (query_filter user_id file_ids) qs))
    ∧ (∃ k, embedded_queries run.2 = take k qs ∧ (qs ≠ [] → (1 ≤ k)%nat))
    ∧ (length (searches run.2) ≤ length qs)%nat
    ∧ (retrieval_failed run.2 = false → length (searches run.2) = length qs).
Proof.
  intros Hids Hmode. cbv zeta.
  destruct (search_semantic_run query user_id file_ids w Hids Hmode)
    as (o & w1 & t1 & qs & r & w2 & t2 & Hexp & Hqs & Hfan & ->).
  destruct (expanded_queries_ok query w)
    as (o' & w1' & t1' & Hexp' & _ & Hin & Hf1 & He1 & Hs1).
  rewrite Hexp in Hexp'. injection Hexp' as <- <- <-.
  destruct (fan_out_run (query_filter user_id file_ids) qs [] w1)
    as (r' & w2' & t2' & Hfan' & _ & Hk & Hsl & Hel & Hr).
  rewrite Hfan in Hfan'. injection Hfan' as <- <- <-.
  exists o, qs. rewrite Hexp. simpl. do 3 (split; [done|]).
  destruct r as [hits|e]; simpl;
    rewrite !embedded_queries_app, !searches_app, !retrieval_failed_app,
      He1, Hs1, Hf1; simpl; rewrite !app_nil_r.
  - destruct Hr as (_ & -> & Hlen). simpl. split; [done|]. split; [done|].
    split; [lia|done].
  - rewrite Hr. simpl. split; [done|]. split; [done|]. split; [lia|done].
Qed.

(** C4 (as the code has it).  Query expansion never raises and returns a
    sequence the original query is [in]; a returned list is not empty and
    holds the original query; and when the reply of the chat model decodes
    to a JSON array, the result is that array, in its order, with the
    original query appended when it is not in it, so at most one entry
    longer than the array.  Neither five entries at most nor distinct
    entries are enforced. *)
Theorem expansion_contains_original (query : string) (w : World vector) :
  let run := _get_expanded_queries E query w in
  ∃ o,
    run.1.1 = Ok o
    ∧ py_in query o = Ok true
    ∧ (∀ l, o = JList l → JStr query ∈ l ∧ (1 ≤ length l)%nat)
    ∧ (∀ invoke text arr,
         db_client E = Some invoke →
         faults E (clock w) = None →
         response_json_text (invoke (expansion_messages query)) = Ok text →
         json_loads E text = Ok (JList arr) →
         o = JList (if existsb (is_str query) arr then arr else arr ++ [JStr query])
         ∧ (length arr ≤ length (default [] (match o with JList l => Some l | _ => None end))
            ≤ length arr + 1)%nat).
Proof.
  cbv zeta.
  destruct (expanded_queries_ok query w) as (o & w1 & t1 & Hexp & _ & Hin & _).
  exists o. rewrite Hexp. simpl. split; [done|]. split; [done|]. split.
  - intros l ->. simpl in Hin. injection Hin as Hin.
    apply existsb_exists in Hin as (x & Hx & Hq).
    destruct x; simpl in Hq; try done. apply String.eqb_eq in Hq as ->.
    split; [by apply list_elem_of_In|]. destruct l; [done|simpl; lia].
  - intros invoke text arr Hdb Hf Htext Hdec.
    rewrite expanded_queries_run, Hdb in Hexp. simpl in Hexp. rewrite Hf in Hexp.
    unfold expansion_of in Hexp. rewrite Htext in Hexp. unfold_M.
    rewrite Hdec, with_original_list in Hexp. injection Hexp as <- _ _.
    split; [done|]. simpl. destruct (existsb _ arr); simpl; [lia|].
    rewrite length_app. simpl. lia.
Qed.


(** C7.  In summarization mode one scroll is issued, for the points of the
    user in the given files and with limit [SUMMARY_CHUNK_LIMIT]; the call
    returns at most that many payloads, each the payload of a stored point
    of that user and of one of those files, in non-decreasing
    [chunk_index] order; the store is left as it was.  When the scroll goes
    through, the result is the whole page, each payload once, unless the
    sort raised, and then it is empty and the [TypeError] is logged; the
    sort does not raise on indexes that are all integers or all strings,
    and then the result has as many payloads as there are matching points,
    up to the limit. *)
Theorem summary_results_sorted (query user_id : string) (file_ids : list string)
    (w : World vector) :
  file_ids ≠ [] →
  is_summary_request query = true →
  let run := search E query user_id file_ids w in
  let f := query_filter user_id file_ids in
  ∃ payloads,
    run.1.1 = Ok payloads
    ∧ (length payloads ≤ SUMMARY_CHUNK_LIMIT)%nat
    ∧ StronglySorted chunk_index_le payloads
    ∧ (∀ p, p ∈ payloads →
            ∃ c pt, store w = Some c ∧ pt ∈ points c ∧ payload pt = p
                    ∧ p !! "user_id" = Some (PStr user_id)
                    ∧ ∃ file_id, file_id ∈ file_ids
                                 ∧ p !! "file_id" = Some (PStr file_id))
    ∧ (∀ r, Call r ∈ run.2 → r = Scroll f SUMMARY_CHUNK_LIMIT true)
    ∧ store run.1.2 = store w
    ∧ Call (Scroll f SUMMARY_CHUNK_LIMIT true) ∈ run.2
    ∧ (∀ c, faults E (clock w) = None →
            store w = Some c →
            let page := payload <$> scroll_page f SUMMARY_CHUNK_LIMIT c in
            (payloads ≡ₚ page
             ∨ payloads = [] ∧ Log (LogQdrantFailed user_id TypeError) ∈ run.2)
            ∧ (Forall (λ p, is_int (sort_key p) = true) page
               ∨ Forall (λ p, is_string (sort_key p) = true) page →
               payloads ≡ₚ page
               ∧ length payloads
                 = (SUMMARY_CHUNK_LIMIT `min` length (matching f c))%nat
               ∧ ∀ e, Log (LogQdrantFailed user_id e) ∉ run.2)).
Proof.
  intros Hids Hmode. cbv zeta.
  rewrite (search_summary_run query user_id file_ids w Hids Hmode). cbv zeta.
  assert (∀ (l : list (event vector)) r,
            Call r ∈ Log (LogContextSearch query true)
                    :: Call (Scroll (query_filter user_id file_ids)
                               SUMMARY_CHUNK_LIMIT true) :: l →
            Forall (λ ev, match ev with Call _ => False | _ => True end) l →
            r = Scroll (query_filter user_id file_ids) SUMMARY_CHUNK_LIMIT true)
    as Hcalls.
  { intros l r [[=]|[[= ->]|Hr]%elem_of_cons]%elem_of_cons Hl; [done|].
    rewrite Forall_forall in Hl. by destruct (Hl _ Hr). }
  destruct (faults E (clock w)) as [e|]; simpl.
  { exists []. split; [done|]. split; [simpl; lia|]. split; [constructor|].
    split; [intros p Hp; by apply not_elem_of_nil in Hp|]. split.
    { intros r Hr. apply (Hcalls _ _ Hr). by repeat constructor. }
    split; [done|]. split; [by right; left|]. by intros c [=]. }
  destruct (store w) as [c|] eqn:Hs; simpl.
  2:{ exists []. split; [done|]. split; [simpl; lia|]. split; [constructor|].
      split; [intros p Hp; by apply not_elem_of_nil in Hp|]. split.
      { intros r Hr. apply (Hcalls _ _ Hr). by repeat constructor. }
      split; [done|]. split; [by right; left|]. by intros c _ [=]. }
  destruct (py_sorted _) as [payloads|e] eqn:Hsort; simpl.
  2:{ exists []. split; [done|]. split; [simpl; lia|]. split; [constructor|].
      split; [intros p Hp; by apply not_elem_of_nil in Hp|]. split.
      { intros r Hr. apply (Hcalls _ _ Hr). by repeat constructor. }
      split; [done|]. split; [by right; left|]. intros c' _ [= <-].
      pose proof (py_sorted_raises _ _ Hsort) as ->. split.
      { right. split; [done|]. by do 2 right; left. }
      intros Hkind. destruct (py_sorted_comparable _ Hkind) as (r & Hr & _).
      congruence. }
  apply py_sorted_spec in Hsort as [Hperm Hsorted].
  exists payloads. split; [done|]. split.
  { rewrite Hperm, length_fmap, scroll_page_length. lia. }
  split; [done|]. split.
  { intros p Hp. rewrite Hperm in Hp.
    apply list_elem_of_fmap in Hp as (pt & -> & Hpt).
    apply elem_of_scroll_page in Hpt. unfold matching in Hpt.
    apply list_elem_of_filter in Hpt as [Hf Hpt].
    apply query_filter_holds in Hf as [Hu Hfile]. by exists c, pt. }
  split. { intros r Hr. apply (Hcalls _ _ Hr). constructor. }
  split; [done|]. split; [by right; left|]. intros c' _ [= <-].
  split; [by left|]. intros _. split; [done|]. split.
  { by rewrite Hperm, length_fmap, scroll_page_length. }
  intros e [[=]|[[=]|[]%elem_of_nil]%elem_of_cons]%elem_of_cons.
Qed.

(** C8.  [search] never raises, and when a store or embedding call of the
    run raised, it returns the empty list. *)
Theorem retrieval_failure_gives_empty (query user_id : string)
    (file_ids : list string) (w : World vector) :
  let run := search E query user_id file_ids w in
  ∃ chunks, run.1.1 = Ok chunks ∧ (retrieval_failed run.2 = true → chunks = []).
Proof.
  cbv zeta. destruct (decide (file_ids = [])) as [->|Hids].
  { by exists []. }
  destruct (is_summary_request query) eqn:Hmode.
  - rewrite (search_summary_run query user_id file_ids w Hids Hmode). cbv zeta.
    destruct (faults E (clock w)) as [e|]; [by exists []|].
    destruct (store w) as [c|]; [|by exists []].
    destruct (py_sorted _) as [payloads|e]; [|by exists []].
    by exists payloads.
  - destruct (search_semantic_facts query user_id file_ids w Hids Hmode)
      as (o & qs & _ & _ & _ & Hres & _).
    cbv zeta in Hres. eexists. split; [exact Hres|]. by intros ->.
Qed.

(** C9.  Without a chat model, or when its call raises or its reply does
    not decode as JSON, query expansion returns the list holding just the
    original query, and a semantic-mode retrieval embeds that one query
    only, issues at most one search, and returns the deduplicated hits of
    that search (nothing when the embedding or the search failed). *)
Theorem expansion_falls_back (query : string) (w : World vector) :
  (db_client E = None
   ∨ ∃ invoke, db_client E = Some invoke
               ∧ (is_Some (faults E (clock w))
                  ∨ ∃ text e,
                      response_json_text (invoke (expansion_messages query)) = Ok text
                      ∧ json_loads E text = Raise e)) →
  (_get_expanded_queries E query w).1.1 = Ok (JList [JStr query])
  ∧ ∀ user_id file_ids,
      file_ids ≠ [] →
      is_summary_request query = false →
      let run := search E query user_id file_ids w in
      embedded_queries run.2 = [JStr query]
      ∧ (length (searches run.2) ≤ 1)%nat
      ∧ run.1.1 = Ok (if retrieval_failed run.2 then []
                      else chunk_entry <$>
                             kept_hits [] (payload <$> found E (store w)
                                             (query_filter user_id file_ids)
                                             (JStr query))).
Proof.
  intros Hfallback.
  assert ((_get_expanded_queries E query w).1.1 = Ok (JList [JStr query])) as Hexp.
  { rewrite expanded_queries_run.
    destruct Hfallback as [->|(invoke & -> & [[e ->]|(text & e & Htext & Hdec)])];
      [done..|].
    cbv zeta. destruct (faults E (clock w)); [done|].
    unfold expansion_of. rewrite Htext. unfold_M. by rewrite Hdec. }
  split; [done|]. intros user_id file_ids Hids Hmode.
  destruct (search_semantic_facts query user_id file_ids w Hids Hmode)
    as (o & qs & Hexp' & Hqs & _ & Hres & (k & Hk & Hk1) & Hs & _).
  rewrite Hexp in Hexp'. injection Hexp' as <-. simpl in Hqs. injection Hqs as <-.
  cbv zeta in *. split.
  { rewrite Hk. destruct k as [|k]; [specialize (Hk1 ltac:(done)); lia|].
    simpl. by rewrite take_nil. }
  split; [done|]. rewrite Hres. unfold accumulated. simpl.
  by rewrite app_nil_r.
Qed.

(** C10.  In semantic mode the number of returned chunks is at most
    [TOP_K_RESULTS] times the number of searches the run issued, one per
    expanded query at most. *)
Theorem semantic_results_bounded (query user_id : string)
    (file_ids : list string) (w : World vector) :
  file_ids ≠ [] →
  is_summary_request query = false →
  let run := search E query user_id file_ids w in
  ∃ o qs chunks,
    (_get_expanded_queries E query w).1.1 = Ok o
    ∧ py_iter o = Ok qs
    ∧ run.1.1 = Ok chunks
    ∧ (length chunks ≤ TOP_K_RESULTS * length (searches run.2))%nat
    ∧ (length (searches run.2) ≤ length qs)%nat.
Proof.
  intros Hids Hmode.
  destruct (search_semantic_facts query user_id file_ids w Hids Hmode)
    as (o & qs & Hexp & Hqs & _ & Hres & _ & Hs & Hall).
  cbv zeta in *. eexists o, qs, _. do 2 (split; [done|]). split; [exact Hres|].
  split; [|done].
  destruct (retrieval_failed (search E query user_id file_ids w).2); [simpl; lia|].
  rewrite Hall by done. rewrite length_fmap.
  etrans; [apply kept_hits_length|]. rewrite length_fmap. apply accumulated_length.
Qed.

End Retrieval.

(** * The properties on concrete runs *)

(** The file [f1] of user [u1] is ingested once; ingesting it again changes
    nothing. *)
Lemma duplicate_ingestion_is_noop_witness :
  (let again := process_document Example.quiet "u1" "Ann" "docs" "a.pdf"
                  "2024-01-01" [] "f1" Example.ingested in
   store again.1.2 = store Example.ingested
   ∧ Forall (λ ev, is_ingest_work ev = false) again.2
   ∧ (faults Example.quiet (clock Example.ingested) = None →
        again.1.1 = Ok PNone ∧ outcome_of again.2 = Some SkippedDuplicate))
  ∧ (let first := process_document Example.quiet "u1" "Ann" "docs" "a.pdf"
                    "2024-01-01" [] "f1" Example.fresh in
     let second := process_document Example.quiet "u1" "Ann" "docs" "a.pdf"
                     "2024-01-01" [] "f1" first.1.2 in
     store second.1.2 = store first.1.2
     ∧ Forall (λ ev, is_ingest_work ev = false) second.2
     ∧ points_of_pair (store second.1.2) "f1" "u1" = hd [] (upserts first.2)).
Proof.
  split.
  - apply (proj1 (duplicate_ingestion_is_noop Example.quiet Example.ingested
                    "u1" "Ann" "docs" "a.pdf" "2024-01-01" [] "f1")).
    apply has_stored_point_matching. vm_compute. intros H. discriminate H.
  - cbv zeta.
    destruct (proj2 (duplicate_ingestion_is_noop Example.quiet Example.fresh
                       "u1" "Ann" "docs" "a.pdf" "2024-01-01" [] "f1")
                (hd [] (upserts (process_document Example.quiet "u1" "Ann" "docs"
                                   "a.pdf" "2024-01-01" [] "f1" Example.fresh).2))
                "Ann" "docs" "a.pdf" "2024-01-01" [])
      as (Hstore & Hwork & Hpoints).
    + vm_compute. reflexivity.
    + vm_compute. reflexivity.
    + split; [exact Hstore|]. split; [exact Hwork|]. apply Hpoints. split.
      * apply (@bool_decide_unpack _ (NoDup_dec _)). vm_compute. exact I.
      * intros c p q [= <-] _ Hq. simpl in Hq. by apply not_elem_of_nil in Hq.
Defined.

(** The ingestion of [f1] writes three points, numbered 0, 1, 2. *)
Lemma ingested_points_numbered_witness :
  let run := process_document Example.quiet "u1" "Ann" "docs" "a.pdf"
               "2024-01-01" [] "f1" Example.fresh in
  ∃ batch,
    upserts run.2 = [batch]
    ∧ length batch = 3%nat
    ∧ (λ p, payload p !! "chunk_index") <$> batch
        = [Some (PInt 0); Some (PInt 1); Some (PInt 2)]
    ∧ (λ p, payload p !! "text") <$> batch
        = [Some (PStr "alpha"); Some (PStr "beta"); Some (PStr "gamma")]
    ∧ outcome_of run.2 = Some (Ingested 3)
    ∧ store run.1.2 = snd (store_upsert batch (store Example.fresh))
    ∧ (fresh_ids batch (store Example.fresh) →
         ∃ c, store Example.fresh = Some c
              ∧ points <$> store run.1.2 = Some (points c ++ batch)).
Proof.
  apply (ingested_points_numbered Example.quiet Example.fresh
           "u1" "Ann" "docs" "a.pdf" "2024-01-01" [] "f1").
  - vm_compute. reflexivity.
  - vm_compute. intros H. discriminate H.
Defined.

(** The ingestion of [f1] returns [None] and logs that it stored 3 chunks. *)
Lemma outcome_only_in_log_witness :
  let run := process_document Example.quiet "u1" "Ann" "docs" "a.pdf"
               "2024-01-01" [] "f1" Example.fresh in
  PNone = PNone
  ∧ ∃ o, outcome_of run.2 = Some o
       ∧ match o with
         | SkippedDuplicate =>
             has_stored_point (store Example.fresh) "f1" "u1"
             ∧ upserts run.2 = [] ∧ store run.1.2 = store Example.fresh
         | SkippedEmpty =>
             ¬ has_stored_point (store Example.fresh) "f1" "u1"
             ∧ upserts run.2 = [] ∧ store run.1.2 = store Example.fresh
         | Ingested count =>
             count = length (chunks_of Example.quiet [])
             ∧ ∃ batch, upserts run.2 = [batch] ∧ length batch = count
         end.
Proof.
  apply (outcome_only_in_log Example.quiet Example.fresh
           "u1" "Ann" "docs" "a.pdf" "2024-01-01" [] "f1" PNone).
  vm_compute. reflexivity.
Defined.

(** C3 as stated fails: a first ingestion and a repeated one return the same
    value, so no reading of the returned value tells the outcomes apart. *)
Lemma return_value_hides_outcome :
  ¬ ∃ identify : pyval → Outcome,
      ∀ w : World unit,
        let run := process_document Example.quiet "u1" "Ann" "docs" "a.pdf"
                     "2024-01-01" [] "f1" w in
        ∀ v, run.1.1 = Ok v → outcome_of run.2 = Some (identify v).
Proof.
  intros [identify H].
  pose proof (H Example.fresh PNone) as H1.
  pose proof (H Example.ingested PNone) as H2.
  vm_compute in H1, H2.
  specialize (H1 eq_refl). specialize (H2 eq_refl). congruence.
Qed.

(** With a chat model that answers with five paraphrases, as asked, the
    expansion has six entries. *)
Lemma expansion_contains_original_witness :
  (_get_expanded_queries (Example.with_model Example.five_paraphrases)
     "what are the safety limits" Example.fresh).1.1
  = Ok (JList [ JStr "thermal limits"; JStr "operating constraints";
                JStr "safety thresholds"; JStr "maximum ratings";
                JStr "limit values"; JStr "what are the safety limits" ]).
Proof.
  destruct (expansion_contains_original (Example.with_model Example.five_paraphrases)
              "what are the safety limits" Example.fresh)
    as (o & Ho & _ & _ & Harr).
  destruct (Harr (λ _, Example.five_paraphrases) Example.five_paraphrases
              [ JStr "thermal limits"; JStr "operating constraints";
                JStr "safety thresholds"; JStr "maximum ratings";
                JStr "limit values" ]) as [Heq _].
  - reflexivity.
  - reflexivity.
  - vm_compute. reflexivity.
  - vm_compute. reflexivity.
  - rewrite Ho, Heq. vm_compute. reflexivity.
Defined.

(** C4 as stated fails: on that reply the expansion is not a sequence of
    one to five distinct queries. *)
Lemma expansion_exceeds_five :
  ¬ ∃ l, (_get_expanded_queries (Example.with_model Example.five_paraphrases)
            "what are the safety limits" Example.fresh).1.1 = Ok (JList l)
         ∧ (1 ≤ length l ≤ 5)%nat
         ∧ NoDup l
         ∧ JStr "what are the safety limits" ∈ l.
Proof.
  intros (l & Hl & Hlen & _). vm_compute in Hl. injection Hl as <-.
  simpl in Hlen. lia.
Qed.

(** Nor are the entries distinct when the model repeats itself. *)
Lemma expansion_keeps_repeats :
  (_get_expanded_queries
     (Example.with_model (Example.array_text ["safety limits"; "safety limits"]))
     "safety limits" Example.fresh).1.1
  = Ok (JList [JStr "safety limits"; JStr "safety limits"]).
Proof. vm_compute. reflexivity. Qed.

(** A collection of vector size 768 is deleted and created anew, with one
    nested call. *)
Lemma drift_repair_retries_once_witness :
  let run := _get_or_create_collection Example.quiet 1000 Example.drifted in
  run = _get_or_create_collection Example.quiet 2 Example.drifted
  ∧ (deletions run.2 ≤ 1)%nat
  ∧ run.1.1 = Ok tt
  ∧ store run.1.2 = Some Example.empty_collection
  ∧ deletions run.2 = 1%nat.
Proof.
  destruct (drift_repair_retries_once Example.quiet 998 Example.drifted
              {| vector_size := 768; indexes := []; points := [] |})
    as (Hdepth & Hdel & Hrun).
  - reflexivity.
  - intros H. discriminate H.
  - cbv zeta. split; [exact Hdepth|]. split; [exact Hdel|].
    destruct Hrun as (Hres & Hstore & Htrace); [reflexivity|].
    split; [exact Hres|]. split; [exact Hstore|].
    rewrite Htrace. reflexivity.
Defined.


(** A summary request returns the three payloads of [f1], in order. *)
Lemma summary_results_sorted_witness :
  let run := search Example.quiet "give me a summary" "u1" ["f1"] Example.ingested in
  ∃ payloads,
    run.1.1 = Ok payloads
    ∧ payloads ≡ₚ payload <$> points Scenario.ingested_collection
    ∧ length payloads = 3%nat
    ∧ StronglySorted chunk_index_le payloads
    ∧ Call (Scroll (query_filter "u1" ["f1"]) SUMMARY_CHUNK_LIMIT true) ∈ run.2.
Proof.
  destruct (summary_results_sorted Example.quiet "give me a summary" "u1" ["f1"]
              Example.ingested)
    as (payloads & Hres & _ & Hsorted & _ & _ & _ & Hcall & Hpage).
  - intros H. discriminate H.
  - vm_compute. reflexivity.
  - destruct (Hpage Scenario.ingested_collection) as [_ Hfull].
    + reflexivity.
    + vm_compute. reflexivity.
    + cbv zeta in Hfull. destruct Hfull as (Hperm & Hlen & _).
      * left. vm_compute. repeat constructor.
      * exists payloads. split; [exact Hres|]. split.
        { rewrite Hperm. f_equal. }
        split; [exact Hlen|]. split; [exact Hsorted|exact Hcall].
Defined.

(** The embedding service times out: the retrieval returns no chunk. *)
Lemma retrieval_failure_gives_empty_witness :
  (search (Example.failing_at 8) "what is alpha" "u1" ["f1"] Example.ingested).1.1
  = Ok [].
Proof.
  destruct (retrieval_failure_gives_empty (Example.failing_at 8) "what is alpha"
              "u1" ["f1"] Example.ingested) as (chunks & Hres & Hfail).
  rewrite Hres. f_equal. apply Hfail. vm_compute. reflexivity.
Defined.

(** The chat model answers with prose: the expansion is the original query
    alone, and one query is embedded. *)
Lemma expansion_falls_back_witness :
  let E := Example.with_model "I can not help with that." in
  (_get_expanded_queries E "what is alpha" Example.ingested).1.1
  = Ok (JList [JStr "what is alpha"])
  ∧ embedded_queries (search E "what is alpha" "u1" ["f1"] Example.ingested).2
    = [JStr "what is alpha"].
Proof.
  cbv zeta.
  destruct (expansion_falls_back (Example.with_model "I can not help with that.")
              "what is alpha" Example.ingested) as [Hexp Hsearch].
  - right. exists (λ _, "I can not help with that."). split; [reflexivity|].
    right. exists "I can not help with that.", Example.JSONDecodeError.
    split; vm_compute; reflexivity.
  - split; [exact Hexp|].
    destruct (Hsearch "u1" ["f1"]) as (Hemb & _).
    + intros H. discriminate H.
    + vm_compute. reflexivity.
    + exact Hemb.
Defined.

(** Three searches, at most nine chunks. *)
Lemma semantic_results_bounded_witness :
  let E := Example.with_model (Example.array_text ["alpha chunk"; "beta chunk"]) in
  let run := search E "what is alpha" "u1" ["f1"] Example.ingested in
  ∃ o qs chunks,
    (_get_expanded_queries E "what is alpha" Example.ingested).1.1 = Ok o
    ∧ py_iter o = Ok qs
    ∧ run.1.1 = Ok chunks
    ∧ (length chunks ≤ TOP_K_RESULTS * length (searches run.2))%nat
    ∧ (length (searches run.2) ≤ length qs)%nat.
Proof.
  apply (semantic_results_bounded
           (Example.with_model (Example.array_text ["alpha chunk"; "beta chunk"]))
           "what is alpha" "u1" ["f1"] Example.ingested).
  - intros H. discriminate H.
  - vm_compute. reflexivity.
Defined.

(** ** Further runs *)

(** A reply is taken out of its fence before it is decoded. *)
Example fenced_reply :
  response_json_text ("Here you go: ```json" +:+ Example.array_text ["a"; "b"]
                      +:+ "``` Anything else?")
  = Ok (Example.array_text ["a"; "b"]).
Proof. vm_compute. reflexivity. Qed.

(** A semantic-mode retrieval over three expanded queries: each search finds
    the three chunks of [f1], and each chunk is returned once. *)
Example three_queries_three_entries :
  (search (Example.with_model (Example.array_text ["alpha chunk"; "beta chunk"]))
     "what is alpha" "u1" ["f1"] Example.ingested).1.1
  = Ok [ <["text" := PStr "alpha"]> (<["original_filename" := PStr "a.pdf"]> ∅);
         <["text" := PStr "beta"]> (<["original_filename" := PStr "a.pdf"]> ∅);
         <["text" := PStr "gamma"]> (<["original_filename" := PStr "a.pdf"]> ∅) ].
Proof. vm_compute. reflexivity. Qed.

(** A hit without text does not take the place of a later hit with the same
    key. *)
Example later_hit_with_text_is_kept :
  unique_loop [Example.hit_without_text; Example.hit_with_text; Example.hit_with_text] []
  = [((PStr "f1", PInt 2), chunk_entry Example.hit_with_text)].
Proof. vm_compute. reflexivity. Qed.

(** A summary request on a store that holds the chunks in the order 2, 1, 0
    returns them in the order 0, 1, 2. *)
Example summary_of_shuffled_store :
  match (search Example.quiet "give me a summary" "u1" ["f1"] Example.shuffled).1.1 with
  | Ok payloads => (λ p : Payload, p !! "chunk_index") <$> payloads
  | Raise _ => []
  end
  = [Some (PInt 0); Some (PInt 1); Some (PInt 2)].
Proof. vm_compute. reflexivity. Qed.

(** A request for no file does not reach the store. *)
Example no_files_no_call :
  search Example.quiet "what is alpha" "u1" [] Example.ingested
  = (Ok [], Example.ingested, []).
Proof. reflexivity. Qed.

(** The upsert times out: the ingestion raises and the store is as before. *)
Example failed_upsert_raises :
  let run := process_document (Example.failing_at 7) "u1" "Ann" "docs" "a.pdf"
               "2024-01-01" [] "f1" Example.fresh in
  run.1.1 = Raise (Exn "ResponseHandlingException" "timed out" None)
  ∧ store run.1.2 = store Example.fresh.
Proof. vm_compute. split; reflexivity. Qed.

(** * Further properties *)

(** ** The ensure step *)

Section EnsureMore.

Context {vector : Type} (E : Env vector).

Lemma indexes_after_both (idx : list string) :
  let idx1 := if bool_decide ("user_id" ∈ idx) then idx else idx ++ ["user_id"] in
  let idx2 := if bool_decide ("file_id" ∈ idx1) then idx1 else idx1 ++ ["file_id"] in
  "user_id" ∈ idx2 ∧ "file_id" ∈ idx2
  ∧ ("user_id" ∈ idx → "file_id" ∈ idx → idx2 = idx).
Proof.
  cbv zeta. case_bool_decide as Hu; case_bool_decide as Hf;
    rewrite ?elem_of_app, ?elem_of_cons, ?elem_of_nil in *;
    split_and!; try tauto; intros; exfalso; tauto.
Qed.

(** A run of the ensure step that returns leaves a collection of the
    expected vector size with both payload indexes. *)
Lemma ensure_ok_valid depth :
  ∀ (w w' : World vector) t,
    _get_or_create_collection E depth w = (Ok tt, w', t) →
    ∃ c, store w' = Some c
         ∧ vector_size c = EMBEDDING_DIM
         ∧ "user_id" ∈ indexes c ∧ "file_id" ∈ indexes c.
Proof.
  induction depth as [|depth IH]; intros w w' t; [discriminate|].
  destruct w as [n s]. simpl. unfold_M. simpl.
  destruct (faults E n) as [e|]; simpl.
  { destruct (is_not_found e); simpl; [|discriminate].
    destruct (faults E (S n)); simpl; [discriminate|].
    destruct (faults E (S (S n))); simpl; [discriminate|].
    destruct (faults E (S (S (S n)))); simpl; [discriminate|].
    intros [= <- <-]. eexists. split; [done|]. simpl.
    split; [done|]. split; [by left|by right; left]. }
  destruct s as [c|]; simpl.
  2:{ destruct (faults E (S n)); simpl; [discriminate|].
      destruct (faults E (S (S n))); simpl; [discriminate|].
      destruct (faults E (S (S (S n)))); simpl; [discriminate|].
      intros [= <- <-]. eexists. split; [done|]. simpl.
      split; [done|]. split; [by left|by right; left]. }
  destruct (faults E (S n)) as [e|]; simpl; [discriminate|].
  destruct (Z.eqb (vector_size c) EMBEDDING_DIM) eqn:Hdim; simpl.
  { destruct (faults E (S (S n))); simpl; [discriminate|].
    destruct (faults E (S (S (S n)))); simpl; [discriminate|].
    intros [= <- <-]. eexists. split; [done|]. simpl.
    apply Z.eqb_eq in Hdim. split; [done|].
    destruct (indexes_after_both (indexes c)) as (? & ? & _). done. }
  destruct (faults E (S (S n))) as [e|]; simpl; [discriminate|].
  destruct (_get_or_create_collection E depth {| clock := S (S (S n)); store := None |})
    as [[r w2] t2] eqn:Hrec.
  destruct r as [[]|e]; simpl; [|discriminate].
  intros [= <- <-]. by eapply IH.
Qed.

(** On a collection of the expected vector size the ensure step only
    creates indexes, unless the first lookup raises something that reads
    like a missing collection. *)
Lemma ensure_valid_kept depth (w : World vector) (c : Collection vector) :
  store w = Some c →
  vector_size c = EMBEDDING_DIM →
  (∀ e, faults E (clock w) = Some e → is_not_found e = false) →
  let run := _get_or_create_collection E (S depth) w in
  stored_points (store run.1.2) = points c
  ∧ (∃ c', store run.1.2 = Some c' ∧ vector_size c' = vector_size c)
  ∧ deletions run.2 = 0%nat
  ∧ ("user_id" ∈ indexes c → "file_id" ∈ indexes c → store run.1.2 = store w).
Proof.
  destruct w as [n s]. simpl. intros -> Hdim Hnf. unfold_M. simpl.
  destruct (faults E n) as [e|]; simpl.
  { rewrite (Hnf e eq_refl). simpl. split; [done|]. split; [by exists c|]. done. }
  destruct (faults E (S n)) as [e|]; simpl.
  { split; [done|]. split; [by exists c|]. done. }
  apply Z.eqb_eq in Hdim. rewrite Hdim. simpl.
  destruct (indexes_after_both (indexes c)) as (_ & _ & Hsame).
  cbv zeta in Hsame.
  destruct (faults E (S (S n))) as [e|]; simpl.
  { split; [done|]. split; [by exists c|]. done. }
  destruct (faults E (S (S (S n)))) as [e|]; simpl.
  - split; [done|]. split; [by eexists|]. split; [done|].
    intros Hu Hf. rewrite bool_decide_eq_true_2 by done. by destruct c.
  - split; [done|]. split; [by eexists|]. split; [done|].
    intros Hu Hf. rewrite (Hsame Hu Hf). by destruct c.
Qed.

(** X1.  Whenever the ensure step returns, whatever failed on the way, the
    store holds a collection of vector size [EMBEDDING_DIM] with payload
    indexes on [user_id] and [file_id]. *)
Theorem ensure_success_leaves_valid_collection depth (w : World vector) :
  let run := _get_or_create_collection E depth w in
  run.1.1 = Ok tt →
  ∃ c, store run.1.2 = Some c
       ∧ vector_size c = EMBEDDING_DIM
       ∧ "user_id" ∈ indexes c ∧ "file_id" ∈ indexes c.
Proof.
  cbv zeta. destruct (_get_or_create_collection E depth w) as [[r w'] t] eqn:Hrun.
  simpl. intros ->. by eapply ensure_ok_valid.
Qed.

(** X2.  On a collection that has the expected vector size, the ensure step
    keeps every stored point and the vector size and deletes nothing, also
    when a later call fails; the one exception is a first lookup that raises
    an error reading like a missing collection. *)
Theorem ensure_keeps_matching_collection depth (w : World vector)
    (c : Collection vector) :
  store w = Some c →
  vector_size c = EMBEDDING_DIM →
  (∀ e, faults E (clock w) = Some e → is_not_found e = false) →
  let run := _get_or_create_collection E (S depth) w in
  stored_points (store run.1.2) = points c
  ∧ (∃ c', store run.1.2 = Some c' ∧ vector_size c' = vector_size c)
  ∧ deletions run.2 = 0%nat.
Proof.
  intros Hc Hdim Hnf.
  destruct (ensure_valid_kept depth w c Hc Hdim Hnf) as (Hp & Hv & Hd & _).
  done.
Qed.

(** X3.  The ensure step is idempotent: after a run that returned, a second
    run leaves the store exactly as the first one left it (again unless its
    first lookup raises an error reading like a missing collection). *)
Theorem ensure_is_idempotent depth depth' (w : World vector) :
  let first := _get_or_create_collection E depth w in
  first.1.1 = Ok tt →
  (∀ e, faults E (clock first.1.2) = Some e → is_not_found e = false) →
  let second := _get_or_create_collection E (S depth') first.1.2 in
  store second.1.2 = store first.1.2.
Proof.
  cbv zeta. destruct (_get_or_create_collection E depth w) as [[r w1] t1] eqn:Hrun.
  simpl. intros -> Hnf.
  destruct (ensure_ok_valid _ _ _ _ Hrun) as (c & Hc & Hdim & Hu & Hf).
  destruct (ensure_valid_kept depth' w1 c Hc Hdim Hnf) as (_ & _ & _ & Hsame).
  by apply Hsame.
Qed.

(** X4.  An error of the first lookup whose text contains [404] is taken for
    a missing collection, whether or not the collection is there: the
    collection is created anew and every stored point is gone. *)
Theorem error_mentioning_404_recreates depth (w : World vector) e :
  faults E (clock w) = Some e →
  Py.contains "404" (exn_str e) = true →
  (∀ k, (1 ≤ k ≤ 3)%nat → faults E (clock w + k) = None) →
  let run := _get_or_create_collection E (S depth) w in
  run.1.1 = Ok tt
  ∧ store run.1.2 = Some {| vector_size := EMBEDDING_DIM;
                            indexes := ["user_id"; "file_id"];
                            points := [] |}.
Proof.
  intros He H404 Hf. destruct w as [n s]. simpl in *.
  assert (is_not_found e = true) as Hnf.
  { unfold is_not_found. by rewrite H404. }
  pose proof (Hf 1%nat ltac:(lia)) as H1. pose proof (Hf 2%nat ltac:(lia)) as H2.
  pose proof (Hf 3%nat ltac:(lia)) as H3.
  replace (n + 1)%nat with (S n) in H1 by lia.
  replace (n + 2)%nat with (S (S n)) in H2 by lia.
  replace (n + 3)%nat with (S (S (S n))) in H3 by lia.
  unfold_M. simpl. rewrite He. simpl. rewrite Hnf. simpl.
  rewrite H1. simpl. rewrite H2. simpl. rewrite H3. simpl. done.
Qed.

End EnsureMore.

(** ** Ingestion *)

Section IngestionMore.

Context {vector : Type} (E : Env vector).

Lemma page_texts_nonempty pages : Forall (λ t, t ≠ "") (page_texts pages).
Proof.
  induction pages as [|[t|] pages IH]; simpl; [constructor| |done].
  destruct (String.eqb_spec t ""); [done|]. by constructor.
Qed.

Lemma page_texts_nil pages :
  page_texts pages = [] ↔ Forall (λ page, page = None ∨ page = Some "") pages.
Proof.
  induction pages as [|[t|] pages IH]; simpl.
  - split; [constructor|done].
  - destruct (String.eqb_spec t "") as [->|Hne]; simpl.
    + rewrite IH. split; [by constructor; [right|]|by inversion 1].
    + split; [intros [=]|]. inversion 1 as [|? ? [[=]|[= ?]]]; congruence.
  - rewrite IH. split; [by constructor; [left|]|by inversion 1].
Qed.

Lemma join_pages_empty texts :
  Forall (λ t, t ≠ "") texts → join_pages texts = "" → texts = [].
Proof.
  destruct texts as [|t [|u rest]]; [done|..].
  - inversion 1; subst. simpl. done.
  - inversion 1; subst. simpl. by destruct t.
Qed.

(** X5.  Text extraction leaves the store alone; whatever the PDF parser
    raises becomes a [ValueError] that names the file; and the text it
    returns is empty exactly when no page has text. *)
Theorem extraction_outcome (bytes : list Byte.byte) (original_filename : string)
    (w : World vector) :
  let run := _extract_text_from_file E bytes original_filename w in
  store run.1.2 = store w
  ∧ (is_Some (faults E (clock w)) →
       run.1.1 = Raise (ValueError ("Could not process PDF content for "
                                    +:+ original_filename +:+ ".")))
  ∧ (faults E (clock w) = None →
       ∃ text, run.1.1 = Ok text
               ∧ (text = "" ↔ Forall (λ page, page = None ∨ page = Some "")
                                (pdf_pages E bytes))).
Proof.
  cbv zeta. unfold _extract_text_from_file. unfold_M. simpl.
  destruct (faults E (clock w)) as [e|]; simpl.
  - split; [done|]. split; [done|]. done.
  - split; [done|]. split; [by intros [? [=]]|]. intros _.
    eexists. split; [done|]. rewrite <- page_texts_nil. split.
    + apply join_pages_empty, page_texts_nonempty.
    + by intros ->.
Qed.

(** X6.  A document whose extracted text is empty or white space, or whose
    text splits into no chunk, is skipped: nothing is embedded or written
    and the store is left as it was. *)
Theorem empty_document_is_skipped (w : World vector) (c : Collection vector)
    user_id user_name collection_name original_filename timestamp bytes file_id :
  store w = Some c →
  ¬ has_stored_point (store w) file_id user_id →
  (∀ k, (k < 3)%nat → faults E (clock w + k) = None) →
  Py.strip (extracted_text E bytes) = "" ∨ chunks_of E bytes = [] →
  let run := process_document E user_id user_name collection_name
               original_filename timestamp bytes file_id w in
  run.1.1 = Ok PNone
  ∧ store run.1.2 = store w
  ∧ outcome_of run.2 = Some SkippedEmpty
  ∧ upserts run.2 = []
  ∧ Forall (λ ev, ∀ chunks, ev ≠ Call (EmbedDocuments chunks)) run.2.
Proof.
  intros Hc Hnd Hf Hempty. destruct w as [n s]. simpl in *. subst s.
  pose proof (Hf 0%nat ltac:(lia)) as H0. pose proof (Hf 1%nat ltac:(lia)) as H1.
  pose proof (Hf 2%nat ltac:(lia)) as H2.
  replace (n + 0)%nat with n in H0 by lia.
  replace (n + 1)%nat with (S n) in H1 by lia.
  replace (n + 2)%nat with (S (S n)) in H2 by lia.
  assert (matching (duplicate_filter file_id user_id) c = []) as Hm.
  { destruct (matching _ c) eqn:Hm; [done|]. exfalso. apply Hnd.
    apply has_stored_point_matching. simpl. by rewrite Hm. }
  unfold chunks_of, extracted_text in *.
  unfold process_document, _extract_text_from_file. unfold_M. simpl.
  rewrite H0. simpl. rewrite (scroll_page_nil _ 1 c Hm). simpl. rewrite H1. simpl.
  destruct ((join_pages (page_texts (pdf_pages E bytes)) =? "")
            || (Py.strip (join_pages (page_texts (pdf_pages E bytes))) =? ""))%bool
    eqn:Hblank; simpl.
  { split; [done|]. split; [done|]. split; [done|]. split; [done|].
    repeat constructor; done. }
  destruct Hempty as [Hstrip|Hchunks].
  { rewrite Hstrip in Hblank. simpl in Hblank. by rewrite orb_true_r in Hblank. }
  rewrite H2. simpl. rewrite Hchunks. simpl.
  split; [done|]. split; [done|]. split; [done|]. split; [done|].
  repeat constructor; done.
Qed.

Ltac trace_leaf :=
  split; [simpl; lia|];
  split; [reflexivity|];
  split;
  [ intros ? ? Hin Hup; simpl in Hup;
    first
      [ done
      | repeat (apply elem_of_cons in Hin as [Hin|Hin]; [try discriminate Hin|]);
        first [by apply elem_of_nil in Hin | injection Hin as -> _; by eexists] ]
  | intros ? He';
    first [discriminate He' | injection He' as <-; repeat first [by left | right]] ].

(** X7.  Every run of [process_document] sends at most one batch to the
    store, and only after the duplicate check, the extraction, the splitting
    and the embedding went through: when a batch was sent, the only call of
    the run that can have raised is the upsert itself.  The run always ends
    with the closing log line, and an exception that leaves the function was
    logged first. *)
Theorem writes_come_last (w : World vector)
    user_id user_name collection_name original_filename timestamp bytes file_id :
  let run := process_document E user_id user_name collection_name
               original_filename timestamp bytes file_id w in
  (length (upserts run.2) ≤ 1)%nat
  ∧ last run.2 = Some (Log LogIngestionEnd)
  ∧ (∀ r e, Raised r e ∈ run.2 → upserts run.2 ≠ [] → ∃ batch, r = Upsert batch)
  ∧ (∀ e, run.1.1 = Raise e → Log (LogProcessingFailed original_filename e) ∈ run.2).
Proof.
  cbv zeta. destruct w as [n s].
  unfold process_document, _extract_text_from_file. unfold_M. simpl.
  destruct (faults E n) as [e0|]; simpl; [trace_leaf|].
  destruct s as [c|]; simpl; [|trace_leaf].
  destruct (scroll_page (duplicate_filter file_id user_id) 1 c) as [|q l]; simpl;
    [|trace_leaf].
  destruct (faults E (S n)) as [e1|]; simpl; [trace_leaf|].
  set (text := join_pages (page_texts (pdf_pages E bytes))).
  destruct ((text =? "") || (Py.strip text =? ""))%bool; simpl; [trace_leaf|].
  destruct (faults E (S (S n))) as [e2|]; simpl; [trace_leaf|].
  case_bool_decide as Hchunks; simpl; [trace_leaf|].
  destruct (faults E (S (S (S n)))) as [e3|]; simpl; [trace_leaf|].
  destruct (points_from_run E user_id user_name collection_name original_filename
              timestamp file_id (embed_documents E (split_text E text))
              (split_text E text) 0
              {| clock := S (S (S (S n))); store := Some c |})
    as (r & m & Hrun & Hr).
  rewrite Hrun. simpl. destruct r as [pts|e]; simpl; [|trace_leaf].
  destruct pts as [|p pts]; simpl; [trace_leaf|].
  destruct (faults E m) as [e4|]; simpl; trace_leaf.
Qed.

Lemma points_from_short user_id user_name collection_name original_filename
    timestamp file_id embeddings chunks :
  ∀ i (w : World vector),
    chunks ≠ [] →
    (length embeddings < i + length chunks)%nat →
    ∃ n, points_from E user_id user_name collection_name original_filename timestamp
           file_id embeddings i chunks w
         = (Raise IndexError, {| clock := n; store := store w |}, []).
Proof.
  induction chunks as [|ch chunks IH]; intros i w Hne Hlen; [done|].
  simpl. unfold_M. simpl.
  destruct (embeddings !! i) as [v|] eqn:Hv; simpl; [|by eexists].
  apply lookup_lt_Some in Hv.
  destruct chunks as [|ch' chunks]; [simpl in Hlen; lia|].
  destruct (IH (S i) {| clock := S (clock w); store := store w |}) as [n Hn];
    [done|simpl in *; lia|].
  rewrite Hn. simpl. by eexists.
Qed.

(** X8.  When the embedder returns fewer vectors than there are chunks, the
    ingestion raises [IndexError] and sends nothing to the store. *)
Theorem short_embeddings_raise (w : World vector) (c : Collection vector)
    user_id user_name collection_name original_filename timestamp bytes file_id :
  store w = Some c →
  ¬ has_stored_point (store w) file_id user_id →
  (∀ k, (k < 4)%nat → faults E (clock w + k) = None) →
  Py.strip (extracted_text E bytes) ≠ "" →
  chunks_of E bytes ≠ [] →
  (length (embed_documents E (chunks_of E bytes)) < length (chunks_of E bytes))%nat →
  let run := process_document E user_id user_name collection_name
               original_filename timestamp bytes file_id w in
  run.1.1 = Raise IndexError
  ∧ upserts run.2 = []
  ∧ store run.1.2 = store w.
Proof.
  intros Hc Hnd Hf Htext Hchunks Hshort. destruct w as [n s]. simpl in *. subst s.
  pose proof (Hf 0%nat ltac:(lia)) as H0. pose proof (Hf 1%nat ltac:(lia)) as H1.
  pose proof (Hf 2%nat ltac:(lia)) as H2. pose proof (Hf 3%nat ltac:(lia)) as H3.
  replace (n + 0)%nat with n in H0 by lia.
  replace (n + 1)%nat with (S n) in H1 by lia.
  replace (n + 2)%nat with (S (S n)) in H2 by lia.
  replace (n + 3)%nat with (S (S (S n))) in H3 by lia.
  assert (matching (duplicate_filter file_id user_id) c = []) as Hm.
  { destruct (matching _ c) eqn:Hm; [done|]. exfalso. apply Hnd.
    apply has_stored_point_matching. simpl. by rewrite Hm. }
  unfold chunks_of, extracted_text in *.
  set (text := join_pages (page_texts (pdf_pages E bytes))) in *.
  assert (((text =? "") || (Py.strip text =? ""))%bool = false) as Hblank.
  { apply orb_false_iff. split; apply String.eqb_neq; [|done].
    intros Heq. apply Htext. by rewrite Heq. }
  unfold process_document, _extract_text_from_file. unfold_M. simpl.
  rewrite H0. simpl. rewrite (scroll_page_nil _ 1 c Hm). simpl. rewrite H1. simpl.
  fold text. rewrite Hblank. simpl. rewrite H2. simpl.
  rewrite bool_decide_eq_false_2 by done. simpl. rewrite H3. simpl.
  destruct (points_from_short user_id user_name collection_name original_filename
              timestamp file_id (embed_documents E (split_text E text))
              (split_text E text) 0
              {| clock := S (S (S (S n))); store := Some c |} Hchunks)
    as [m Hm']; [simpl; lia|].
  rewrite Hm'. simpl. done.
Qed.





End IngestionMore.

(** ** Deletion *)

Section Deletion.

Context {vector : Type} (E : Env vector) (applied : nat → bool).

Lemma delete_filter_holds (p : Payload) file_ids :
  filter_holds (delete_filter file_ids) p = true ↔
  ∃ file_id, file_id ∈ file_ids ∧ p !! "file_id" = Some (PStr file_id).
Proof.
  unfold filter_holds, delete_filter, condition_holds; simpl.
  rewrite andb_true_r.
  destruct (p !! "file_id") as [[| |fid]|]; simpl;
    try (split; [done|intros (? & ? & ?); congruence]).
  rewrite existsb_exists. split.
  - intros (x & Hx & ->%String.eqb_eq). exists x. split; [by apply list_elem_of_In|done].
  - intros (x & Hx & [= ->]). exists x. split; [by apply list_elem_of_In|].
    apply String.eqb_refl.
Qed.

(** The stored points after [store_delete]. *)
Lemma store_delete_points (f : Filter) (s : Store vector) :
  stored_points (store_delete f s).2
  = filter (λ p, filter_holds f (payload p) = false) (stored_points s).
Proof. by destruct s. Qed.

(** What a run of [delete_by_file_ids] does to the store. *)
Lemma delete_run_store (qdrant : bool) (file_ids : list string) (w : World vector) :
  let run := delete_by_file_ids E applied qdrant file_ids w in
  (store run.1.2 = store w
   ∧ (run.1.1 = Ok PNone → qdrant = false ∨ file_ids = []))
  ∨ (∃ c, store w = Some c
          ∧ (faults E (clock w) = None → run.1.1 = Ok PNone)
          ∧ qdrant = true ∧ file_ids ≠ []
          ∧ store run.1.2 = (store_delete (delete_filter file_ids) (store w)).2).
Proof.
  cbv zeta. unfold delete_by_file_ids.
  destruct qdrant; simpl; [|left; split; [done|by left]].
  destruct file_ids as [|fid fids]; [left; split; [done|by right]|].
  destruct (faults E (clock w)) as [e|]; simpl.
  - destruct (applied (clock w)); [|by left].
    destruct (store w) as [c|] eqn:Hs; simpl; [|by left].
    right. by exists c.
  - destruct (store w) as [c|] eqn:Hs; simpl; [|by left].
    right. by exists c.
Qed.

(** X10.  A deletion that goes through removes every stored point whose
    [file_id] is one of the given ids, of whichever user, and keeps the other
    points in their order. *)
Theorem deletion_removes_files (file_ids : list string) (w : World vector) :
  let run := delete_by_file_ids E applied true file_ids w in
  run.1.1 = Ok PNone →
  file_ids ≠ [] →
  (∀ p, p ∈ stored_points (store run.1.2) ↔
        p ∈ stored_points (store w)
        ∧ ¬ ∃ file_id, file_id ∈ file_ids ∧ payload p !! "file_id" = Some (PStr file_id))
  ∧ stored_points (store run.1.2) `sublist_of` stored_points (store w)
  ∧ (∀ file_id user_id, file_id ∈ file_ids →
                        ¬ has_stored_point (store run.1.2) file_id user_id).
Proof.
  cbv zeta. intros Hok Hids.
  destruct (delete_run_store true file_ids w) as [[_ Hno]|(c & Hc & _ & _ & _ & Hs)].
  { destruct (Hno Hok); done. }
  rewrite Hs, store_delete_points.
  assert (∀ p, p ∈ filter (λ p, filter_holds (delete_filter file_ids) (payload p) = false)
                     (stored_points (store w)) ↔
               p ∈ stored_points (store w)
               ∧ ¬ ∃ file_id, file_id ∈ file_ids
                              ∧ payload p !! "file_id" = Some (PStr file_id)) as Hin.
  { intros p. rewrite list_elem_of_filter, <- delete_filter_holds.
    destruct (filter_holds _ (payload p)); intuition congruence. }
  split; [done|]. split; [apply sublist_filter|].
  intros file_id user_id Hfid (c' & p & Hc' & Hp & Hf & _).
  assert (p ∈ stored_points (store_delete (delete_filter file_ids) (store w)).2) as Hp'.
  { rewrite Hc'. done. }
  rewrite store_delete_points in Hp'. apply Hin in Hp' as [_ Hnot].
  apply Hnot. by exists file_id.
Qed.

(** X11.  A deletion never touches the points of other files nor the
    configuration of the collection, and adds no point; without a client or
    without ids it does not call the store; and when the call raises, the
    exception is logged and raised again, the store being either as before
    or without the points of the given files: nothing tells the caller
    which. *)
Theorem deletion_spares_other_files (qdrant : bool) (file_ids : list string)
    (w : World vector) :
  let run := delete_by_file_ids E applied qdrant file_ids w in
  (∀ p, p ∈ stored_points (store w) →
        (∀ file_id, file_id ∈ file_ids → payload p !! "file_id" ≠ Some (PStr file_id)) →
        p ∈ stored_points (store run.1.2))
  ∧ stored_points (store run.1.2) `sublist_of` stored_points (store w)
  ∧ vector_size <$> store run.1.2 = vector_size <$> store w
  ∧ indexes <$> store run.1.2 = indexes <$> store w
  ∧ (qdrant = false ∨ file_ids = [] →
       run.1.1 = Ok PNone ∧ run.1.2 = w ∧ Forall (λ ev, ∀ f, ev ≠ DeleteCall f) run.2)
  ∧ (∀ e, run.1.1 = Raise e →
          DeleterLog (LogDeleteFailed file_ids e) ∈ run.2
          ∧ last run.2 = Some (DeleterLog (LogDeleteFailed file_ids e))
          ∧ (store run.1.2 = store w
             ∨ store run.1.2 = (store_delete (delete_filter file_ids) (store w)).2)).
Proof.
  cbv zeta. split; [|split; [|split; [|split; [|split]]]].
  - intros p Hp Hother.
    destruct (delete_run_store qdrant file_ids w) as [[-> _]|(c & _ & _ & _ & _ & ->)];
      [done|].
    rewrite store_delete_points. apply list_elem_of_filter. split; [|done].
    destruct (filter_holds _ (payload p)) eqn:Hf; [|done].
    apply delete_filter_holds in Hf as (fid & Hfid & Hf). by destruct (Hother fid Hfid).
  - destruct (delete_run_store qdrant file_ids w) as [[-> _]|(c & _ & _ & _ & _ & ->)];
      [done|].
    rewrite store_delete_points. apply sublist_filter.
  - destruct (delete_run_store qdrant file_ids w) as [[-> _]|(c & -> & _ & _ & _ & ->)];
      done.
  - destruct (delete_run_store qdrant file_ids w) as [[-> _]|(c & -> & _ & _ & _ & ->)];
      done.
  - unfold delete_by_file_ids. intros [->| ->]; simpl.
    + split; [done|]. split; [done|]. by repeat constructor.
    + destruct qdrant; simpl; (split; [done|]); (split; [done|]); by repeat constructor.
  - unfold delete_by_file_ids. intros e.
    destruct qdrant; simpl; [|done]. destruct file_ids as [|fid fids]; [done|].
    destruct (faults E (clock w)) as [e'|]; simpl.
    + intros [= <-]. split; [repeat first [by left | right]|]. split; [done|].
      destruct (applied (clock w)); [by right|by left].
    + destruct (store w); simpl; [done|]. intros [= <-].
      split; [repeat first [by left | right]|]. split; [done|]. by left.
Qed.

Lemma filter_keep_all {A} (P : A → Prop) `{!∀ x, Decision (P x)} (l : list A) :
  (∀ x, x ∈ l → P x) → filter P l = l.
Proof.
  induction l as [|x l IH]; intros Hall; [done|].
  rewrite filter_cons_True by (apply Hall; by left).
  f_equal. apply IH. intros y Hy. apply Hall. by right.
Qed.

Lemma filter_drop_all {A} (P : A → Prop) `{!∀ x, Decision (P x)} (l : list A) :
  (∀ x, x ∈ l → ¬ P x) → filter P l = [].
Proof.
  induction l as [|x l IH]; intros Hall; [done|].
  rewrite filter_cons_False by (apply Hall; by left).
  apply IH. intros y Hy. apply Hall. by right.
Qed.

(** X12.  Deleting a file that was just ingested undoes the ingestion: when
    the store held no point of that file, the ids of the batch were fresh
    and both calls went through, the store is the one before the
    ingestion. *)
Theorem ingest_then_delete_restores (w : World vector) (batch : list (Point vector))
    user_id user_name collection_name original_filename timestamp bytes file_id :
  let first := process_document E user_id user_name collection_name
                 original_filename timestamp bytes file_id w in
  first.1.1 = Ok PNone →
  upserts first.2 = [batch] →
  fresh_ids batch (store w) →
  (∀ p, p ∈ stored_points (store w) → payload p !! "file_id" ≠ Some (PStr file_id)) →
  let second := delete_by_file_ids E applied true [file_id] first.1.2 in
  second.1.1 = Ok PNone →
  store second.1.2 = store w.
Proof.
  cbv zeta.
  destruct (process_document E user_id user_name collection_name original_filename
              timestamp bytes file_id w) as [[res w1] t1] eqn:Hrun.
  simpl. intros -> Hup [Hnodup Hfresh] Hnone Hok.
  apply process_document_cases in Hrun as [(Hnil & _)|Hrun].
  { rewrite Hnil in Hup. discriminate Hup. }
  destruct Hrun as (batch' & c & Hc & _ & _ & Hup' & Hp & _ & Hres).
  rewrite Hup in Hup'. injection Hup' as <-.
  destruct Hres as [(_ & Hw1 & _)|[[e [=]] _]].
  rewrite Hc in Hw1, Hnone. simpl in Hw1, Hnone.
  rewrite upsert_batch_fresh in Hw1;
    [|done|intros p q Hp' Hq; by apply (Hfresh c p q)].
  destruct (delete_run_store true [file_id] w1) as [[_ Hno]|(c1 & _ & _ & _ & _ & ->)].
  { destruct (Hno Hok); done. }
  rewrite Hw1, Hc. simpl. rewrite filter_app.
  pose proof (batch_matches _ _ _ _ _ _ _ _ Hp) as Hall.
  rewrite (filter_drop_all _ batch), (filter_keep_all _ (points c)).
  - rewrite app_nil_r. by destruct c.
  - intros p Hp'. destruct (filter_holds _ (payload p)) eqn:Hf; [|done].
    apply delete_filter_holds in Hf as (fid & ->%list_elem_of_singleton & Hf).
    by destruct (Hnone p Hp').
  - intros p Hp' Hf.
    assert (filter_holds (delete_filter [file_id]) (payload p) = true) as Ht.
    { apply delete_filter_holds. exists file_id. split; [by left|by apply Hall]. }
    congruence.
Qed.

(** X13.  After a deletion that went through, none of the deleted files
    counts as ingested any more: an ingestion of one of them that returns
    was not skipped as a duplicate. *)
Theorem deleted_file_can_be_ingested_again (file_ids : list string) (w : World vector)
    user_id user_name collection_name original_filename timestamp bytes file_id :
  let deletion := delete_by_file_ids E applied true file_ids w in
  deletion.1.1 = Ok PNone →
  file_id ∈ file_ids →
  let run := process_document E user_id user_name collection_name
               original_filename timestamp bytes file_id deletion.1.2 in
  ∀ v, run.1.1 = Ok v →
       outcome_of run.2 = Some SkippedEmpty
       ∨ outcome_of run.2 = Some (Ingested (length (chunks_of E bytes))).
Proof.
  cbv zeta. intros Hok Hfid v Hv.
  assert (¬ has_stored_point (store (delete_by_file_ids E applied true file_ids w).1.2)
            file_id user_id) as Hnd.
  { intros (c' & p & Hc' & Hp & Hf & _).
    destruct (delete_run_store true file_ids w) as [[_ Hno]|(c & _ & _ & _ & _ & Hs)].
    { destruct (Hno Hok) as [?| ->]; [done|]. by apply elem_of_nil in Hfid. }
    assert (p ∈ stored_points (store_delete (delete_filter file_ids) (store w)).2) as Hp'.
    { rewrite <- Hs, Hc'. done. }
    rewrite store_delete_points in Hp'. apply list_elem_of_filter in Hp' as [Hfalse _].
    assert (filter_holds (delete_filter file_ids) (payload p) = true) as Ht.
    { apply delete_filter_holds. by exists file_id. }
    congruence. }
  destruct (process_document E user_id user_name collection_name original_filename
              timestamp bytes file_id (delete_by_file_ids E applied true file_ids w).1.2)
    as [[res w'] t] eqn:Hrun.
  simpl in *. subst res.
  apply process_document_cases in Hrun as [(_ & _ & Hcase)|Hrun].
  - destruct (Hcase v eq_refl) as [_ [[_ Hdup]|[Ho _]]]; [done|by left].
  - destruct Hrun as (batch & c & _ & _ & _ & _ & _ & _ & [(_ & _ & Ho)|[[e [=]] _]]).
    by right.
Qed.

(** X14.  Deleting the same ids a second time changes nothing. *)
Theorem deletion_is_idempotent (qdrant : bool) (file_ids : list string)
    (w : World vector) :
  let first := delete_by_file_ids E applied qdrant file_ids w in
  first.1.1 = Ok PNone →
  let second := delete_by_file_ids E applied qdrant file_ids first.1.2 in
  store second.1.2 = store first.1.2.
Proof.
  cbv zeta. intros Hok.
  destruct (delete_run_store qdrant file_ids
              (delete_by_file_ids E applied qdrant file_ids w).1.2)
    as [[-> _]|(c2 & Hc2 & _ & Hq2 & Hids2 & ->)]; [done|].
  destruct (delete_run_store qdrant file_ids w) as [[_ Hno]|(c & Hc & _ & Hq & Hids & Hs)].
  { destruct (Hno Hok); congruence. }
  rewrite Hs, Hc. simpl. do 2 f_equal.
  apply filter_keep_all. intros p Hp. by apply list_elem_of_filter in Hp as [? _].
Qed.

End Deletion.

(** ** Retrieval, again *)

Section RetrievalMore.

Context {vector : Type} (E : Env vector).

Lemma fan_out_read_only f qs :
  ∀ acc (w : World vector),
    Forall (λ ev, read_only ev = true) (fan_out E f qs acc w).2.
Proof.
  induction qs as [|q qs IH]; intros acc w; simpl; unfold_M; simpl; [done|].
  destruct (faults E (clock w)) as [e|]; simpl; [by repeat constructor|].
  destruct (faults E (S (clock w))) as [e|]; simpl; [by repeat constructor|].
  destruct (store w) as [c|]; simpl; [|by repeat constructor].
  match goal with |- context [fan_out E f qs ?a ?w'] =>
    specialize (IH a w'); destruct (fan_out E f qs a w') as [[r w2] t] end.
  simpl in *. by repeat constructor.
Qed.

Lemma expanded_queries_read_only (query : string) (w : World vector) :
  Forall (λ ev, read_only ev = true) (_get_expanded_queries E query w).2.
Proof.
  rewrite expanded_queries_run.
  destruct (db_client E) as [invoke|]; [|simpl; constructor].
  simpl. destruct (faults E (clock w)) as [e|]; [by repeat constructor|].
  destruct (expansion_of _ _ _); by repeat constructor.
Qed.

(** X15.  Retrieval only reads: whatever the query, the mode and the
    faults, a search leaves the store as it was, and the only calls it makes
    are to the chat model, the embedder and the [scroll] and [search]
    operations of the store. *)
Theorem search_is_read_only (query user_id : string) (file_ids : list string)
    (w : World vector) :
  let run := search E query user_id file_ids w in
  store run.1.2 = store w ∧ Forall (λ ev, read_only ev = true) run.2.
Proof.
  cbv zeta. destruct file_ids as [|fid fids] eqn:Hids; [done|]. rewrite <- Hids.
  assert (file_ids ≠ []) as Hne by (by subst).
  clear Hids. destruct (is_summary_request query) eqn:Hmode.
  - rewrite (search_summary_run E query user_id file_ids w Hne Hmode).
    destruct (faults E (clock w)) as [e|]; [split; [done|by repeat constructor]|].
    destruct (store w) as [c|] eqn:Hs; [|split; [done|by repeat constructor]].
    destruct (py_sorted _); split; try done; by repeat constructor.
  - destruct (search_semantic_run E query user_id file_ids w Hne Hmode)
      as (o & w1 & t1 & qs & r & w2 & t2 & Hexp & Hqs & Hfan & ->).
    pose proof (expanded_queries_read_only query w) as Ht1.
    pose proof (fan_out_read_only (query_filter user_id file_ids) qs [] w1) as Ht2.
    destruct (expanded_queries_ok E query w) as (o' & w1' & t1' & Hexp' & Hst1 & _).
    destruct (fan_out_run E (query_filter user_id file_ids) qs [] w1)
      as (r' & w2' & t2' & Hfan' & Hst2 & _).
    rewrite Hexp in Hexp', Ht1. rewrite Hfan in Hfan', Ht2.
    injection Hexp' as <- <- <-. injection Hfan' as <- <- <-. simpl in *.
    assert (store w2 = store w) as Hst by congruence.
    destruct r as [hits|e]; simpl; (split; [done|]);
      constructor; try done; rewrite Forall_app; split;
      try (by repeat constructor); by rewrite Forall_app.
Qed.

Lemma kept_hits_usable seen hits p :
  p ∈ kept_hits seen hits → usable p = true.
Proof.
  revert seen. induction hits as [|q hits IH]; intros seen; simpl.
  { by intros ?%elem_of_nil. }
  destruct (usable q) eqn:Hq; simpl; [|by apply IH].
  destruct (bool_decide (chunk_key q ∈ seen)); simpl; [by apply IH|].
  intros [->|Hin]%elem_of_cons; [done|]. by eapply IH.
Qed.

(** X16.  In semantic mode every returned entry has exactly the two keys
    [text] and [original_filename], and its text is never empty or
    missing. *)
Theorem semantic_entries_have_text (query user_id : string) (file_ids : list string)
    (w : World vector) :
  file_ids ≠ [] →
  is_summary_request query = false →
  ∃ chunks,
    (search E query user_id file_ids w).1.1 = Ok chunks
    ∧ ∀ entry, entry ∈ chunks →
        (∃ v, entry !! "text" = Some v ∧ truthy v = true)
        ∧ is_Some (entry !! "original_filename")
        ∧ ∀ k, k ≠ "text" → k ≠ "original_filename" → entry !! k = None.
Proof.
  intros Hids Hmode.
  destruct (search_semantic_facts E query user_id file_ids w Hids Hmode)
    as (o & qs & _ & _ & _ & Hres & _).
  eexists. split; [exact Hres|]. intros entry Hin.
  destruct (retrieval_failed _); [by apply elem_of_nil in Hin|].
  apply list_elem_of_fmap in Hin as (p & -> & Hp).
  apply kept_hits_usable in Hp. unfold usable in Hp.
  apply andb_true_iff in Hp as [_ Htext]. unfold chunk_entry.
  split; [|split].
  - eexists. by rewrite lookup_insert_eq.
  - rewrite lookup_insert_ne by done. by rewrite lookup_insert_eq.
  - intros k Hk1 Hk2. by rewrite !lookup_insert_ne, lookup_empty by done.
Qed.

(** X17.  On a store written by the ingestion a summary never fails for
    want of comparable indexes: when the scroll goes through, the call
    returns the payloads of the whole page, each once, in non-decreasing
    [chunk_index] order, and logs no failure. *)
Theorem summary_of_pipeline_store_complete (query user_id : string)
    (file_ids : list string) (w : World vector) (c : Collection vector) :
  file_ids ≠ [] →
  is_summary_request query = true →
  faults E (clock w) = None →
  store w = Some c →
  pipeline_store (store w) →
  let run := search E query user_id file_ids w in
  let page := scroll_page (query_filter user_id file_ids) SUMMARY_CHUNK_LIMIT c in
  ∃ payloads,
    run.1.1 = Ok payloads
    ∧ payloads ≡ₚ payload <$> page
    ∧ StronglySorted chunk_index_le payloads
    ∧ ∀ e, Log (LogQdrantFailed user_id e) ∉ run.2.
Proof.
  intros Hids Hmode Hfault Hc Hwf. cbv zeta.
  rewrite (search_summary_run E query user_id file_ids w Hids Hmode). cbv zeta.
  rewrite Hfault, Hc.
  destruct (py_sorted_comparable
              (payload <$> scroll_page (query_filter user_id file_ids)
                             SUMMARY_CHUNK_LIMIT c))
    as (r & -> & Hperm & Hsorted).
  { left. rewrite Forall_fmap, Forall_forall. intros p Hp. simpl.
    apply elem_of_scroll_page, list_elem_of_filter in Hp as [_ Hp].
    destruct (Hwf c p Hc Hp) as (_ & _ & j & Hj).
    unfold sort_key, dict_get_default. by rewrite Hj. }
  exists r. simpl. do 3 (split; [done|]).
  intros e [[=]|[[=]|[]%elem_of_nil]%elem_of_cons]%elem_of_cons.
Qed.

(** X18.  A page on which one payload has an integer [chunk_index] (or
    none) and another has a string or [None] for it cannot be sorted: the
    summary is empty and the failure is in the log as a [TypeError]. *)
Theorem summary_with_mixed_indexes_is_empty (query user_id : string)
    (file_ids : list string) (w : World vector) (c : Collection vector)
    (p q : Point vector) :
  file_ids ≠ [] →
  is_summary_request query = true →
  faults E (clock w) = None →
  store w = Some c →
  let page := scroll_page (query_filter user_id file_ids) SUMMARY_CHUNK_LIMIT c in
  p ∈ page →
  q ∈ page →
  (payload p !! "chunk_index" = None
   ∨ ∃ i, payload p !! "chunk_index" = Some (PInt i)) →
  (payload q !! "chunk_index" = Some PNone
   ∨ ∃ t, payload q !! "chunk_index" = Some (PStr t)) →
  let run := search E query user_id file_ids w in
  run.1.1 = Ok [] ∧ Log (LogQdrantFailed user_id TypeError) ∈ run.2.
Proof.
  intros Hids Hmode Hfault Hc. cbv zeta. intros Hp Hq Hpi Hqi.
  assert (is_int (sort_key (payload p)) = true) as Hpk.
  { unfold sort_key, dict_get_default. by destruct Hpi as [->|[i ->]]. }
  assert (is_int (sort_key (payload q)) = false) as Hqk.
  { unfold sort_key, dict_get_default. by destruct Hqi as [->|[t ->]]. }
  rewrite (search_summary_run E query user_id file_ids w Hids Hmode). cbv zeta.
  rewrite Hfault, Hc, py_sorted_sort_by.
  set (page := scroll_page (query_filter user_id file_ids) SUMMARY_CHUNK_LIMIT c) in *.
  destruct (sort_by sort_key (payload <$> page)) as [r|e] eqn:Hsort.
  - exfalso.
    assert (2 ≤ length (payload <$> page))%nat as Hlen.
    { rewrite length_fmap. destruct page as [|a [|b l]]; simpl; [| |lia].
      - by apply elem_of_nil in Hp.
      - apply list_elem_of_singleton in Hp, Hq. subst. congruence. }
    assert (payload p ∈ payload <$> page) as Hp' by (by apply list_elem_of_fmap_2).
    assert (payload q ∈ payload <$> page) as Hq' by (by apply list_elem_of_fmap_2).
    destruct (sort_by_ok_kinds sort_key _ _ Hsort Hlen) as [Hall|Hall];
      rewrite Forall_forall in Hall.
    + specialize (Hall _ Hq'). simpl in Hall. congruence.
    + specialize (Hall _ Hp'). simpl in Hall.
      by destruct (sort_key (payload p)).
  - apply sort_by_raises in Hsort as ->. simpl. split; [done|].
    by do 2 right; left.
Qed.

End RetrievalMore.

(** ** Strings *)

Lemma app_cons (c : ascii) (s t : string) : String c s +:+ t = String c (s +:+ t).
Proof. reflexivity. Qed.

Lemma app_empty_l (t : string) : "" +:+ t = t.
Proof. reflexivity. Qed.

Lemma app_empty_r (s : string) : s +:+ "" = s.
Proof. induction s as [|c s IH]; [done|]. by rewrite app_cons, IH. Qed.

(** [lower], one character at a time. *)
Lemma lower_plain (c : ascii) (s : string) :
  Py.is_byte c 196 = false → Py.is_byte c 226 = false →
  Py.lower (String c s) = String (Py.lower_ascii c) (Py.lower s).
Proof.
  intros H1 H2. destruct s as [|c1 [|c2 s3]]; cbn [Py.lower]; [done|..];
    rewrite H1; cbn [andb]; [done|]. by rewrite H2.
Qed.

Lemma lower_dotted (c c1 : ascii) (s : string) :
  Py.is_byte c 196 = true → Py.is_byte c1 176 = true →
  Py.lower (String c (String c1 s))
  = String "i" (String (ascii_of_nat 204) (String (ascii_of_nat 135) (Py.lower s))).
Proof. intros H1 H2. cbn [Py.lower]. by rewrite H1, H2. Qed.

Lemma lower_two (c c1 : ascii) (s : string) :
  Py.is_byte c 226 = false → Py.is_byte c1 176 = false →
  Py.lower (String c (String c1 s))
  = String (Py.lower_ascii c) (Py.lower (String c1 s)).
Proof.
  intros H1 H2. destruct s as [|c2 s3]; cbn [Py.lower];
    rewrite H2, andb_false_r; [done|]. by rewrite H1.
Qed.

Lemma lower_kelvin (c c1 c2 : ascii) (s : string) :
  Py.is_byte c 226 = true → Py.is_byte c1 132 = true → Py.is_byte c2 170 = true →
  Py.lower (String c (String c1 (String c2 s))) = String "k" (Py.lower s).
Proof.
  intros H1 H2 H3. cbn [Py.lower]. rewrite H1, H2, H3.
  assert (Py.is_byte c 196 = false) as ->; [|done].
  unfold Py.is_byte in *. apply Nat.eqb_eq in H1. apply Nat.eqb_neq. lia.
Qed.

Lemma lower_three (c c1 c2 : ascii) (s : string) :
  Py.is_byte c 196 = false →
  Py.is_byte c1 132 && Py.is_byte c2 170 = false →
  Py.lower (String c (String c1 (String c2 s)))
  = String (Py.lower_ascii c) (Py.lower (String c1 (String c2 s))).
Proof.
  intros H1 H2. cbn [Py.lower]. rewrite H1. cbn [andb].
  by rewrite <- andb_assoc, H2, andb_false_r.
Qed.

(** On well-formed text [lower] goes character by character. *)
Lemma lower_app_go (b : string) :
  ∀ n a pending,
    (String.length a ≤ n)%nat → Py.utf8_go pending a = true →
    Py.lower (a +:+ b) = Py.lower a +:+ Py.lower b.
Proof.
  induction n as [|n IH]; intros a pending Hlen Hu.
  { destruct a; [done|]. simpl in Hlen. lia. }
  destruct a as [|c a1]; [done|]. simpl in Hlen.
  assert (∀ s, s = a1 → (String.length s ≤ n)%nat) as Hn1 by (intros ? ->; lia).
  cbn [Py.utf8_go] in Hu. cbv zeta in Hu.
  assert (∀ k, (nat_of_ascii c <? k)%nat = true → (k ≤ 196)%nat →
               Py.is_byte c 196 = false) as Hlow196.
  { intros k Hk ?. apply Nat.ltb_lt in Hk. apply Nat.eqb_neq. lia. }
  assert (∀ k, (nat_of_ascii c <? k)%nat = true → (k ≤ 226)%nat →
               Py.is_byte c 226 = false) as Hlow226.
  { intros k Hk ?. apply Nat.ltb_lt in Hk. apply Nat.eqb_neq. lia. }
  assert (∀ k, (k <=? nat_of_ascii c)%nat = true → (196 < k)%nat →
               Py.is_byte c 196 = false) as Hhigh196.
  { intros k Hk ?. apply Nat.leb_le in Hk. apply Nat.eqb_neq. lia. }
  assert (∀ k, (k <=? nat_of_ascii c)%nat = true → (226 < k)%nat →
               Py.is_byte c 226 = false) as Hhigh226.
  { intros k Hk ?. apply Nat.leb_le in Hk. apply Nat.eqb_neq. lia. }
  destruct pending as [|pending].
  - destruct (nat_of_ascii c <? 128)%nat eqn:H1.
    { rewrite app_cons, !lower_plain, app_cons by eauto with lia.
      f_equal. eapply IH; [|exact Hu]. lia. }
    destruct ((192 <=? nat_of_ascii c)%nat && (nat_of_ascii c <? 224)%nat) eqn:H2.
    { apply andb_true_iff in H2 as [H2 H2'].
      destruct (Py.is_byte c 196) eqn:Hc.
      2:{ rewrite app_cons, !lower_plain, app_cons by eauto with lia.
          f_equal. eapply IH; [|exact Hu]. lia. }
      destruct a1 as [|c1 a2]; [done|]. simpl in Hlen.
      destruct (Py.is_byte c1 176) eqn:Hc1.
      - cbn [Py.utf8_go] in Hu. cbv zeta in Hu.
        destruct ((128 <=? nat_of_ascii c1)%nat && _); [|done].
        rewrite !app_cons, !lower_dotted, !app_cons by done.
        do 3 f_equal. eapply IH; [|exact Hu]. lia.
      - rewrite !app_cons, !lower_two by eauto with lia.
        rewrite app_cons. f_equal. rewrite <- app_cons.
        eapply IH; [|exact Hu]. simpl. lia. }
    destruct ((224 <=? nat_of_ascii c)%nat && (nat_of_ascii c <? 240)%nat) eqn:H3.
    { apply andb_true_iff in H3 as [H3 H3'].
      assert (Py.is_byte c 196 = false) as Hc by eauto with lia.
      destruct (Py.is_byte c 226) eqn:Hk.
      2:{ rewrite app_cons, !lower_plain, app_cons by done.
          f_equal. eapply IH; [|exact Hu]. lia. }
      destruct a1 as [|c1 [|c2 a3]]; [done| |].
      { cbn [Py.utf8_go] in Hu. cbv zeta in Hu.
        by destruct ((128 <=? nat_of_ascii c1)%nat && _). }
      simpl in Hlen.
      destruct (Py.is_byte c1 132 && Py.is_byte c2 170) eqn:Hk1.
      - apply andb_true_iff in Hk1 as [Hk1 Hk2].
        cbn [Py.utf8_go] in Hu. cbv zeta in Hu.
        destruct ((128 <=? nat_of_ascii c1)%nat && _); [|done].
        destruct ((128 <=? nat_of_ascii c2)%nat && _); [|done].
        rewrite !app_cons, !lower_kelvin, !app_cons by done.
        f_equal. eapply IH; [|exact Hu]. lia.
      - rewrite !app_cons, !lower_three by done.
        rewrite app_cons. f_equal. rewrite <- !app_cons.
        eapply IH; [|exact Hu]. simpl. lia. }
    destruct ((240 <=? nat_of_ascii c)%nat && (nat_of_ascii c <? 248)%nat) eqn:H4;
      [|done].
    apply andb_true_iff in H4 as [H4 H4'].
    rewrite app_cons, !lower_plain, app_cons by eauto with lia.
    f_equal. eapply IH; [|exact Hu]. lia.
  - destruct ((128 <=? nat_of_ascii c)%nat && (nat_of_ascii c <? 192)%nat) eqn:H1;
      [|done].
    apply andb_true_iff in H1 as [H1 H1'].
    rewrite app_cons, !lower_plain, app_cons by eauto with lia.
    f_equal. eapply IH; [|exact Hu]. lia.
Qed.

Lemma lower_app (a b : string) :
  Py.utf8 a = true → Py.lower (a +:+ b) = Py.lower a +:+ Py.lower b.
Proof. intros Hu. by eapply lower_app_go. Qed.

Lemma prefix_app (s t : string) : String.prefix s (s +:+ t) = true.
Proof.
  induction s as [|c s IH]; [by destruct t|].
  rewrite app_cons. cbn [String.prefix]. by destruct (ascii_dec c c).
Qed.

Lemma contains_app (sub a b : string) : Py.contains sub (a +:+ sub +:+ b) = true.
Proof.
  induction a as [|c a IH].
  - rewrite app_empty_l. destruct (sub +:+ b) eqn:Heq; cbn [Py.contains];
      rewrite <- Heq, prefix_app; done.
  - rewrite app_cons. cbn [Py.contains]. rewrite IH. apply orb_true_r.
Qed.

Lemma rev_app_twice (a b c : string) :
  String.rev_app (String.rev_app a b) c = String.rev_app b (a +:+ c).
Proof.
  revert b c. induction a as [|x a IH]; intros b c; [done|].
  cbn [String.rev_app]. rewrite IH. by rewrite app_cons.
Qed.

Lemma rev_rev (s : string) : String.rev (String.rev s) = s.
Proof. unfold String.rev. rewrite rev_app_twice. cbn. apply app_empty_r. Qed.

Lemma chars_length (s : string) : length (Py.chars s) = String.length s.
Proof. induction s as [|c s IH]; simpl; [done|]. by rewrite IH. Qed.

Section Split.

Variables (c : ascii) (sep' : string).

Let sep := String c sep'.

(** A piece that does not have the first character of the separator is
    taken over as it is. *)
Lemma split_go_free (pre rest cur : string) :
  free_of c pre = true →
  Py.split_go sep 0 cur (pre +:+ rest)
  = Py.split_go sep 0 (String.rev_app pre cur) rest.
Proof.
  revert cur. induction pre as [|a pre IH]; intros cur; [done|].
  cbn [free_of]. intros [Ha Hpre]%andb_true_iff.
  rewrite app_cons. cbn [Py.split_go String.rev_app]. rewrite <- IH by done.
  subst sep. cbn [String.prefix].
  destruct (ascii_dec c a) as [->|]; [|done].
  by rewrite Ascii.eqb_refl in Ha.
Qed.

(** The first piece begins with what was read so far. *)
Lemma split_go_head (s cur : string) :
  ∃ y tl, Py.split_go sep 0 cur s = String.rev_app cur y :: tl.
Proof.
  revert cur. induction s as [|a s IH]; intros cur.
  - by exists "", [].
  - cbn [Py.split_go]. destruct (String.prefix sep (String a s)).
    + by eexists "", _.
    + destruct (IH (String a cur)) as (y & tl & ->). by exists (String a y), tl.
Qed.

Lemma split_go_nonempty (s cur : string) (skip : nat) :
  ∃ x tl, Py.split_go sep skip cur s = x :: tl.
Proof.
  revert cur skip. induction s as [|a s IH]; intros cur skip.
  - by eexists _, _.
  - cbn [Py.split_go]. destruct skip as [|k]; [|apply IH].
    destruct (String.prefix sep (String a s)); [by eexists _, _|apply IH].
Qed.

(** A text that contains the separator has two pieces or more. *)
Lemma split_go_two (s cur : string) :
  Py.contains sep s = true →
  ∃ x y tl, Py.split_go sep 0 cur s = x :: y :: tl.
Proof.
  revert cur. induction s as [|a s IH]; intros cur.
  - done.
  - cbn [Py.contains Py.split_go].
    destruct (String.prefix sep (String a s)); cbn [orb].
    + intros _.
      destruct (split_go_nonempty s "" (String.length sep - 1)) as (y & tl & ->).
      by eexists _, _, _.
    + apply IH.
Qed.

Lemma split_go_hit (a : ascii) (s cur : string) :
  String.prefix sep (String a s) = true →
  Py.split_go sep 0 cur (String a s)
  = String.rev cur :: Py.split_go sep (String.length sep - 1) "" s.
Proof. intros H. cbn [Py.split_go]. by rewrite H. Qed.

Lemma split_go_miss (a : ascii) (s cur : string) :
  String.prefix sep (String a s) = false →
  Py.split_go sep 0 cur (String a s) = Py.split_go sep 0 (String a cur) s.
Proof. intros H. cbn [Py.split_go]. by rewrite H. Qed.

Lemma split_go_skip (s rest cur : string) :
  Py.split_go sep (String.length s) cur (s +:+ rest) = Py.split_go sep 0 cur rest.
Proof. induction s as [|a s IH]; [done|]. by rewrite app_cons. Qed.

(** At a separator the piece read so far ends and the next one begins
    after the separator. *)
Lemma split_go_sep (rest cur : string) :
  Py.split_go sep 0 cur (sep +:+ rest) = String.rev cur :: Py.split_go sep 0 "" rest.
Proof.
  change (sep +:+ rest) with (String c (sep' +:+ rest)). rewrite split_go_hit.
  - change (String.length sep - 1)%nat with (String.length sep' - 0)%nat.
    by rewrite Nat.sub_0_r, split_go_skip.
  - change (String c (sep' +:+ rest)) with (sep +:+ rest). apply prefix_app.
Qed.

End Split.

Section ExpansionMore.

Context {vector : Type} (E : Env vector).

(** X19.  A keyword is found in any spelling of its letters and anywhere
    in the query: a query that contains a word whose lower-case form is one
    of the summarization keywords is a summary request.  The letters may
    be capitals, also the capital outside ASCII that [lower] turns into a
    letter of a keyword (the Kelvin sign for [k]). *)
Theorem keyword_in_any_case_is_summary (pre word post keyword : string) :
  keyword ∈ SUMMARIZATION_KEYWORDS →
  Py.utf8 pre = true →
  Py.utf8 word = true →
  Py.lower word = keyword →
  is_summary_request (pre +:+ word +:+ post) = true.
Proof.
  intros Hkw Hpre Hword Hlow. unfold is_summary_request. apply existsb_exists.
  exists keyword. split; [by apply list_elem_of_In|].
  by rewrite (lower_app pre), (lower_app word), Hlow, contains_app.
Qed.

(** X20.  Taking the reply out of its fence never raises: whenever the
    test [in] finds the opening fence, [split] yields the piece after
    it. *)
Theorem fence_extraction_never_raises (content : string) :
  ∃ response_text, response_json_text content = Ok response_text.
Proof.
  unfold response_json_text.
  destruct (Py.contains _ (Py.strip content)) eqn:Hin; [|by eexists].
  unfold Py.split.
  destruct (split_go_two _ _ (Py.strip content) "" Hin) as (x & y & tl & ->).
  unfold py_index. simpl.
  destruct (split_go_nonempty "`" "``" y "" 0) as (z & tl' & ->).
  by eexists.
Qed.

(** X21.  A reply with one fenced block is taken out of its fence: with
    no backquote before the opening fence or in the block, and none right
    after the closing fence, the text handed to [json.loads] is the block,
    whatever follows. *)
Theorem fenced_reply_is_unwrapped (content pre body post : string) :
  Py.strip content = pre +:+ "```json" +:+ body +:+ "```" +:+ post →
  free_of "`" pre = true →
  free_of "`" body = true →
  String.prefix "`" post = false →
  response_json_text content = Ok body.
Proof.
  intros Hstrip Hpre Hbody Hpost. unfold response_json_text.
  rewrite Hstrip, contains_app. unfold Py.split.
  rewrite (split_go_free "`" "``json" pre _ "" Hpre).
  rewrite (split_go_sep "`" "``json").
  assert (∃ piece tl,
            Py.split_go "```json" 0 "" (body +:+ "```" +:+ post) = piece :: tl
            ∧ (piece = body ∨ ∃ y, piece = body +:+ "```" +:+ y))
    as (piece & tl & -> & Hpiece).
  { rewrite (split_go_free "`" "``json" body _ "" Hbody).
    rewrite !app_cons, app_empty_l.
    assert (String.prefix "```json" (String "`" (String "`" post)) = false
            ∧ String.prefix "```json" (String "`" post) = false) as [Hno2 Hno1].
    { cbn [String.prefix]. repeat (destruct (ascii_dec _ _); [|done]).
      destruct post as [|a post']; [done|]. cbn [String.prefix] in *.
      destruct (ascii_dec "`" a); [by destruct post'|done]. }
    destruct (String.prefix "```json" (String "`" (String "`" (String "`" post))))
      eqn:Hfence.
    - rewrite split_go_hit by done. eexists _, _. split; [done|left].
      fold (String.rev body). by rewrite rev_rev.
    - rewrite split_go_miss by done. rewrite split_go_miss by done.
      rewrite split_go_miss by done.
      destruct (split_go_head "`" "``json" post
                  (String "`" (String "`" (String "`" (String.rev_app body "")))))
        as (y & tl & Hhead).
      cbv zeta in Hhead. rewrite Hhead. eexists _, _. split; [done|right].
      cbn [String.rev_app]. rewrite rev_app_twice. by exists y. }
  unfold py_index. cbn [lookup list_lookup mbind result_bind].
  destruct Hpiece as [->|[y ->]].
  - rewrite <- (app_empty_r body) at 1.
    rewrite (split_go_free "`" "``" body _ "" Hbody).
    cbn [Py.split_go lookup list_lookup].
    fold (String.rev body). by rewrite rev_rev.
  - rewrite (split_go_free "`" "``" body _ "" Hbody).
    rewrite (split_go_sep "`" "``"). cbn [lookup list_lookup].
    fold (String.rev body). by rewrite rev_rev.
Qed.

(** X22.  A reply that decodes to something else than an array: when the
    query is [in] it (a substring of a string, a key of an object) it is
    returned as it is, without a log line; otherwise the test or the
    [append] raises, and the expansion falls back to the original query
    and logs a [TypeError] or an [AttributeError]. *)
Theorem reply_that_is_no_array (query : string) (w : World vector)
    (invoke : list (string * string) → string) (text : string) (decoded : pyobj) :
  db_client E = Some invoke →
  faults E (clock w) = None →
  response_json_text (invoke (expansion_messages query)) = Ok text →
  json_loads E text = Ok decoded →
  (∀ l, decoded ≠ JList l) →
  let run := _get_expanded_queries E query w in
  (py_in query decoded = Ok true →
   run.1.1 = Ok decoded ∧ run.2 = [Call (Invoke (expansion_messages query))])
  ∧ (py_in query decoded ≠ Ok true →
     run.1.1 = Ok (JList [JStr query])
     ∧ ∃ e, (e = TypeError ∨ e = AttributeError)
            ∧ Log (LogExpandFailed e) ∈ run.2).
Proof.
  intros Hclient Hfault Htext Hdec Hlist. cbv zeta.
  rewrite expanded_queries_run, Hclient. cbv zeta. rewrite Hfault.
  unfold expansion_of. rewrite Htext. unfold mbind, result_bind. rewrite Hdec.
  unfold with_original, mbind, result_bind. split.
  - intros ->. by cbn.
  - intros Hin.
    destruct decoded as [|b|z|s|l|kv]; cbn in *;
      try (split; [done|]; exists TypeError; split; [by left|by right; left]).
    + destruct (Py.contains query s); [done|]. cbn.
      split; [done|]. exists AttributeError. split; [by right|by right; left].
    + by destruct (Hlist l).
    + destruct (existsb _ kv); [done|]. cbn.
      split; [done|]. exists AttributeError. split; [by right|by right; left].
Qed.

(** X23.  When the reply decodes to a JSON string that contains the
    query, the retrieval takes the characters of that string for the
    expanded queries: it embeds them one by one, in order, and a retrieval
    without failure issues one search per character. *)
Theorem string_reply_is_searched_by_character (query user_id : string)
    (file_ids : list string) (w : World vector)
    (invoke : list (string * string) → string) (text s : string) :
  db_client E = Some invoke →
  faults E (clock w) = None →
  response_json_text (invoke (expansion_messages query)) = Ok text →
  json_loads E text = Ok (JStr s) →
  Py.contains query s = true →
  file_ids ≠ [] →
  is_summary_request query = false →
  let run := search E query user_id file_ids w in
  (∃ k, embedded_queries run.2 = take k (JStr <$> Py.chars s))
  ∧ (retrieval_failed run.2 = false → length (searches run.2) = String.length s).
Proof.
  intros Hclient Hfault Htext Hdec Hin Hids Hmode. cbv zeta.
  destruct (search_semantic_facts E query user_id file_ids w Hids Hmode)
    as (o & qs & Hexp & Hqs & _ & _ & (k & Hk & _) & _ & Hlen).
  rewrite expanded_queries_run, Hclient in Hexp. cbv zeta in Hexp.
  rewrite Hfault in Hexp. unfold expansion_of, with_original in Hexp.
  unfold mbind, result_bind in Hexp. rewrite Htext, Hdec in Hexp.
  cbn in Hexp. rewrite Hin in Hexp. cbn in Hexp. injection Hexp as <-.
  cbn in Hqs. injection Hqs as <-. split; [by exists k|].
  intros Hok. by rewrite (Hlen Hok), length_fmap, chars_length.
Qed.

End ExpansionMore.

(** ** The order of a sorted list *)

Section SortedBy.

Context {A : Type} (key : A → pyval).

Let le_by (a b : A) : Prop := key_le (key a) (key b).

Lemma insert_by_spec x l :
  ∀ r, insert_by key x l = Ok r →
       Sorted le_by l →
       Sorted le_by r ∧ ∀ a, le_by a x → HdRel le_by a l → HdRel le_by a r.
Proof.
  induction l as [|y l IH]; intros r; simpl.
  - intros [= <-] _. split; [by repeat constructor|].
    intros a Ha _. by constructor.
  - unfold_M. destruct (py_lt (key y) (key x)) as [[|]|e] eqn:Hlt; [| |done].
    + destruct (insert_by key x l) as [r'|e]; [|done]. intros [= <-] Hs.
      apply Sorted_inv in Hs as [Hs Hhd].
      destruct (IH r' eq_refl Hs) as [Hs' Hhd']. split.
      * constructor; [done|]. apply Hhd'; [|done]. by apply py_lt_true_le.
      * intros a _ Ha. apply HdRel_inv in Ha. by constructor.
    + intros [= <-] Hs. split.
      * constructor; [done|]. constructor. by apply py_lt_false_ge.
      * intros a Ha _. by constructor.
Qed.

(** [sorted(l, key=key)] is in non-decreasing order of the keys. *)
Lemma sort_by_sorted l :
  ∀ r, sort_by key l = Ok r → StronglySorted le_by r.
Proof.
  assert (∀ r, sort_by key l = Ok r → Sorted le_by r) as H.
  { induction l as [|x l IH]; intros r; simpl.
    - intros [= <-]. constructor.
    - unfold_M. destruct (sort_by key l) as [s|e]; [|done]. intros Hins.
      by apply (insert_by_spec x s r Hins), IH. }
  intros r Hr. apply Sorted_StronglySorted; [|by apply H].
  intros a b c. unfold le_by. apply key_le_trans.
Qed.

End SortedBy.

Lemma imap_in_order {A B} (R : B → B → Prop) (l : list A) :
  ∀ g : nat → A → B,
    (∀ i j x y, (i < j)%nat → R (g i x) (g j y)) →
    StronglySorted R (imap g l).
Proof.
  induction l as [|a l IH]; intros g Hg; [constructor|].
  cbn [imap]. constructor.
  - apply IH. intros i j x y Hij. apply Hg. lia.
  - apply Forall_forall. intros b Hb.
    apply elem_of_lookup_imap in Hb as (i & y & -> & _). apply Hg. lia.
Qed.

(** ** Ingestion, then retrieval *)

Section RoundTrip.

Context {vector : Type} (E : Env vector).

Lemma same_file_filters (c : Collection vector) (user_id file_id : string) :
  matching (query_filter user_id [file_id]) c
  = matching (duplicate_filter file_id user_id) c.
Proof.
  unfold matching. apply list_filter_iff. intros p.
  rewrite query_filter_holds, duplicate_filter_holds. split.
  - by intros (? & fid & ->%list_elem_of_singleton & ?).
  - intros (? & ?). split; [done|]. exists file_id. split; [by left|done].
Qed.

(** X24.  What was ingested is what a summary gives back: after an
    ingestion that wrote its batch with fresh ids, a summary request of the
    same user for that file returns payloads of chunks of the file in the
    order of the chunks, as many as there are chunks up to
    [SUMMARY_CHUNK_LIMIT]; for a file of at most that many chunks these are
    the payloads of all its chunks, in order.  (Of a longer file the page
    holds the chunks whose points have the least ids, which need not be the
    first ones.) *)
Theorem ingested_file_is_summarized_in_order (w : World vector)
    (batch : list (Point vector)) (query : string)
    user_id user_name collection_name original_filename timestamp bytes file_id :
  let first := process_document E user_id user_name collection_name
                 original_filename timestamp bytes file_id w in
  first.1.1 = Ok PNone →
  upserts first.2 = [batch] →
  fresh_ids batch (store w) →
  is_summary_request query = true →
  faults E (clock first.1.2) = None →
  let second := search E query user_id [file_id] first.1.2 in
  let all := imap (λ j ch, chunk_payload user_id user_name collection_name
                             original_filename timestamp file_id j ch)
                  (chunks_of E bytes) in
  ∃ payloads,
    second.1.1 = Ok payloads
    ∧ length payloads = (SUMMARY_CHUNK_LIMIT `min` length (chunks_of E bytes))%nat
    ∧ StronglySorted chunk_index_le payloads
    ∧ (∀ p, p ∈ payloads → p ∈ all)
    ∧ ((length (chunks_of E bytes) ≤ SUMMARY_CHUNK_LIMIT)%nat → payloads = all).
Proof.
  cbv zeta.
  destruct (process_document E user_id user_name collection_name original_filename
              timestamp bytes file_id w) as [[res w1] t1] eqn:Hrun.
  cbn [fst snd]. intros -> Hup Hfresh Hmode Hfault.
  destruct (ingested_then_stored E _ _ _ _ _ _ _ _ _ _ _ Hrun Hup)
    as [(c1 & _ & Hc1 & _) Hpts].
  specialize (Hpts Hfresh). rewrite Hc1 in Hpts. simpl in Hpts.
  rewrite <- same_file_filters in Hpts.
  apply process_document_cases in Hrun as [(Hnil & _)|Hrun].
  { rewrite Hnil in Hup. discriminate Hup. }
  destruct Hrun as (batch' & c & _ & _ & _ & Hup' & Hp & _).
  rewrite Hup in Hup'. injection Hup' as <-.
  set (all := imap (λ j ch, chunk_payload user_id user_name collection_name
                              original_filename timestamp file_id j ch)
                   (chunks_of E bytes)) in *.
  assert (length batch = length (chunks_of E bytes)) as Hlen.
  { apply (f_equal length) in Hp. subst all.
    by rewrite length_fmap, length_imap in Hp. }
  assert (∀ pt, pt ∈ scroll_page (query_filter user_id [file_id])
                       SUMMARY_CHUNK_LIMIT c1 → payload pt ∈ all) as Hin.
  { intros pt Hpt. apply elem_of_scroll_page in Hpt. rewrite Hpts in Hpt.
    rewrite <- Hp. by apply list_elem_of_fmap_2. }
  assert (∀ p, p ∈ all → ∃ i, sort_key p = PInt (Z.of_nat i) ∧ all !! i = Some p)
    as Hkeys.
  { intros p Hpall. subst all.
    apply elem_of_lookup_imap in Hpall as (i & ch & -> & Hch). exists i.
    unfold sort_key, dict_get_default. rewrite chunk_payload_chunk_index.
    split; [done|]. by rewrite list_lookup_imap, Hch. }
  rewrite (search_summary_run E query user_id [file_id] w1) by done.
  cbv zeta. rewrite Hfault, Hc1.
  destruct (py_sorted_comparable
              (payload <$> scroll_page (query_filter user_id [file_id])
                             SUMMARY_CHUNK_LIMIT c1))
    as (r & -> & Hperm & Hsorted).
  { left. rewrite Forall_fmap, Forall_forall. intros pt Hpt. simpl.
    destruct (Hkeys _ (Hin pt Hpt)) as (i & -> & _). done. }
  exists r. simpl. split; [done|]. split.
  { by rewrite Hperm, length_fmap, scroll_page_length, Hpts, Hlen. }
  split; [done|]. split.
  { intros p Hpr. rewrite Hperm in Hpr.
    apply list_elem_of_fmap in Hpr as (pt & -> & Hpt). by apply Hin. }
  intros Hfew.
  assert (r ≡ₚ all) as Hall.
  { rewrite Hperm, scroll_page_all, Hpts by (rewrite Hpts, Hlen; done). by rewrite Hp. }
  apply (StronglySorted_unique_strong chunk_index_le); [|done| |done].
  - intros x1 x2 Hx1 Hx2 H12 H21. rewrite Hall in Hx1.
    destruct (Hkeys x1 Hx1) as (i & Hi & Hxi).
    destruct (Hkeys x2 Hx2) as (j & Hj & Hxj).
    unfold chunk_index_le in H12, H21. rewrite Hi, Hj in H12, H21. simpl in *.
    assert (i = j) as -> by lia. congruence.
  - subst all. apply imap_in_order. intros i j x y Hij.
    unfold chunk_index_le, sort_key, dict_get_default.
    rewrite !chunk_payload_chunk_index. simpl. lia.
Qed.

End RoundTrip.

(** ** The callers in main.py *)

Section Callers.

Context {vector : Type} (E : Env vector).

Lemma items_of_missing (k : string) (chunks : list Payload) (chunk : Payload) :
  chunk ∈ chunks → chunk !! k = None → items_of k chunks = Raise (KeyError k).
Proof.
  intros Hin Hk. induction chunks as [|x chunks IH]; [by apply elem_of_nil in Hin|].
  cbn [items_of]. unfold dict_item, mbind, result_bind.
  destruct (x !! k) as [v|] eqn:Hx; [|done].
  apply elem_of_cons in Hin as [->|Hin]; [congruence|]. by rewrite IH.
Qed.

Lemma items_of_texts (chunks : list Payload) :
  (∀ chunk, chunk ∈ chunks → ∃ t, chunk !! "text" = Some (PStr t)) →
  ∃ texts, items_of "text" chunks = Ok (PStr <$> texts)
           ∧ PStr <$> texts = (λ chunk, dict_get chunk "text") <$> chunks.
Proof.
  induction chunks as [|x chunks IH]; intros Hall; [by exists []|].
  destruct IH as (texts & Hitems & Htexts).
  { intros chunk Hin. apply Hall. by right. }
  destruct (Hall x) as [t Ht]; [by left|].
  exists (t :: texts). cbn [items_of]. unfold dict_item, dict_get.
  rewrite Ht, Hitems. split; [done|]. rewrite !fmap_cons, Htexts.
  unfold dict_get. by rewrite Ht.
Qed.

Lemma strings_of_strings (texts : list string) :
  strings_of (PStr <$> texts) = Ok texts.
Proof.
  induction texts as [|t texts IH]; [done|].
  rewrite fmap_cons. cbn [strings_of]. by rewrite IH.
Qed.

Lemma filenames_of_spec (chunks : list Payload) (v : pyval) :
  v ∈ filenames_of chunks ↔
  truthy v = true ∧ ∃ chunk, chunk ∈ chunks ∧ chunk !! "original_filename" = Some v.
Proof.
  unfold filenames_of. rewrite list_elem_of_omap. split.
  - intros (chunk & Hin & Hv). unfold dict_get in Hv.
    destruct (chunk !! "original_filename") as [u|] eqn:Hu; simpl in Hv.
    + destruct (truthy u) eqn:Htruthy; [|done]. injection Hv as <-. eauto.
    + done.
  - intros (Htruthy & chunk & Hin & Hv). exists chunk. split; [done|].
    unfold dict_get. rewrite Hv. simpl. by rewrite Htruthy.
Qed.

(** The list [files_used] of chunks whose file names are strings or
    nothing. *)
Lemma files_used_sorted (retrieved_chunks : list Payload) :
  (∀ chunk v, chunk ∈ retrieved_chunks →
     chunk !! "original_filename" = Some v → v = PNone ∨ is_string v = true) →
  ∃ files_used,
    sorted_vals (remove_dups (filenames_of retrieved_chunks)) = Ok files_used
    ∧ StronglySorted key_le files_used
    ∧ NoDup files_used
    ∧ ∀ v, v ∈ files_used ↔
           truthy v = true
           ∧ ∃ chunk, chunk ∈ retrieved_chunks
                      ∧ chunk !! "original_filename" = Some v.
Proof.
  intros Hall.
  destruct (sort_by_one_kind (λ v, v) is_string
              (remove_dups (filenames_of retrieved_chunks))) as [files Hfiles].
  { apply py_lt_strings. }
  { apply Forall_forall. intros v Hv. rewrite elem_of_remove_dups in Hv.
    apply filenames_of_spec in Hv as (Htruthy & chunk & Hin & Hv).
    destruct (Hall chunk v Hin Hv) as [->|?]; done. }
  pose proof (sort_by_perm _ _ _ Hfiles) as Hperm.
  exists files. split; [done|]. split; [by apply (sort_by_sorted _ _ _ Hfiles)|].
  split; [rewrite Hperm; apply NoDup_remove_dups|].
  intros v. by rewrite Hperm, elem_of_remove_dups, filenames_of_spec.
Qed.

(** The run of [assemble_context] when the texts are strings and the file
    names can be sorted. *)
Lemma assemble_context_run (retrieved_chunks : list Payload)
    (texts : list string) (files_used : list pyval) :
  items_of "text" retrieved_chunks = Ok (PStr <$> texts) →
  sorted_vals (remove_dups (filenames_of retrieved_chunks)) = Ok files_used →
  assemble_context retrieved_chunks = Ok (str_join context_separator texts, files_used).
Proof.
  intros Hitems Hfiles. unfold assemble_context.
  destruct retrieved_chunks as [|chunk rest] eqn:Hchunks.
  { destruct texts; [|done]. cbn in Hfiles. by injection Hfiles as <-. }
  rewrite <- Hchunks in *. rewrite Hitems.
  unfold py_join, mbind, result_bind. by rewrite strings_of_strings, Hfiles.
Qed.

(** X25.  The context of chunks that have a string for a text and, for a
    file name, a string or nothing: the texts in the order of the chunks,
    joined by the separator line, and for [files_used] the file names that
    are not empty, each once, in increasing order. *)
Theorem context_of_well_formed_chunks (retrieved_chunks : list Payload) :
  (∀ chunk, chunk ∈ retrieved_chunks →
     (∃ t, chunk !! "text" = Some (PStr t))
     ∧ ∀ v, chunk !! "original_filename" = Some v → v = PNone ∨ is_string v = true) →
  ∃ texts files_used,
    assemble_context retrieved_chunks
    = Ok (str_join context_separator texts, files_used)
    ∧ PStr <$> texts = (λ chunk, dict_get chunk "text") <$> retrieved_chunks
    ∧ StronglySorted key_le files_used
    ∧ NoDup files_used
    ∧ ∀ v, v ∈ files_used ↔
           truthy v = true
           ∧ ∃ chunk, chunk ∈ retrieved_chunks
                      ∧ chunk !! "original_filename" = Some v.
Proof.
  intros Hall.
  destruct (items_of_texts retrieved_chunks) as (texts & Hitems & Htexts).
  { intros chunk Hin. by apply Hall. }
  destruct (files_used_sorted retrieved_chunks)
    as (files_used & Hfiles & Hsorted & Hnodup & Hnames).
  { intros chunk v Hin. by apply Hall. }
  exists texts, files_used.
  split; [by apply assemble_context_run|]. done.
Qed.

Lemma as_strings_fmap (ids : list string) : as_strings (JStr <$> ids) = Some ids.
Proof. induction ids as [|x ids IH]; [done|]. cbn. by rewrite IH. Qed.

(** The context retrieval for a request whose fields have the expected
    types. *)
Lemma retrieve_context_typed (prompt user_id : string) (file_ids : list string)
    (w : World vector) :
  file_ids ≠ [] →
  retrieve_context E (JStr prompt) (JStr user_id) (JList (JStr <$> file_ids)) w
  = match search E prompt user_id file_ids w with
    | (Ok retrieved_chunks, w1, t) =>
        match assemble_context retrieved_chunks with
        | Ok context_and_files => Some (context_and_files, w1, Core <$> t)
        | Raise e =>
            Some ((context_failed, []), w1,
                  (Core <$> t)
                  ++ [AppLog (LogContextRetrievalFailed (JStr user_id) e)])
        end
    | (Raise e, w1, t) =>
        Some ((context_failed, []), w1,
              (Core <$> t) ++ [AppLog (LogContextRetrievalFailed (JStr user_id) e)])
    end.
Proof.
  intros Hids. unfold retrieve_context. rewrite as_strings_fmap.
  by destruct file_ids.
Qed.

(** X26.  A retrieved chunk without a [text] makes the context retrieval
    fail as a whole: the context is the failure notice, no file is
    reported as used, and the [KeyError] is in the log. *)
Theorem chunk_without_text_fails_context (prompt user_id : string)
    (file_ids : list string) (w : World vector)
    (retrieved_chunks : list Payload) (chunk : Payload) :
  file_ids ≠ [] →
  (search E prompt user_id file_ids w).1.1 = Ok retrieved_chunks →
  chunk ∈ retrieved_chunks →
  chunk !! "text" = None →
  ∃ run,
    retrieve_context E (JStr prompt) (JStr user_id) (JList (JStr <$> file_ids)) w
    = Some run
    ∧ run.1.1 = (context_failed, [])
    ∧ AppLog (LogContextRetrievalFailed (JStr user_id) (KeyError "text")) ∈ run.2.
Proof.
  intros Hids Hsearch Hin Htext. rewrite retrieve_context_typed by done.
  destruct (search E prompt user_id file_ids w) as [[res w1] t].
  simpl in Hsearch. subst res.
  assert (assemble_context retrieved_chunks = Raise (KeyError "text")) as ->.
  { unfold assemble_context. destruct retrieved_chunks as [|x rest] eqn:Hchunks.
    { by apply elem_of_nil in Hin. }
    rewrite <- Hchunks in *. by rewrite (items_of_missing _ _ chunk). }
  eexists. split; [done|]. simpl. split; [done|]. apply elem_of_app. right. by left.
Qed.

Lemma accumulated_stored (s : Store vector) (f : Filter) (qs : list pyobj)
    (p : Point vector) :
  (∀ qv pts q, q ∈ rank E qv pts → q ∈ pts) →
  p ∈ accumulated E s f qs →
  ∃ c, s = Some c ∧ p ∈ matching f c.
Proof.
  intros Hrank. unfold accumulated.
  induction qs as [|q qs IH]; cbn [fmap list_fmap concat].
  { by intros ?%elem_of_nil. }
  intros [Hp|Hp]%elem_of_app; [|by apply IH].
  unfold found in Hp. destruct s as [c|]; [|by apply elem_of_nil in Hp].
  exists c. split; [done|]. apply elem_of_take in Hp as (i & Hp & _).
  apply list_elem_of_lookup_2 in Hp. by eapply Hrank.
Qed.

(** On a store written by the ingestion and with a ranking that returns
    stored points, every chunk a search returns has the text and the file
    name of a stored point of the user in the given files. *)
Lemma search_chunks_from_store (query user_id : string) (file_ids : list string)
    (w : World vector) :
  pipeline_store (store w) →
  (∀ qv pts q, q ∈ rank E qv pts → q ∈ pts) →
  ∃ chunks,
    (search E query user_id file_ids w).1.1 = Ok chunks
    ∧ ∀ chunk, chunk ∈ chunks →
        ∃ c p, store w = Some c
               ∧ p ∈ matching (query_filter user_id file_ids) c
               ∧ chunk !! "text" = payload p !! "text"
               ∧ chunk !! "original_filename" = payload p !! "original_filename".
Proof.
  intros Hwf Hrank.
  destruct (decide (file_ids = [])) as [->|Hids].
  { exists []. split; [done|]. by intros ? ?%elem_of_nil. }
  destruct (is_summary_request query) eqn:Hmode.
  - rewrite (search_summary_run E query user_id file_ids w Hids Hmode). cbv zeta.
    destruct (faults E (clock w)) as [e|].
    { exists []. split; [done|]. by intros ? ?%elem_of_nil. }
    destruct (store w) as [c|] eqn:Hc.
    2:{ exists []. split; [done|]. by intros ? ?%elem_of_nil. }
    destruct (py_sorted _) as [payloads|e] eqn:Hsort.
    2:{ exists []. split; [done|]. by intros ? ?%elem_of_nil. }
    exists payloads. split; [done|]. intros chunk Hin.
    destruct (py_sorted_spec _ _ Hsort) as [Hperm _]. rewrite Hperm in Hin.
    apply list_elem_of_fmap in Hin as (p & -> & Hp).
    apply elem_of_scroll_page in Hp. by exists c, p.
  - destruct (search_semantic_facts E query user_id file_ids w Hids Hmode)
      as (o & qs & _ & _ & _ & Hres & _).
    eexists. split; [exact Hres|]. intros chunk Hin.
    destruct (retrieval_failed _); [by apply elem_of_nil in Hin|].
    apply list_elem_of_fmap in Hin as (pl & -> & Hpl).
    destruct (kept_hits_keys (payload <$> accumulated E (store w)
                                (query_filter user_id file_ids) qs) [])
      as [_ Hkept].
    destruct (Hkept pl Hpl) as (_ & _ & Hin).
    apply list_elem_of_fmap in Hin as (p & -> & Hp).
    destruct (accumulated_stored _ _ _ _ Hrank Hp) as (c & Hc & Hm).
    exists c, p. split; [done|]. split; [done|].
    assert (p ∈ points c) as Hpc.
    { unfold matching in Hm. by apply list_elem_of_filter in Hm as [_ ?]. }
    destruct (Hwf c p Hc Hpc) as ((t & Ht) & (name & Hname) & _).
    unfold chunk_entry, dict_get. rewrite Ht, Hname. simpl.
    rewrite lookup_insert_eq, lookup_insert_ne by done.
    by rewrite lookup_insert_eq.
Qed.

(** X27.  For a request whose prompt and user id are strings and whose
    file ids are a list of strings, on a store written by the ingestion and
    with a ranking that returns stored points, the context retrieval of
    [generate_response] does not fail: it logs no failure, whatever the
    faults of the calls, and [files_used] is in increasing order, without
    repeats, and names only files of stored points of the user among the
    files asked for.  A prompt that is no string, with file ids given, does
    make it fail: [search] raises before its [try] and before any call, and
    the handler logs the [AttributeError]. *)
Theorem context_retrieval_of_typed_request (prompt user_id : string)
    (file_ids : list string) (w : World vector) :
  pipeline_store (store w) →
  (∀ qv pts q, q ∈ rank E qv pts → q ∈ pts) →
  (∃ run,
     retrieve_context E (JStr prompt) (JStr user_id) (JList (JStr <$> file_ids)) w
     = Some run
     ∧ (∀ m, AppLog m ∉ run.2)
     ∧ StronglySorted key_le run.1.1.2
     ∧ NoDup run.1.1.2
     ∧ ∀ v, v ∈ run.1.1.2 →
            ∃ c p file_id,
              store w = Some c ∧ p ∈ points c
              ∧ payload p !! "original_filename" = Some v
              ∧ payload p !! "user_id" = Some (PStr user_id)
              ∧ file_id ∈ file_ids
              ∧ payload p !! "file_id" = Some (PStr file_id))
  ∧ (∀ other user files,
       (∀ query, other ≠ JStr query) →
       py_truthy files = true →
       retrieve_context E other user files w
       = Some ((context_failed, []), w,
               [AppLog (LogContextRetrievalFailed user AttributeError)])).
Proof.
  intros Hwf Hrank. split.
  2:{ intros other user files Hother Htruthy. unfold retrieve_context.
      rewrite Htruthy. simpl. destruct other; try done. by destruct (Hother s). }
  destruct (search_chunks_from_store prompt user_id file_ids w Hwf Hrank)
    as (chunks & Hsearch & Hchunks).
  destruct file_ids as [|fid fids] eqn:Hids.
  { eexists. split; [done|]. simpl. split; [by intros ? ?%elem_of_nil|].
    split; [constructor|]. split; [constructor|]. by intros ? ?%elem_of_nil. }
  rewrite <- Hids in *. rewrite retrieve_context_typed by (by subst).
  destruct (search E prompt user_id file_ids w) as [[res w1] t].
  simpl in Hsearch. subst res.
  assert (∀ chunk, chunk ∈ chunks →
            (∃ t', chunk !! "text" = Some (PStr t'))
            ∧ ∀ v, chunk !! "original_filename" = Some v → is_string v = true)
    as Hshape.
  { intros chunk Hin. destruct (Hchunks chunk Hin) as (c & p & Hc & Hm & Ht & Hn).
    unfold matching in Hm. apply list_elem_of_filter in Hm as [_ Hp].
    destruct (Hwf c p Hc Hp) as ((t' & Ht') & (name & Hname) & _).
    split; [exists t'; congruence|]. intros v Hv.
    rewrite Hn, Hname in Hv. by injection Hv as <-. }
  destruct (items_of_texts chunks) as (texts & Hitems & _).
  { intros chunk Hin. by apply Hshape. }
  destruct (files_used_sorted chunks) as (files & Hsort & Hs & Hnd & Hfiles).
  { intros chunk v Hin Hv. right. by apply (Hshape chunk Hin). }
  rewrite (assemble_context_run chunks texts files Hitems Hsort).
  eexists. split; [done|]. simpl. split.
  { intros m Hin. apply list_elem_of_fmap in Hin as (ev & [=] & _). }
  split; [done|]. split; [done|]. intros v Hv.
  apply Hfiles in Hv as (_ & chunk & Hin & Hv).
  destruct (Hchunks chunk Hin) as (c & p & Hc & Hm & _ & Hn).
  unfold matching in Hm. apply list_elem_of_filter in Hm as [Hf Hp].
  apply query_filter_holds in Hf as (Hu & file_id & Hfid & Hf).
  exists c, p, file_id. rewrite <- Hn. done.
Qed.




End Callers.

(** * The further properties on concrete runs *)

Lemma fresh_has_no_point file_id user_id :
  ¬ has_stored_point (store Example.fresh) file_id user_id.
Proof. intros (c & p & [= <-] & Hp & _). by apply elem_of_nil in Hp. Qed.

Lemma ingested_is_pipeline : pipeline_store (store Example.ingested).
Proof.
  intros c p [= <-] Hin. vm_compute in Hin.
  repeat (apply elem_of_cons in Hin as [->|Hin]);
    [..|by apply elem_of_nil in Hin];
    (split; [|split]); eexists; vm_compute; reflexivity.
Qed.

(** The drifted collection is repaired: the collection has the right
    dimension and both indexes afterwards. *)
Lemma ensure_success_leaves_valid_collection_witness :
  ∃ c, store (_get_or_create_collection Example.quiet 2 Example.drifted).1.2 = Some c
       ∧ vector_size c = EMBEDDING_DIM
       ∧ "user_id" ∈ indexes c ∧ "file_id" ∈ indexes c.
Proof.
  apply (ensure_success_leaves_valid_collection Example.quiet 2 Example.drifted).
  vm_compute. reflexivity.
Defined.

(** Ensuring the collection after an ingestion keeps its three points. *)
Lemma ensure_keeps_matching_collection_witness :
  let run := _get_or_create_collection Example.quiet 1 Example.ingested in
  stored_points (store run.1.2) = points Scenario.ingested_collection
  ∧ (∃ c', store run.1.2 = Some c'
           ∧ vector_size c' = vector_size Scenario.ingested_collection)
  ∧ deletions run.2 = 0%nat.
Proof.
  apply (ensure_keeps_matching_collection Example.quiet 0 Example.ingested
           Scenario.ingested_collection).
  - vm_compute. reflexivity.
  - vm_compute. reflexivity.
  - intros e H. discriminate H.
Defined.

(** Ensuring the repaired collection once more changes nothing. *)
Lemma ensure_is_idempotent_witness :
  let first := _get_or_create_collection Example.quiet 2 Example.drifted in
  store (_get_or_create_collection Example.quiet 1 first.1.2).1.2 = store first.1.2.
Proof.
  apply (ensure_is_idempotent Example.quiet 2 0 Example.drifted).
  - vm_compute. reflexivity.
  - intros e H. discriminate H.
Defined.

(** A gateway error that mentions 404 empties the collection of [f1]. *)
Lemma error_mentioning_404_recreates_witness :
  let run := _get_or_create_collection Scenario.gateway_404 1
               {| clock := 0; store := store Example.ingested |} in
  run.1.1 = Ok tt
  ∧ store run.1.2 = Some {| vector_size := EMBEDDING_DIM;
                            indexes := ["user_id"; "file_id"];
                            points := [] |}.
Proof.
  apply (error_mentioning_404_recreates Scenario.gateway_404 0
           {| clock := 0; store := store Example.ingested |}
           (Exn "ApiException" "HTTP 404 page not found" None)).
  - reflexivity.
  - vm_compute. reflexivity.
  - intros k Hk. destruct k as [|k]; [lia|]. reflexivity.
Defined.

(** A PDF of blanks outside ASCII is skipped. *)
Lemma empty_document_is_skipped_witness :
  let run := process_document Scenario.blank_pdf "u1" "Ann" "docs" "blank.pdf"
               "2024-01-01" [] "f2" Example.fresh in
  run.1.1 = Ok PNone
  ∧ store run.1.2 = store Example.fresh
  ∧ outcome_of run.2 = Some SkippedEmpty
  ∧ upserts run.2 = []
  ∧ Forall (λ ev, ∀ chunks, ev ≠ Call (EmbedDocuments chunks)) run.2.
Proof.
  apply (empty_document_is_skipped Scenario.blank_pdf Example.fresh
           Example.empty_collection "u1" "Ann" "docs" "blank.pdf" "2024-01-01" [] "f2").
  - reflexivity.
  - apply fresh_has_no_point.
  - intros k _. reflexivity.
  - left. vm_compute. reflexivity.
Defined.

(** Two vectors for three chunks: the ingestion raises and writes
    nothing. *)
Lemma short_embeddings_raise_witness :
  let run := process_document Scenario.short_embedder "u1" "Ann" "docs" "a.pdf"
               "2024-01-01" [] "f1" Example.fresh in
  run.1.1 = Raise IndexError
  ∧ upserts run.2 = []
  ∧ store run.1.2 = store Example.fresh.
Proof.
  apply (short_embeddings_raise Scenario.short_embedder Example.fresh
           Example.empty_collection "u1" "Ann" "docs" "a.pdf" "2024-01-01" [] "f1").
  - reflexivity.
  - apply fresh_has_no_point.
  - intros k _. reflexivity.
  - vm_compute. intros H. discriminate H.
  - vm_compute. intros H. discriminate H.
  - vm_compute. lia.
Defined.


(** Deleting [f1] after its ingestion leaves none of its points. *)
Lemma deletion_removes_files_witness :
  let run := delete_by_file_ids Example.quiet (λ _, false) true ["f1"] Example.ingested in
  (∀ p, p ∈ stored_points (store run.1.2) ↔
        p ∈ stored_points (store Example.ingested)
        ∧ ¬ ∃ file_id, file_id ∈ ["f1"] ∧ payload p !! "file_id" = Some (PStr file_id))
  ∧ stored_points (store run.1.2) `sublist_of` stored_points (store Example.ingested)
  ∧ (∀ file_id user_id, file_id ∈ ["f1"] →
                        ¬ has_stored_point (store run.1.2) file_id user_id).
Proof.
  apply (deletion_removes_files Example.quiet (λ _, false) ["f1"] Example.ingested).
  - vm_compute. reflexivity.
  - intros H. discriminate H.
Defined.

(** Ingesting [f1] and deleting it gives the empty collection back. *)
Lemma ingest_then_delete_restores_witness :
  let first := process_document Example.quiet "u1" "Ann" "docs" "a.pdf"
                 "2024-01-01" [] "f1" Example.fresh in
  store (delete_by_file_ids Example.quiet (λ _, false) true ["f1"] first.1.2).1.2
  = store Example.fresh.
Proof.
  apply (ingest_then_delete_restores Example.quiet (λ _, false) Example.fresh
           (hd [] (upserts (process_document Example.quiet "u1" "Ann" "docs"
                              "a.pdf" "2024-01-01" [] "f1" Example.fresh).2))
           "u1" "Ann" "docs" "a.pdf" "2024-01-01" [] "f1").
  - vm_compute. reflexivity.
  - vm_compute. reflexivity.
  - split.
    + apply (@bool_decide_unpack _ (NoDup_dec _)). vm_compute. exact I.
    + intros c p q [= <-] _ Hq. simpl in Hq. by apply not_elem_of_nil in Hq.
  - intros p Hp. simpl in Hp. by apply not_elem_of_nil in Hp.
  - vm_compute. reflexivity.
Defined.

(** After [f1] was deleted it is ingested again, in three chunks. *)
Lemma deleted_file_can_be_ingested_again_witness :
  let deletion := delete_by_file_ids Example.quiet (λ _, false) true ["f1"] Example.ingested in
  let run := process_document Example.quiet "u1" "Ann" "docs" "a.pdf"
               "2024-01-01" [] "f1" deletion.1.2 in
  outcome_of run.2 = Some SkippedEmpty
  ∨ outcome_of run.2 = Some (Ingested (length (chunks_of Example.quiet []))).
Proof.
  apply (deleted_file_can_be_ingested_again Example.quiet (λ _, false) ["f1"] Example.ingested
           "u1" "Ann" "docs" "a.pdf" "2024-01-01" [] "f1" eq_refl
           (list_elem_of_here _ _) PNone).
  vm_compute. reflexivity.
Defined.

(** Deleting [f1] twice is deleting it once. *)
Lemma deletion_is_idempotent_witness :
  let first := delete_by_file_ids Example.quiet (λ _, false) true ["f1"] Example.ingested in
  store (delete_by_file_ids Example.quiet (λ _, false) true ["f1"] first.1.2).1.2 = store first.1.2.
Proof.
  apply (deletion_is_idempotent Example.quiet (λ _, false) true ["f1"] Example.ingested).
  vm_compute. reflexivity.
Defined.

(** The chunks found for a question about [f1] have a text each. *)
Lemma semantic_entries_have_text_witness :
  ∃ chunks,
    (search Example.quiet "what is alpha" "u1" ["f1"] Example.ingested).1.1 = Ok chunks
    ∧ ∀ entry, entry ∈ chunks →
        (∃ v, entry !! "text" = Some v ∧ truthy v = true)
        ∧ is_Some (entry !! "original_filename")
        ∧ ∀ k, k ≠ "text" → k ≠ "original_filename" → entry !! k = None.
Proof.
  apply (semantic_entries_have_text Example.quiet "what is alpha" "u1" ["f1"]
           Example.ingested).
  - intros H. discriminate H.
  - vm_compute. reflexivity.
Defined.

(** The summary of [f1] holds its three payloads. *)
Lemma summary_of_pipeline_store_complete_witness :
  let run := search Example.quiet "give me a summary" "u1" ["f1"] Example.ingested in
  let page := scroll_page (query_filter "u1" ["f1"]) SUMMARY_CHUNK_LIMIT
                Scenario.ingested_collection in
  ∃ payloads,
    run.1.1 = Ok payloads
    ∧ payloads ≡ₚ payload <$> page
    ∧ StronglySorted chunk_index_le payloads
    ∧ ∀ e, Log (LogQdrantFailed "u1" e) ∉ run.2.
Proof.
  apply (summary_of_pipeline_store_complete Example.quiet "give me a summary" "u1"
           ["f1"] Example.ingested Scenario.ingested_collection).
  - intros H. discriminate H.
  - vm_compute. reflexivity.
  - reflexivity.
  - vm_compute. reflexivity.
  - apply ingested_is_pipeline.
Defined.

(** One index is a number and the other one a string: no summary. *)
Lemma summary_with_mixed_indexes_is_empty_witness :
  let run := search Example.quiet "summarize this" "u1" ["f1"] Scenario.mixed in
  run.1.1 = Ok [] ∧ Log (LogQdrantFailed "u1" TypeError) ∈ run.2.
Proof.
  apply (summary_with_mixed_indexes_is_empty Example.quiet "summarize this" "u1"
           ["f1"] Scenario.mixed Scenario.mixed_collection
           Scenario.numbered Scenario.lettered).
  - intros H. discriminate H.
  - vm_compute. reflexivity.
  - reflexivity.
  - reflexivity.
  - vm_compute. apply list_elem_of_here.
  - vm_compute. apply list_elem_of_further, list_elem_of_here.
  - right. exists 0%Z. vm_compute. reflexivity.
  - right. exists "1". vm_compute. reflexivity.
Defined.

(** A keyword in capitals, the first one the Kelvin sign. *)
Lemma keyword_in_any_case_is_summary_witness :
  is_summary_request ("What are the " +:+ Scenario.kelvin_key_points +:+ "?") = true.
Proof.
  apply (keyword_in_any_case_is_summary "What are the " Scenario.kelvin_key_points
           "?" "key points").
  - do 5 apply list_elem_of_further. apply list_elem_of_here.
  - vm_compute. reflexivity.
  - vm_compute. reflexivity.
  - vm_compute. reflexivity.
Defined.

(** A fenced array between two sentences. *)
Lemma fenced_reply_is_unwrapped_witness :
  response_json_text
    ("Here you go: ```json" +:+ Example.array_text ["a"; "b"] +:+ "``` Hope it helps.")
  = Ok (Example.array_text ["a"; "b"]).
Proof.
  apply (fenced_reply_is_unwrapped _ "Here you go: " (Example.array_text ["a"; "b"])
           " Hope it helps.").
  - vm_compute. reflexivity.
  - vm_compute. reflexivity.
  - vm_compute. reflexivity.
  - vm_compute. reflexivity.
Defined.

(** The chat model replies [null]: the expansion is the query alone, and
    the [TypeError] is logged. *)
Lemma reply_that_is_no_array_witness :
  let run := _get_expanded_queries (Scenario.with_reply "null") "what is alpha"
               Example.ingested in
  run.1.1 = Ok (JList [JStr "what is alpha"])
  ∧ ∃ e, (e = TypeError ∨ e = AttributeError) ∧ Log (LogExpandFailed e) ∈ run.2.
Proof.
  refine (proj2 (reply_that_is_no_array (Scenario.with_reply "null") "what is alpha"
                   Example.ingested (λ _, "null") "null" JNull _ _ _ _ _) _).
  - reflexivity.
  - reflexivity.
  - vm_compute. reflexivity.
  - vm_compute. reflexivity.
  - intros l H. discriminate H.
  - vm_compute. intros H. discriminate H.
Defined.

(** The chat model replies with the question in quotes: fourteen
    searches, one per character. *)
Lemma string_reply_is_searched_by_character_witness :
  let E := Scenario.with_reply (Py.dq +:+ "what is alpha?" +:+ Py.dq) in
  let run := search E "what is alpha" "u1" ["f1"] Example.ingested in
  (∃ k, embedded_queries run.2 = take k (JStr <$> Py.chars "what is alpha?"))
  ∧ (retrieval_failed run.2 = false
     → length (searches run.2) = String.length "what is alpha?").
Proof.
  apply (string_reply_is_searched_by_character
           (Scenario.with_reply (Py.dq +:+ "what is alpha?" +:+ Py.dq))
           "what is alpha" "u1" ["f1"] Example.ingested
           (λ _, Py.dq +:+ "what is alpha?" +:+ Py.dq)
           (Py.dq +:+ "what is alpha?" +:+ Py.dq) "what is alpha?").
  - reflexivity.
  - reflexivity.
  - vm_compute. reflexivity.
  - vm_compute. reflexivity.
  - vm_compute. reflexivity.
  - intros H. discriminate H.
  - vm_compute. reflexivity.
Defined.

(** The summary of [f1] right after its ingestion, the store listing its
    points in the opposite order: alpha, beta, gamma. *)
Lemma ingested_file_is_summarized_in_order_witness :
  let first := process_document Scenario.countdown "u1" "Ann" "docs" "a.pdf"
                 "2024-01-01" [] "f1" Example.fresh in
  (search Scenario.countdown "give me a summary" "u1" ["f1"] first.1.2).1.1
  = Ok (imap (λ j ch, chunk_payload "u1" "Ann" "docs" "a.pdf" "2024-01-01" "f1" j ch)
             (chunks_of Scenario.countdown [])).
Proof.
  destruct (ingested_file_is_summarized_in_order Scenario.countdown Example.fresh
              (hd [] (upserts (process_document Scenario.countdown "u1" "Ann" "docs"
                                 "a.pdf" "2024-01-01" [] "f1" Example.fresh).2))
              "give me a summary" "u1" "Ann" "docs" "a.pdf" "2024-01-01" [] "f1")
    as (payloads & Hres & _ & _ & _ & Hall).
  - vm_compute. reflexivity.
  - vm_compute. reflexivity.
  - split.
    + apply (@bool_decide_unpack _ (NoDup_dec _)). vm_compute. exact I.
    + intros c p q [= <-] _ Hq. simpl in Hq. by apply not_elem_of_nil in Hq.
  - vm_compute. reflexivity.
  - reflexivity.
  - cbv zeta. rewrite Hres. f_equal. apply Hall. vm_compute. lia.
Defined.

(** Three chunks of two files: the files used are [a.pdf] and [b.pdf]. *)
Lemma context_of_well_formed_chunks_witness :
  ∃ texts files_used,
    assemble_context Scenario.retrieved
    = Ok (str_join context_separator texts, files_used)
    ∧ PStr <$> texts = (λ chunk, dict_get chunk "text") <$> Scenario.retrieved
    ∧ StronglySorted key_le files_used
    ∧ NoDup files_used
    ∧ ∀ v, v ∈ files_used ↔
           truthy v = true
           ∧ ∃ chunk, chunk ∈ Scenario.retrieved
                      ∧ chunk !! "original_filename" = Some v.
Proof.
  apply (context_of_well_formed_chunks Scenario.retrieved).
  intros chunk Hin.
  repeat (apply elem_of_cons in Hin as [->|Hin]);
    [..|by apply elem_of_nil in Hin];
    (split; [eexists; vm_compute; reflexivity|]);
    intros v Hv; vm_compute in Hv; injection Hv as <-; auto.
Defined.

(** A stored payload without a text: the summary has it, the context
    fails. *)
Lemma chunk_without_text_fails_context_witness :
  ∃ run,
    retrieve_context Example.quiet (JStr "summarize this") (JStr "u1")
      (JList (JStr <$> ["f1"])) Scenario.textless = Some run
    ∧ run.1.1 = (context_failed, [])
    ∧ AppLog (LogContextRetrievalFailed (JStr "u1") (KeyError "text")) ∈ run.2.
Proof.
  apply (chunk_without_text_fails_context Example.quiet "summarize this" "u1" ["f1"]
           Scenario.textless [payload Scenario.untexted] (payload Scenario.untexted)).
  - intros H. discriminate H.
  - vm_compute. reflexivity.
  - apply list_elem_of_here.
  - vm_compute. reflexivity.
Defined.

(** A question about [f1] after its ingestion; and the same request with a
    number for a prompt. *)
Lemma context_retrieval_of_typed_request_witness :
  (∃ run,
     retrieve_context Example.quiet (JStr "what is alpha") (JStr "u1")
       (JList (JStr <$> ["f1"])) Example.ingested = Some run
     ∧ (∀ m, AppLog m ∉ run.2)
     ∧ StronglySorted key_le run.1.1.2
     ∧ NoDup run.1.1.2
     ∧ ∀ v, v ∈ run.1.1.2 →
            ∃ c p file_id,
              store Example.ingested = Some c ∧ p ∈ points c
              ∧ payload p !! "original_filename" = Some v
              ∧ payload p !! "user_id" = Some (PStr "u1")
              ∧ file_id ∈ ["f1"]
              ∧ payload p !! "file_id" = Some (PStr file_id))
  ∧ retrieve_context Example.quiet (JNum 42) (JStr "u1") (JList [JStr "f1"])
      Example.ingested
    = Some ((context_failed, []), Example.ingested,
            [AppLog (LogContextRetrievalFailed (JStr "u1") AttributeError)]).
Proof.
  destruct (context_retrieval_of_typed_request Example.quiet "what is alpha" "u1"
              ["f1"] Example.ingested) as [Htyped Hother].
  - apply ingested_is_pipeline.
  - intros qv pts q H. exact H.
  - split; [exact Htyped|]. apply Hother; [|reflexivity].
    intros query H. discriminate H.
Defined.
